(** * Silero VAD segmentation engine: a shallow embedding of [src/vad/SileroVAD.ts]

    The engine is a class with mutable fields; here it is a record that every
    method takes and returns.

    Events.  A call [emit(name, data)] is recorded, in the order of emission,
    in a list.  [EventEmitter.emit] catches what a listener throws, so an
    emission never interrupts the engine; listeners are outside the engine and
    are taken not to call back into it.

    The model.  [session.run] is the only external collaborator and is a
    variable of the sections below, a total function from a frame and a
    recurrent state to a probability and the next recurrent state.  What
    [processFrame] itself can throw, "SileroVAD not initialized", is part of
    the embedding.

    Numbers.  A JavaScript [number] is represented by an exact rational ([Q]):
    rounding, NaN and the infinities have no counterpart, and the single place
    where the source can divide by zero (an empty chunk in the pruning step of
    [process]) is written out by cases.  Array lengths and indices are integers
    ([Z] or [nat]).  Timestamps are in seconds and durations in milliseconds,
    as in the source. *)

From Stdlib Require Import String List ZArith QArith Qround Qabs Bool Lia Lqa.
Import ListNotations.

Local Open Scope Z_scope.
Local Open Scope Q_scope.

(** ** Numbers and arrays as JavaScript has them *)

(** [a > b], [a < b] and [a >= b] on numbers. *)
Definition Qgtb (a b : Q) : bool := negb (Qle_bool a b).
Definition Qltb (a b : Q) : bool := negb (Qle_bool b a).
Definition Qgeb (a b : Q) : bool := Qle_bool b a.

(** [a || b] on numbers: [0] is the only falsy rational. *)
Definition js_or (a b : Q) : Q := if Qeq_bool a 0 then b else a.

(** [Math.max(a, b)] on numbers. *)
Definition js_max (a b : Q) : Q := if Qle_bool a b then b else a.

(** [Array.prototype.slice(start)] with an integer [start]: a negative
    [start] counts from the end, and [-0] is [0]. *)
Definition slice_from {A : Type} (start : Z) (l : list A) : list A :=
  let len := Z.of_nat (length l) in
  let k := if (start <? 0)%Z then Z.max (len + start) 0 else Z.min start len in
  skipn (Z.to_nat k) l.

(** [a.slice(lo, hi)] for [0 <= lo <= hi]. *)
Definition slice {A : Type} (lo hi : nat) (l : list A) : list A :=
  firstn (hi - lo) (skipn lo l).

(** ** Data model *)

(** One sample of a [Float32Array]; the engine only copies samples. *)
Definition Sample : Type := Q.
Definition Float32Array : Type := list Sample.

Inductive VADState : Type :=
| silence
| potential_start
| speaking
| potential_end.

(** [Required<SileroVADConfig>]. *)
Record SileroVADConfig : Type := mkConfig {
  enabled : bool;
  positiveSpeechThreshold : Q;
  negativeSpeechThreshold : Q;
  silenceDuration : Q;
  preSpeechPadDuration : Q;
  minSpeechDuration : Q;
  modelPath : string
}.

(** [Partial<SileroVADConfig>]: [None] is an absent key, [Some v] a key that
    carries a value. *)
Record PartialConfig : Type := mkPartial {
  p_enabled : option bool;
  p_positiveSpeechThreshold : option Q;
  p_negativeSpeechThreshold : option Q;
  p_silenceDuration : option Q;
  p_preSpeechPadDuration : option Q;
  p_minSpeechDuration : option Q;
  p_modelPath : option string
}.

(** An [ort.Tensor] of type float32: its data and its dimensions. *)
Record Tensor : Type := mkTensor {
  tdata : list Q;
  tdims : list Z
}.

Record Segment : Type := mkSegment {
  seg_start : Q;
  seg_end : Q;
  seg_duration : Q;
  seg_audioData : Float32Array
}.

Record VADEventData : Type := mkEventData {
  isSpeech : bool;
  probability : Q;
  timestamp : Q;
  segment : option Segment
}.

(** A call [emit(name, data)]. *)
Record Emitted : Type := mkEmitted {
  ev_name : string;
  ev_data : VADEventData
}.

(** The fields of the class.  [session] only records whether a session is
    loaded; [frameSize] is never assigned anything but 512 and is the constant
    below. *)
Record SileroVAD : Type := mkVAD {
  session : bool;
  config : SileroVADConfig;
  state : VADState;
  stateTensor : option Tensor;
  audioBuffer : list Float32Array;
  speechStartTime : Q;
  speechEndCandidateTime : Q;
  speechStartBufferIndex : Z;
  potentialSpeechDurationMs : Q;
  potentialSilenceDurationMs : Q;
  sampleBuffer : Float32Array;
  lastProbability : Q;
  lastTimestamp : Q
}.

Definition frameSize : nat := 512.

(** Field assignments. *)
Definition set_config (c : SileroVADConfig) (s : SileroVAD) : SileroVAD :=
  mkVAD (session s) c (state s) (stateTensor s) (audioBuffer s)
        (speechStartTime s) (speechEndCandidateTime s) (speechStartBufferIndex s)
        (potentialSpeechDurationMs s) (potentialSilenceDurationMs s)
        (sampleBuffer s) (lastProbability s) (lastTimestamp s).

Definition set_state (v : VADState) (s : SileroVAD) : SileroVAD :=
  mkVAD (session s) (config s) v (stateTensor s) (audioBuffer s)
        (speechStartTime s) (speechEndCandidateTime s) (speechStartBufferIndex s)
        (potentialSpeechDurationMs s) (potentialSilenceDurationMs s)
        (sampleBuffer s) (lastProbability s) (lastTimestamp s).

Definition set_stateTensor (t : option Tensor) (s : SileroVAD) : SileroVAD :=
  mkVAD (session s) (config s) (state s) t (audioBuffer s)
        (speechStartTime s) (speechEndCandidateTime s) (speechStartBufferIndex s)
        (potentialSpeechDurationMs s) (potentialSilenceDurationMs s)
        (sampleBuffer s) (lastProbability s) (lastTimestamp s).

Definition set_audioBuffer (b : list Float32Array) (s : SileroVAD) : SileroVAD :=
  mkVAD (session s) (config s) (state s) (stateTensor s) b
        (speechStartTime s) (speechEndCandidateTime s) (speechStartBufferIndex s)
        (potentialSpeechDurationMs s) (potentialSilenceDurationMs s)
        (sampleBuffer s) (lastProbability s) (lastTimestamp s).

Definition set_speechStartTime (t : Q) (s : SileroVAD) : SileroVAD :=
  mkVAD (session s) (config s) (state s) (stateTensor s) (audioBuffer s)
        t (speechEndCandidateTime s) (speechStartBufferIndex s)
        (potentialSpeechDurationMs s) (potentialSilenceDurationMs s)
        (sampleBuffer s) (lastProbability s) (lastTimestamp s).

Definition set_speechEndCandidateTime (t : Q) (s : SileroVAD) : SileroVAD :=
  mkVAD (session s) (config s) (state s) (stateTensor s) (audioBuffer s)
        (speechStartTime s) t (speechStartBufferIndex s)
        (potentialSpeechDurationMs s) (potentialSilenceDurationMs s)
        (sampleBuffer s) (lastProbability s) (lastTimestamp s).

Definition set_speechStartBufferIndex (i : Z) (s : SileroVAD) : SileroVAD :=
  mkVAD (session s) (config s) (state s) (stateTensor s) (audioBuffer s)
        (speechStartTime s) (speechEndCandidateTime s) i
        (potentialSpeechDurationMs s) (potentialSilenceDurationMs s)
        (sampleBuffer s) (lastProbability s) (lastTimestamp s).

Definition set_potentialSpeechDurationMs (d : Q) (s : SileroVAD) : SileroVAD :=
  mkVAD (session s) (config s) (state s) (stateTensor s) (audioBuffer s)
        (speechStartTime s) (speechEndCandidateTime s) (speechStartBufferIndex s)
        d (potentialSilenceDurationMs s)
        (sampleBuffer s) (lastProbability s) (lastTimestamp s).

Definition set_potentialSilenceDurationMs (d : Q) (s : SileroVAD) : SileroVAD :=
  mkVAD (session s) (config s) (state s) (stateTensor s) (audioBuffer s)
        (speechStartTime s) (speechEndCandidateTime s) (speechStartBufferIndex s)
        (potentialSpeechDurationMs s) d
        (sampleBuffer s) (lastProbability s) (lastTimestamp s).

Definition set_sampleBuffer (b : Float32Array) (s : SileroVAD) : SileroVAD :=
  mkVAD (session s) (config s) (state s) (stateTensor s) (audioBuffer s)
        (speechStartTime s) (speechEndCandidateTime s) (speechStartBufferIndex s)
        (potentialSpeechDurationMs s) (potentialSilenceDurationMs s)
        b (lastProbability s) (lastTimestamp s).

Definition set_lastProbability (p : Q) (s : SileroVAD) : SileroVAD :=
  mkVAD (session s) (config s) (state s) (stateTensor s) (audioBuffer s)
        (speechStartTime s) (speechEndCandidateTime s) (speechStartBufferIndex s)
        (potentialSpeechDurationMs s) (potentialSilenceDurationMs s)
        (sampleBuffer s) p (lastTimestamp s).

Definition set_lastTimestamp (t : Q) (s : SileroVAD) : SileroVAD :=
  mkVAD (session s) (config s) (state s) (stateTensor s) (audioBuffer s)
        (speechStartTime s) (speechEndCandidateTime s) (speechStartBufferIndex s)
        (potentialSpeechDurationMs s) (potentialSilenceDurationMs s)
        (sampleBuffer s) (lastProbability s) t.

(** ** Construction and configuration *)

Definition or_default {A : Type} (o : option A) (d : A) : A :=
  match o with Some v => v | None => d end.

(** The configuration the constructor stores: [config.x ?? default]. *)
Definition default_config (c : PartialConfig) : SileroVADConfig :=
  mkConfig (or_default (p_enabled c) true)
           (or_default (p_positiveSpeechThreshold c) 0.3)
           (or_default (p_negativeSpeechThreshold c) 0.25)
           (or_default (p_silenceDuration c) 1400)
           (or_default (p_preSpeechPadDuration c) 800)
           (or_default (p_minSpeechDuration c) 400)
           (or_default (p_modelPath c) "/models/silero_vad_v5.onnx"%string).

(** The field initialisers of the class and the constructor. *)
Definition new_SileroVAD (c : PartialConfig) : SileroVAD :=
  mkVAD false (default_config c) silence None [] 0 0 0%Z 0 0 [] 0 0.

(** [{ ...this.config, ...config }]. *)
Definition merge_config (old : SileroVADConfig) (c : PartialConfig) : SileroVADConfig :=
  mkConfig (or_default (p_enabled c) (enabled old))
           (or_default (p_positiveSpeechThreshold c) (positiveSpeechThreshold old))
           (or_default (p_negativeSpeechThreshold c) (negativeSpeechThreshold old))
           (or_default (p_silenceDuration c) (silenceDuration old))
           (or_default (p_preSpeechPadDuration c) (preSpeechPadDuration old))
           (or_default (p_minSpeechDuration c) (minSpeechDuration old))
           (or_default (p_modelPath c) (modelPath old)).

Definition updateConfig (c : PartialConfig) (s : SileroVAD) : SileroVAD :=
  set_config (merge_config (config s) c) s.

(** [resetStates]: a fresh [2, 1, 128] tensor of zeroes. *)
Definition zero_tensor : Tensor :=
  mkTensor (repeat 0 (2 * 128)) [2; 1; 128]%Z.

Definition resetStates (s : SileroVAD) : SileroVAD :=
  set_stateTensor (Some zero_tensor) s.

(** [initialize], when loading the model succeeds. *)
Definition initialize (s : SileroVAD) : SileroVAD :=
  resetStates (mkVAD true (config s) (state s) (stateTensor s) (audioBuffer s)
        (speechStartTime s) (speechEndCandidateTime s) (speechStartBufferIndex s)
        (potentialSpeechDurationMs s) (potentialSilenceDurationMs s)
        (sampleBuffer s) (lastProbability s) (lastTimestamp s)).

(** ** The hysteresis state machine *)

Definition resetToSilence (s : SileroVAD) : SileroVAD :=
  set_speechStartBufferIndex 0%Z
    (set_potentialSilenceDurationMs 0
      (set_potentialSpeechDurationMs 0
        (set_speechEndCandidateTime 0
          (set_speechStartTime 0
            (set_state silence s))))).

(** [(this.config.preSpeechPadDuration * 16000) / 1000]. *)
Definition prePadSamples (s : SileroVAD) : Q :=
  (preSpeechPadDuration (config s) * 16000) / 1000.

Definition calculateSpeechStartBufferIndex (s : SileroVAD) : Z :=
  match audioBuffer s with
  | [] => 0%Z
  | _ :: _ =>
      let len := length (last (audioBuffer s) []) in
      let lastChunkLength := match len with O => frameSize | _ => len end in
      let prePadFrames :=
        Qceiling (prePadSamples s / inject_Z (Z.max 1 (Z.of_nat lastChunkLength))) in
      Z.max 0 (Z.of_nat (length (audioBuffer s)) - prePadFrames)
  end.

Definition confirmSpeechStart (ts p : Q) (s : SileroVAD) : SileroVAD * list Emitted :=
  let s1 := set_state speaking s in
  let s2 := set_potentialSpeechDurationMs 0 s1 in
  let s3 := set_potentialSilenceDurationMs 0 s2 in
  let s4 := set_speechEndCandidateTime 0 s3 in
  let s5 := set_speechStartBufferIndex (calculateSpeechStartBufferIndex s4) s4 in
  (s5, [mkEmitted "speech-start" (mkEventData true p ts None)]).

(** [chunks.reduce((sum, chunk) => sum + chunk.length, 0)]. *)
Definition total_length (chunks : list Float32Array) : nat :=
  fold_left (fun sum chunk => (sum + length chunk)%nat) chunks O.

Definition createSpeechSegment (endTime : Q) (s : SileroVAD) : Segment :=
  let segmentData := slice_from (speechStartBufferIndex s) (audioBuffer s) in
  let totalLength := total_length segmentData in
  let audioData := concat segmentData in
  let durationMs := (inject_Z (Z.of_nat totalLength) / 16000) * 1000 in
  let startTimeSeconds := endTime - (durationMs / 1000) in
  let segmentStart := js_max 0 startTimeSeconds in
  mkSegment segmentStart endTime durationMs audioData.

Definition endSpeech (ts p : Q) (s : SileroVAD) : SileroVAD * list Emitted :=
  let speechDurationSeconds := ts - speechStartTime s in
  let speechDurationMs := speechDurationSeconds * 1000 in
  let seg :=
    if Qgeb speechDurationMs (minSpeechDuration (config s))
    then Some (createSpeechSegment ts s) else None in
  let ev := mkEmitted "speech-end" (mkEventData false p ts seg) in
  let s1 := resetToSilence s in
  let prePadFrames := Qceiling (prePadSamples s1 / 320) in
  let maxBufferFrames := (prePadFrames * 2)%Z in
  let s2 :=
    if (Z.of_nat (length (audioBuffer s1)) >? maxBufferFrames)%Z
    then set_audioBuffer (slice_from (- maxBufferFrames) (audioBuffer s1)) s1
    else s1 in
  (s2, [ev]).

(** The duration one step advances the machine by: the fallback replaces a
    duration that is not positive by one frame, [(512 / 16000) * 1000] ms. *)
Definition step_duration (processedDurationMs : Q) : Q :=
  if Qgtb processedDurationMs 0 then processedDurationMs
  else (inject_Z (Z.of_nat frameSize) / 16000) * 1000.

Definition is_speech (v : VADState) : bool :=
  match v with speaking | potential_end => true | _ => false end.

(** The [switch] of [updateVADState]: the state after the step and the events
    emitted by it. *)
Definition updateVADState_step (p ts processedDurationMs : Q) (s : SileroVAD)
  : SileroVAD * list Emitted :=
  let durationMs := step_duration processedDurationMs in
  let positiveThreshold := positiveSpeechThreshold (config s) in
  let negativeThreshold := negativeSpeechThreshold (config s) in
  match state s with
  | silence =>
      if Qgtb p positiveThreshold then
        (set_potentialSilenceDurationMs 0
          (set_potentialSpeechDurationMs durationMs
            (set_speechStartTime ts
              (set_state potential_start s))), [])
      else (s, [])
  | potential_start =>
      if Qgtb p positiveThreshold then
        let s1 := set_potentialSpeechDurationMs
                    (potentialSpeechDurationMs s + durationMs) s in
        if Qgeb (potentialSpeechDurationMs s1) (minSpeechDuration (config s1))
        then confirmSpeechStart ts p s1
        else (s1, [])
      else if Qltb p negativeThreshold then (resetToSilence s, [])
      else (s, [])
  | speaking =>
      if Qltb p negativeThreshold then
        (set_speechEndCandidateTime ts
          (set_potentialSilenceDurationMs durationMs
            (set_state potential_end s)), [])
      else
        (set_speechEndCandidateTime 0
          (set_potentialSilenceDurationMs 0 s), [])
  | potential_end =>
      if Qltb p negativeThreshold then
        let s1 := set_potentialSilenceDurationMs
                    (potentialSilenceDurationMs s + durationMs) s in
        if Qgeb (potentialSilenceDurationMs s1) (silenceDuration (config s1))
        then
          let endTime := js_or (speechEndCandidateTime s1) ts in
          endSpeech endTime p s1
        else (s1, [])
      else if Qgtb p positiveThreshold then
        (set_speechEndCandidateTime 0
          (set_potentialSilenceDurationMs 0
            (set_state speaking s)), [])
      else (s, [])
  end.

(** [updateVADState]: the step together with the value it returns. *)
Definition updateVADState (p ts processedDurationMs : Q) (s : SileroVAD)
  : SileroVAD * list Emitted * bool :=
  let r := updateVADState_step p ts processedDurationMs s in
  (r, is_speech (state (fst r))).

(** [reset]. *)
Definition reset (s : SileroVAD) : SileroVAD :=
  resetStates
    (set_lastTimestamp 0
      (set_lastProbability 0
        (set_sampleBuffer []
          (set_audioBuffer []
            (resetToSilence s))))).

(** [flush(timestamp?)]: [speechEndCandidateTime] is always a number, so the
    chain of [??] stops at it when no timestamp is given. *)
Definition flush (ts : option Q) (s : SileroVAD) : SileroVAD * list Emitted :=
  match state s with
  | speaking | potential_end =>
      let endTime :=
        match ts with Some t => t | None => speechEndCandidateTime s end in
      endSpeech endTime (lastProbability s) s
  | potential_start => (resetToSilence s, [])
  | silence => (s, [])
  end.

(** ** Frame reassembly and [process] *)

Section Engine.

(** [session.run]: the speech probability of one frame and the next recurrent
    state, given the frame and the current recurrent state. *)
Variable run : Float32Array -> Tensor -> Q * Tensor.

(** [processFrame]: [None] stands for the thrown "SileroVAD not initialized". *)
Definition processFrame (frame : Float32Array) (s : SileroVAD)
  : option (Q * SileroVAD) :=
  match session s, stateTensor s with
  | true, Some t =>
      let out := run frame t in
      Some (fst out, set_stateTensor (Some (snd out)) s)
  | _, _ => None
  end.

(** What the [while] loop of [process] leaves behind: it either throws out of
    [processFrame], or ends with the local variables [offset],
    [totalProbability] and [frameCount].  [frames] lists the frames handed to
    the model, oldest first. *)
Inductive LoopResult : Type :=
| LoopThrew (s : SileroVAD) (frames : list Float32Array)
| LoopDone (s : SileroVAD) (frames : list Float32Array)
           (offset : nat) (totalProbability : Q) (frameCount : nat).

(** The loop [while (offset + frameSize <= combinedAudio.length)].  Every
    iteration moves [offset] forward by 512, so [fuel] iterations are enough as
    soon as [fuel] exceeds the length of [combinedAudio]. *)
Fixpoint frame_loop (fuel : nat) (combinedAudio : Float32Array)
    (s : SileroVAD) (frames : list Float32Array)
    (offset : nat) (totalProbability : Q) (frameCount : nat) : LoopResult :=
  match fuel with
  | O => LoopDone s frames offset totalProbability frameCount
  | S fuel' =>
      if (offset + frameSize <=? length combinedAudio)%nat then
        let frame := slice offset (offset + frameSize) combinedAudio in
        match processFrame frame s with
        | None => LoopThrew s frames
        | Some (p, s') =>
            frame_loop fuel' combinedAudio (set_lastProbability p s')
                       (frames ++ [frame]) (offset + frameSize)%nat
                       (totalProbability + p) (S frameCount)
        end
      else LoopDone s frames offset totalProbability frameCount
  end.

(** The pruning of [audioBuffer] that [process] performs in the silence state.
    With an empty chunk the source divides by zero: a positive number of
    padding samples gives [Infinity] and 0 gives [NaN], and then nothing is
    pruned; a negative number gives [-Infinity], and [slice(Infinity)] is
    empty. *)
Definition maxBufferFrames (s : SileroVAD) (frameLength : nat) : Z :=
  let prePadFrames :=
    Qceiling (prePadSamples s / inject_Z (Z.of_nat frameLength)) in
  (prePadFrames * 2)%Z.

Definition prune_in_silence (audioData : Float32Array) (s : SileroVAD) : SileroVAD :=
  match length audioData with
  | O => if Qltb (prePadSamples s) 0 then set_audioBuffer [] s else s
  | S _ =>
      if Qgtb (inject_Z (Z.of_nat (length (audioBuffer s))))
              (inject_Z (maxBufferFrames s (length audioData)) * 1.5)
      then set_audioBuffer
             (slice_from (- maxBufferFrames s (length audioData)) (audioBuffer s)) s
      else s
  end.

Record ProcessResult : Type := mkResult {
  r_isSpeech : bool;
  r_probability : Q
}.

(** The outcome of one call of [process]: the engine afterwards, the frames
    handed to the model and the events emitted, and the returned value unless
    the call threw. *)
Inductive Outcome : Type :=
| Returned (r : ProcessResult) (s : SileroVAD)
           (frames : list Float32Array) (events : list Emitted)
| Threw (s : SileroVAD) (frames : list Float32Array).

(** The first part of [process], up to the loop: the engine with the chunk
    recorded, and [combinedAudio]. *)
Definition process_prepare (audioData : Float32Array) (ts : Q) (s : SileroVAD)
  : SileroVAD * Float32Array :=
  let s1 := set_lastTimestamp ts s in
  let s2 := set_audioBuffer (audioBuffer s1 ++ [audioData]) s1 in
  let s3 := match state s2 with
            | silence => prune_in_silence audioData s2
            | _ => s2
            end in
  (s3, sampleBuffer s3 ++ audioData).

(** [processedDurationMs] and [finalProbability]. *)
Definition processedDurationMs (frameCount : nat) (audioData : Float32Array) : Q :=
  match frameCount with
  | O => (inject_Z (Z.of_nat (length audioData)) / 16000) * 1000
  | S _ =>
      inject_Z (Z.of_nat frameCount)
      * ((inject_Z (Z.of_nat frameSize) / 16000) * 1000)
  end.

Definition finalProbability (frameCount : nat) (totalProbability : Q)
    (s : SileroVAD) : Q :=
  match frameCount with
  | O => lastProbability s
  | S _ => totalProbability / inject_Z (Z.of_nat frameCount)
  end.

Definition process (audioData : Float32Array) (ts : Q) (s : SileroVAD) : Outcome :=
  let '(s3, combinedAudio) := process_prepare audioData ts s in
  match frame_loop (S (length combinedAudio)) combinedAudio s3 [] 0 0 0 with
  | LoopThrew s4 frames => Threw s4 frames
  | LoopDone s4 frames offset totalProbability frameCount =>
      let s5 := set_sampleBuffer (skipn offset combinedAudio) s4 in
      let d := processedDurationMs frameCount audioData in
      let p := finalProbability frameCount totalProbability s5 in
      let '(s6, events, speech) := updateVADState p ts d s5 in
      Returned (mkResult speech p) s6 frames events
  end.

Definition outcome_events (o : Outcome) : list Emitted :=
  match o with
  | Returned _ _ _ events => events
  | Threw _ _ => []
  end.

Definition outcome_engine (o : Outcome) : SileroVAD :=
  match o with
  | Returned _ s _ _ => s
  | Threw s _ => s
  end.

Definition loop_engine (r : LoopResult) : SileroVAD :=
  match r with
  | LoopThrew s _ => s
  | LoopDone s _ _ _ _ => s
  end.

(** Feeding a sequence of chunks with their timestamps to [process], in
    order: the engine after the last call, all frames handed to the model and
    all events emitted, or [None] as soon as one call throws. *)
Fixpoint process_all (chunks : list (Float32Array * Q)) (s : SileroVAD)
  : option (SileroVAD * list Float32Array * list Emitted) :=
  match chunks with
  | [] => Some (s, [], [])
  | (audioData, ts) :: rest =>
      match process audioData ts s with
      | Threw _ _ => None
      | Returned _ s' frames events =>
          match process_all rest s' with
          | None => None
          | Some (s'', frames', events') =>
              Some (s'', frames ++ frames', events ++ events')
          end
      end
  end.

(** The model run over consecutive frames, the recurrent state threaded from
    one frame to the next: the probabilities, and the last recurrent state. *)
Fixpoint infer (frames : list Float32Array) (t : Tensor) : list Q * Tensor :=
  match frames with
  | [] => ([], t)
  | f :: fs =>
      let out := run f t in
      let rest := infer fs (snd out) in
      (fst out :: fst rest, snd rest)
  end.

(** The engine once the loop has handed frames to the model: only
    [lastProbability] and [stateTensor] have moved. *)
Definition after_frames (probs : list Q) (t : Tensor) (s : SileroVAD) : SileroVAD :=
  match probs with
  | [] => s
  | _ :: _ => set_lastProbability (last probs 0) (set_stateTensor (Some t) s)
  end.

(** The engines a client can obtain through the public methods. *)
Inductive reachable : SileroVAD -> Prop :=
| reach_new (c : PartialConfig) : reachable (new_SileroVAD c)
| reach_initialize (s : SileroVAD) :
    reachable s -> reachable (initialize s)
| reach_process (s : SileroVAD) (audioData : Float32Array) (ts : Q) :
    reachable s -> reachable (outcome_engine (process audioData ts s))
| reach_flush (s : SileroVAD) (ts : option Q) :
    reachable s -> reachable (fst (flush ts s))
| reach_reset (s : SileroVAD) :
    reachable s -> reachable (reset s)
| reach_updateConfig (s : SileroVAD) (c : PartialConfig) :
    reachable s -> reachable (updateConfig c s).

End Engine.

(** An engine on which [processFrame] does not throw. *)
Definition initialized (s : SileroVAD) : Prop :=
  session s = true /\ stateTensor s <> None.

(** The sum [0 + p1 + ... + pn] the loop accumulates. *)
Definition sum_probabilities (probs : list Q) : Q := fold_left Qplus probs 0.

(** The fields the state machine reads and writes. *)
Definition same_machine (a b : SileroVAD) : Prop :=
  config a = config b /\ state a = state b
  /\ speechStartTime a = speechStartTime b
  /\ speechEndCandidateTime a = speechEndCandidateTime b
  /\ speechStartBufferIndex a = speechStartBufferIndex b
  /\ potentialSpeechDurationMs a = potentialSpeechDurationMs b
  /\ potentialSilenceDurationMs a = potentialSilenceDurationMs b.

(** A finalisation, at the end time [endTime] (seconds), of the segment that
    is in progress in [s]: the engine is back in [silence] and exactly one
    event was emitted, a speech-end stamped [endTime], which carries a segment
    exactly when the time from [speechStartTime] to [endTime] is at least
    [minSpeechDuration] (milliseconds). *)
Definition finalized_once (s : SileroVAD) (endTime : Q)
    (r : SileroVAD * list Emitted) : Prop :=
  state (fst r) = silence
  /\ exists e : Emitted,
      snd r = [e]
      /\ ev_name e = "speech-end"%string
      /\ timestamp (ev_data e) = endTime
      /\ (segment (ev_data e) <> None
          <-> minSpeechDuration (config s)
              <= (endTime - speechStartTime s) * 1000).

(** The payload of a segment cut out of [buffer] from the chunk of index
    [cut] on and ending at [endTime] (seconds): the samples of those chunks in
    order, their duration in milliseconds at 16000 samples per second, and a
    start that is the end minus that duration, but not below 0. *)
Definition segment_of (buffer : list Float32Array) (cut : Z) (endTime : Q)
    (seg : Segment) : Prop :=
  seg_audioData seg = concat (skipn (Z.to_nat cut) buffer)
  /\ seg_duration seg
     == inject_Z (Z.of_nat (length (seg_audioData seg))) / 16000 * 1000
  /\ seg_end seg = endTime
  /\ seg_start seg
     == js_max 0 (endTime
                  - inject_Z (Z.of_nat (length (seg_audioData seg))) / 16000).

(** ** Fixtures for concrete runs *)

(** A stand-in for the model: the probability of a frame is its first
    sample, and the recurrent state is handed back as it came. *)
Definition probe_run (frame : Float32Array) (t : Tensor) : Q * Tensor :=
  (hd 0 frame, t).

Definition no_options : PartialConfig :=
  mkPartial None None None None None None None.

(** An engine built with the default configuration and initialised. *)
Definition fresh_engine : SileroVAD := initialize (new_SileroVAD no_options).

(** A chunk of [n] samples, all equal to [v]. *)
Definition constant_chunk (n : nat) (v : Sample) : Float32Array := repeat v n.

(** [n] chunks of [len] samples equal to [v]; the chunk of index [i] carries
    the timestamp [i * dt]. *)
Fixpoint steady_stream (n len : nat) (v : Sample) (dt : Q) (i : Z)
  : list (Float32Array * Q) :=
  match n with
  | O => []
  | S n' =>
      (constant_chunk len v, inject_Z i * dt)
        :: steady_stream n' len v dt (i + 1)%Z
  end.

(** The engine and the events after a sequence of calls of [process]. *)
Definition engine_after (chunks : list (Float32Array * Q)) (s : SileroVAD)
  : SileroVAD :=
  match process_all probe_run chunks s with
  | Some (s', _, _) => s'
  | None => s
  end.

Definition events_of (chunks : list (Float32Array * Q)) (s : SileroVAD)
  : list Emitted :=
  match process_all probe_run chunks s with
  | Some (_, _, events) => events
  | None => []
  end.

(** Twelve frames of 32 ms above the positive threshold, from time 0 on: the
    engine has accumulated 384 ms of potential speech. *)
Definition confirming_engine : SileroVAD :=
  engine_after (steady_stream 12 512 0.9 0.032 0) fresh_engine.

(** Thirteen frames above the positive threshold: the speech is confirmed. *)
Definition speaking_engine : SileroVAD :=
  engine_after (steady_stream 13 512 0.9 0.032 0) fresh_engine.

(** The same speech followed by 43 frames below the negative threshold:
    1376 ms of the 1400 ms of silence that end a segment. *)
Definition ending_engine : SileroVAD :=
  engine_after (steady_stream 43 512 0.1 0.032 13) speaking_engine.

(** One frame above the positive threshold: a start is pending, and the last
    probability is 0.9. *)
Definition primed_engine : SileroVAD :=
  engine_after (steady_stream 1 512 0.9 0.032 0) fresh_engine.

(** Forty silent frames and then thirteen frames above the positive
    threshold: the speech is confirmed with 53 chunks in the buffer. *)
Definition late_speaking_engine : SileroVAD :=
  engine_after (steady_stream 13 512 0.9 0.032 40)
    (engine_after (steady_stream 40 512 0 0.032 0) fresh_engine).

(** 81 silent chunks of 20 ms (320 samples). *)
Definition idle_engine : SileroVAD :=
  engine_after (steady_stream 81 320 0 0.02 0) fresh_engine.

(** The segment an event carries, if any, without its samples: start, end,
    duration (all in lowest terms) and number of samples. *)
Definition segment_summary (e : Emitted) : option (Q * Q * Q * Z) :=
  option_map
    (fun g => (Qred (seg_start g), Qred (seg_end g), Qred (seg_duration g),
               Z.of_nat (length (seg_audioData g))))
    (segment (ev_data e)).

(** Whether the start of the segment an event carries is its end minus the
    duration of its samples at 16000 samples per second. *)
Definition start_is_end_minus_duration (e : Emitted) : option bool :=
  option_map
    (fun g => Qeq_bool (seg_start g)
                (seg_end g
                 - inject_Z (Z.of_nat (length (seg_audioData g))) / 16000))
    (segment (ev_data e)).

(** The number of frames handed to the model by each call, and the length
    of the remainder after it, over a sequence of calls. *)
Fixpoint alignment (chunks : list (Float32Array * Q)) (s : SileroVAD)
  : list (nat * nat) :=
  match chunks with
  | [] => []
  | (audioData, ts) :: rest =>
      match process probe_run audioData ts s with
      | Returned _ s' frames _ =>
          (length frames, length (sampleBuffer s')) :: alignment rest s'
      | Threw _ _ => []
      end
  end.

(** ** The rest of the engine *)

(** [close]: the pending segment is flushed, the session is released and the
    recurrent state dropped.  The listeners it removes live in the emitter
    (below), outside this record. *)
Definition close (s : SileroVAD) : SileroVAD * list Emitted :=
  let r := flush None s in
  let s1 := fst r in
  (mkVAD false (config s1) (state s1) None (audioBuffer s1)
         (speechStartTime s1) (speechEndCandidateTime s1)
         (speechStartBufferIndex s1)
         (potentialSpeechDurationMs s1) (potentialSilenceDurationMs s1)
         (sampleBuffer s1) (lastProbability s1) (lastTimestamp s1),
   snd r).

(** A configuration object that sets every key. *)
Definition all_options (c : SileroVADConfig) : PartialConfig :=
  mkPartial (Some (enabled c))
            (Some (positiveSpeechThreshold c)) (Some (negativeSpeechThreshold c))
            (Some (silenceDuration c)) (Some (preSpeechPadDuration c))
            (Some (minSpeechDuration c)) (Some (modelPath c)).

(** [{ ...a, ...b }] on two configuration objects. *)
Definition overlay (a b : PartialConfig) : PartialConfig :=
  let pick {A : Type} (x y : option A) : option A :=
    match y with Some _ => y | None => x end in
  mkPartial (pick (p_enabled a) (p_enabled b))
            (pick (p_positiveSpeechThreshold a) (p_positiveSpeechThreshold b))
            (pick (p_negativeSpeechThreshold a) (p_negativeSpeechThreshold b))
            (pick (p_silenceDuration a) (p_silenceDuration b))
            (pick (p_preSpeechPadDuration a) (p_preSpeechPadDuration b))
            (pick (p_minSpeechDuration a) (p_minSpeechDuration b))
            (pick (p_modelPath a) (p_modelPath b)).

(** Event names that alternate between speech-start and speech-end, the
    first one being speech-end when [speech] holds and speech-start
    otherwise. *)
Fixpoint alternating (speech : bool) (names : list string) : Prop :=
  match names with
  | [] => True
  | n :: rest =>
      n = (if speech then "speech-end" else "speech-start")%string
      /\ alternating (negb speech) rest
  end.

(** A stand-in for a model that never hears speech. *)
Definition quiet_run (frame : Float32Array) (t : Tensor) : Q * Tensor := (0, t).

(** ** The event emitter ([src/core/EventEmitter.ts])

    [listeners] is a [Map] from event names to [Set]s of functions.  A set
    keeps its elements in insertion order and holds a function once, and
    functions are compared by identity.  A function that a client registers
    is identified by a number; the wrapper that [once] creates is a new
    function at every call of [once], identified by the number of wrappers
    created before it ([allocated]).  What a client function does when it is
    called is outside the emitter: it returns or it throws, which [throws]
    tells from the function and the payload, and it is taken not to call the
    emitter. *)
Module EventEmitter.

Inductive Listener : Type :=
| Client (fn : nat)
| OnceWrapper (w : nat) (fn : nat).

(** The client function a listener ends up calling. *)
Definition callee (l : Listener) : nat :=
  match l with Client fn => fn | OnceWrapper _ fn => fn end.

(** Identity of functions. *)
Definition same (a b : Listener) : bool :=
  match a, b with
  | Client f, Client g => Nat.eqb f g
  | OnceWrapper v _, OnceWrapper w _ => Nat.eqb v w
  | _, _ => false
  end.

Record t : Type := mk {
  listeners : list (string * list Listener);
  allocated : nat
}.

Definition empty : t := mk [] 0.

(** [Map.get], [Map.set] on a key that is present, [Map.delete]. *)
Definition map_get (event : string) (m : list (string * list Listener))
  : option (list Listener) :=
  match find (fun kv => String.eqb event (fst kv)) m with
  | Some kv => Some (snd kv)
  | None => None
  end.

Definition map_replace (event : string) (set : list Listener)
    (m : list (string * list Listener)) : list (string * list Listener) :=
  map (fun kv => if String.eqb event (fst kv) then (fst kv, set) else kv) m.

Definition map_delete (event : string) (m : list (string * list Listener))
  : list (string * list Listener) :=
  filter (fun kv => negb (String.eqb event (fst kv))) m.

(** [Set.add] and [Set.delete]. *)
Definition set_add (l : Listener) (set : list Listener) : list Listener :=
  if existsb (same l) set then set else set ++ [l].

Definition set_delete (l : Listener) (set : list Listener) : list Listener :=
  filter (fun x => negb (same l x)) set.

Definition getHandlers (event : string) (e : t) : option (list Listener) :=
  map_get event (listeners e).

(** [getHandlerSet(event).add(l)]: the set of the event, created empty when
    the event has none, with [l] added. *)
Definition add_listener (event : string) (l : Listener) (e : t) : t :=
  match getHandlers event e with
  | Some set => mk (map_replace event (set_add l set) (listeners e)) (allocated e)
  | None => mk (listeners e ++ [(event, set_add l [])]) (allocated e)
  end.

(** [getHandlers(event)?.delete(l)]. *)
Definition delete_listener (event : string) (l : Listener) (e : t) : t :=
  match getHandlers event e with
  | Some set => mk (map_replace event (set_delete l set) (listeners e)) (allocated e)
  | None => e
  end.

Definition on (event : string) (fn : nat) (e : t) : t :=
  add_listener event (Client fn) e.

Definition off (event : string) (fn : nat) (e : t) : t :=
  delete_listener event (Client fn) e.

Definition once (event : string) (fn : nat) (e : t) : t :=
  add_listener event (OnceWrapper (allocated e) fn)
               (mk (listeners e) (S (allocated e))).

Definition listenerCount (event : string) (e : t) : nat :=
  match getHandlers event e with
  | Some set => length set
  | None => O
  end.

(** [removeAllListeners(event?)]: the test [if (event)] fails on an absent
    argument and on the empty name alike. *)
Definition removeAllListeners (event : option string) (e : t) : t :=
  match event with
  | Some name =>
      if String.eqb name "" then mk [] (allocated e)
      else mk (map_delete name (listeners e)) (allocated e)
  | None => mk [] (allocated e)
  end.

Section Emit.

Variable Payload : Type.

(** Whether the client function [fn] throws when called with a payload. *)
Variable throws : nat -> Payload -> bool.

(** One listener called by [forEach] inside [emit]: the call is recorded;
    what the listener throws is caught.  A wrapper of [once] calls its
    function and then removes itself, unless the function threw. *)
Definition call_listener (event : string) (data : Payload)
    (acc : t * list (nat * Payload)) (l : Listener) : t * list (nat * Payload) :=
  let '(e, calls) := acc in
  match l with
  | Client fn => (e, calls ++ [(fn, data)])
  | OnceWrapper _ fn =>
      if throws fn data then (e, calls ++ [(fn, data)])
      else (delete_listener event l e, calls ++ [(fn, data)])
  end.

(** [emit]: the emitter afterwards and the calls of client functions made,
    in order. *)
Definition emit (event : string) (data : Payload) (e : t)
  : t * list (nat * Payload) :=
  match getHandlers event e with
  | Some set => fold_left (call_listener event data) set (e, [])
  | None => (e, [])
  end.

(** The listeners [emit] leaves registered. *)
Definition stays (data : Payload) (l : Listener) : bool :=
  match l with
  | Client _ => true
  | OnceWrapper _ fn => throws fn data
  end.

End Emit.

(** The listeners of an event, none when the event has no set. *)
Definition handlers (event : string) (e : t) : list Listener :=
  match getHandlers event e with Some set => set | None => [] end.

(** No function twice in a set. *)
Fixpoint unique (set : list Listener) : Prop :=
  match set with
  | [] => True
  | l :: rest => existsb (same l) rest = false /\ unique rest
  end.

(** Every wrapper in a set was created before [n] wrappers were. *)
Definition created_before (n : nat) (set : list Listener) : Prop :=
  Forall (fun l => match l with
                   | Client _ => True
                   | OnceWrapper w _ => (w < n)%nat
                   end) set.

(** What holds of every emitter built from [empty] with the methods. *)
Definition wf (e : t) : Prop :=
  forall event : string,
    unique (handlers event e)
    /\ created_before (allocated e) (handlers event e).

End EventEmitter.

(** ** The audio processor ([AudioProcessor], kept in
    [src/core/RealtimeAudioSDK.ts]) and what [RTA] forwards *)
Module AudioProcessor.

Inductive EventType : Type := start | end_.

(** [VADStateEvent] as [emitVADEvent] builds it. *)
Record VADStateEvent : Type := mkState {
  se_type : EventType;
  se_timestamp : Q;
  se_probability : Q;
  se_duration : option Q
}.

(** [VADSegmentEvent]; times in milliseconds. *)
Record VADSegmentEvent : Type := mkSegmentEvent {
  sg_audio : Float32Array;
  sg_startTime : Q;
  sg_endTime : Q;
  sg_duration : Q;
  sg_avgProbability : Q;
  sg_confidence : Q
}.

(** A call of [emit] by the processor, under one of its three event
    names. *)
Inductive Event : Type :=
| SpeechState (e : VADStateEvent)
| SpeechSegment (e : VADSegmentEvent)
| VadResult (e : VADEventData).

Definition calculateConfidence (probability : Q) : Q :=
  if Qgtb probability 0.9 then 1
  else if Qgtb probability 0.7 then 0.9
  else if Qgtb probability 0.5 then 0.8
  else probability.

(** [emitVADEvent]: the events emitted, in order.  The products by 1000 are
    exact here; the source computes them in doubles, so only what does not
    depend on their rounding is stated of [startTime] and [endTime]. *)
Definition emitVADEvent (type : EventType) (data : VADEventData) : list Event :=
  let event :=
    mkState type (timestamp data) (probability data)
            (match type, segment data with
             | end_, Some seg => Some (seg_duration seg)
             | _, _ => None
             end) in
  SpeechState event
  :: match type, segment data with
     | end_, Some seg =>
         [SpeechSegment
            (mkSegmentEvent (seg_audioData seg)
                            (seg_start seg * 1000) (seg_end seg * 1000)
                            (seg_duration seg)
                            (probability data)
                            (calculateConfidence (probability data)))]
     | _, _ => []
     end.

(** The listeners that [initialize] registers on the engine, applied to one
    event of the engine. *)
Definition forward (e : Emitted) : list Event :=
  if String.eqb (ev_name e) "speech-start" then emitVADEvent start (ev_data e)
  else if String.eqb (ev_name e) "speech-end" then emitVADEvent end_ (ev_data e)
  else if String.eqb (ev_name e) "vad-result" then [VadResult (ev_data e)]
  else [].

(** The listeners that [RTA.setupEventHandlers] registers on the processor,
    applied to one event of the processor: speech-state and vad-result are
    emitted again, and nothing listens to speech-segment. *)
Definition rta_forward (e : Event) : list Event :=
  match e with
  | SpeechState _ => [e]
  | VadResult _ => [e]
  | SpeechSegment _ => []
  end.

(** [Math.max(...Array.from(data).map(Math.abs))] on an array that is not
    empty. *)
Definition max_abs (first : Sample) (rest : Float32Array) : Q :=
  fold_left js_max (map Qabs rest) (Qabs first).

(** [normalize]: on an empty array [Math.max()] is [-Infinity], which is
    not 0, and the loop then fills nothing. *)
Definition normalize (data : Float32Array) : Float32Array :=
  match data with
  | [] => []
  | first :: rest =>
      let max := max_abs first rest in
      if Qeq_bool max 0 then data else map (fun x => x / max) data
  end.

(** What one event of the engine becomes on its way to a client of [RTA]. *)
Definition state_event_of (e : Emitted) : VADStateEvent :=
  let type := if String.eqb (ev_name e) "speech-end" then end_ else start in
  mkState type (timestamp (ev_data e)) (probability (ev_data e))
          (match type with
           | end_ => option_map seg_duration (segment (ev_data e))
           | start => None
           end).

End AudioProcessor.

(** ** The capture worklet (the processor that [AudioCapture.getWorkletCode]
    returns as text)

    The audio thread hands blocks of samples to [process]; the processor
    queues them and posts one chunk of [framesPerChunk] samples whenever it
    holds that many. *)
Module Worklet.

(** The fields of the processor that [process] and [extractChunk] use,
    for a chunk size that is a whole number. *)
Record Processor : Type := mkProcessor {
  buffer : list Float32Array;
  framesPerChunk : nat
}.

(** The constructor: nothing queued, and [framesPerChunk] 0 until a
    configuration message arrives. *)
Definition new_Processor : Processor := mkProcessor [] 0.

(** The handler of a configuration message, for a frame size (ms) and a
    sample rate whose product is a multiple of 1000. *)
Definition configure (frameSize sampleRate : nat) (p : Processor) : Processor :=
  mkProcessor (buffer p) ((frameSize * sampleRate) / 1000).

(** The loop of [extractChunk], from [offset] on; [written] holds the
    samples copied into the chunk so far, which are its first [offset]
    samples.  The result is what was written, the queue and the offset when
    the loop ends.  After the branch that splits a block the offset is
    [framesPerChunk], so the loop ends there. *)
Fixpoint extract_loop (queue : list Float32Array) (fpc offset : nat)
    (written : Float32Array) : Float32Array * list Float32Array * nat :=
  match queue with
  | [] => (written, [], offset)
  | block :: rest =>
      if (offset <? fpc)%nat then
        let remainingInChunk := (fpc - offset)%nat in
        let availableInBlock := length block in
        if (availableInBlock <=? remainingInChunk)%nat then
          extract_loop rest fpc (offset + availableInBlock)%nat
                       (written ++ block)
        else
          (written ++ firstn remainingInChunk block,
           skipn remainingInChunk block :: rest,
           (offset + remainingInChunk)%nat)
      else (written, queue, offset)
  end.

(** [extractChunk]: the chunk is created full of zeroes, so what the loop
    did not write stays 0. *)
Definition extractChunk (p : Processor) : Float32Array * Processor :=
  let '(written, queue, offset) := extract_loop (buffer p) (framesPerChunk p) 0 [] in
  (written ++ repeat 0 (framesPerChunk p - offset),
   mkProcessor queue (framesPerChunk p)).

(** [process(inputs)]: the processor afterwards and the chunk posted, if
    any.  [inputs] lists the inputs, each a list of channels. *)
Definition process (inputs : list (list Float32Array)) (p : Processor)
  : Processor * option Float32Array :=
  match inputs with
  | [] => (p, None)
  | [] :: _ => (p, None)
  | (channelData :: _) :: _ =>
      let p1 := mkProcessor (buffer p ++ [channelData]) (framesPerChunk p) in
      let totalFrames := total_length (buffer p1) in
      if (framesPerChunk p1 <=? totalFrames)%nat then
        let '(chunk, p2) := extractChunk p1 in (p2, Some chunk)
      else (p1, None)
  end.

(** The audio thread calling [process] with one mono block after another:
    the processor afterwards and the chunks posted, in order. *)
Fixpoint process_blocks (blocks : list Float32Array) (p : Processor)
  : Processor * list Float32Array :=
  match blocks with
  | [] => (p, [])
  | block :: rest =>
      let '(p1, posted) := process [[block]] p in
      let '(p2, later) := process_blocks rest p1 in
      (p2, match posted with Some chunk => chunk :: later | None => later end)
  end.

End Worklet.

(** Outside [potential_end] no candidate for the end of the speech is
    recorded. *)
Definition no_candidate (s : SileroVAD) : Prop :=
  state s <> potential_end -> speechEndCandidateTime s = 0.

(** * Properties *)

(** ** Concrete runs *)

(** Chunks of 20 ms and of 60 ms against frames of 512 samples: the frames
    completed by each call and the samples carried over. *)
Example alignment_20ms :
  alignment (steady_stream 4 320 0 0.02 0) fresh_engine
  = [(0, 320); (1, 128); (0, 448); (1, 256)]%nat.
Proof. vm_compute. reflexivity. Qed.

Example alignment_60ms :
  alignment (steady_stream 3 960 0 0.06 0) fresh_engine
  = [(1, 448); (2, 384); (2, 320)]%nat.
Proof. vm_compute. reflexivity. Qed.

(** Thirteen frames of 32 ms above the positive threshold: one speech-start,
    emitted by the thirteenth call. *)
Example thirteen_frames_start_speech :
  map ev_name (events_of (steady_stream 12 512 0.9 0.032 0) fresh_engine) = []
  /\ map ev_name (events_of (steady_stream 13 512 0.9 0.032 0) fresh_engine)
     = ["speech-start"%string]
  /\ state speaking_engine = speaking.
Proof. repeat split; vm_compute; reflexivity. Qed.

(** Silence one frame short of [silenceDuration], then speech again: the
    engine is back in [speaking] and no speech-end was emitted. *)
Example speech_resumes_before_silence_elapses :
  state ending_engine = potential_end
  /\ events_of (steady_stream 1 512 0.9 0.032 56) ending_engine = []
  /\ state (engine_after (steady_stream 1 512 0.9 0.032 56) ending_engine)
     = speaking.
Proof. repeat split; vm_compute; reflexivity. Qed.

(** 121 silent chunks of 20 ms: the 121st call cuts the buffer back to 80. *)
Example buffer_pruned_in_batches :
  length (audioBuffer (engine_after (steady_stream 39 320 0 0.02 81) idle_engine))
  = 120%nat
  /\ length (audioBuffer (engine_after (steady_stream 40 320 0 0.02 81) idle_engine))
     = 80%nat.
Proof. split; vm_compute; reflexivity. Qed.

(** ** Frame reassembly *)

(** The state machine leaves the model, the remainder and the configuration
    alone. *)
Lemma updateVADState_step_frame (p ts d : Q) (s : SileroVAD) :
  let s' := fst (updateVADState_step p ts d s) in
  session s' = session s /\ stateTensor s' = stateTensor s
  /\ sampleBuffer s' = sampleBuffer s /\ config s' = config s
  /\ lastProbability s' = lastProbability s
  /\ lastTimestamp s' = lastTimestamp s.
Proof.
  unfold updateVADState_step, confirmSpeechStart, endSpeech.
  destruct (state s); cbn zeta;
    repeat match goal with
           | |- context [if ?c then _ else _] => destruct c
           end;
    cbn; repeat split; reflexivity.
Qed.

Lemma prune_in_silence_frame (a : Float32Array) (s : SileroVAD) :
  let s' := prune_in_silence a s in
  session s' = session s /\ stateTensor s' = stateTensor s
  /\ sampleBuffer s' = sampleBuffer s /\ lastProbability s' = lastProbability s
  /\ lastTimestamp s' = lastTimestamp s /\ same_machine s' s.
Proof.
  unfold prune_in_silence, same_machine.
  destruct (length a);
    repeat match goal with
           | |- context [if ?c then _ else _] => destruct c
           end;
    cbn; repeat split; reflexivity.
Qed.

Lemma process_prepare_frame (a : Float32Array) (ts : Q) (s : SileroVAD) :
  let s' := fst (process_prepare a ts s) in
  session s' = session s /\ stateTensor s' = stateTensor s
  /\ sampleBuffer s' = sampleBuffer s /\ lastProbability s' = lastProbability s
  /\ lastTimestamp s' = ts /\ same_machine s' s
  /\ snd (process_prepare a ts s) = sampleBuffer s ++ a.
Proof.
  unfold process_prepare. cbn zeta. cbn [fst snd].
  set (s2 := set_audioBuffer _ _).
  assert (H2 : session s2 = session s /\ stateTensor s2 = stateTensor s
               /\ sampleBuffer s2 = sampleBuffer s
               /\ lastProbability s2 = lastProbability s
               /\ lastTimestamp s2 = ts /\ same_machine s2 s)
    by (unfold same_machine; cbn; repeat split; reflexivity).
  destruct H2 as (E1 & E2 & E3 & E4 & E5 & M).
  destruct (state s2) eqn:Est;
    try (rewrite E3; repeat split; solve [assumption | apply M]).
  destruct (prune_in_silence_frame a s2) as (P1 & P2 & P3 & P4 & P5 & PM).
  rewrite P3, E3.
  repeat split; try congruence;
    unfold same_machine in *; intuition congruence.
Qed.

Section Reassembly.

Variable run : Float32Array -> Tensor -> Q * Tensor.

Lemma frameSize_pos : (0 < frameSize)%nat.
Proof. unfold frameSize; lia. Qed.

Lemma slice_frame (l : Float32Array) (offset : nat) :
  (offset + frameSize <= length l)%nat ->
  length (slice offset (offset + frameSize) l) = frameSize
  /\ slice offset (offset + frameSize) l ++ skipn (offset + frameSize) l
     = skipn offset l.
Proof.
  intros Hle. unfold slice.
  replace (offset + frameSize - offset)%nat with frameSize by lia.
  split.
  - rewrite length_firstn, length_skipn. lia.
  - rewrite (Nat.add_comm offset frameSize), <- skipn_skipn.
    apply firstn_skipn.
Qed.

Lemma after_frames_cons (p : Q) (probs : list Q) (t1 t' : Tensor) (s : SileroVAD) :
  after_frames probs t'
    (set_lastProbability p (set_stateTensor (Some t1) s))
  = after_frames (p :: probs)
      (match probs with [] => t1 | _ => t' end) s.
Proof. destruct probs; destruct s; reflexivity. Qed.

(** With enough fuel an initialised engine leaves the loop through its
    condition; the frames it took tile [combinedAudio] from [offset] on. *)
Lemma frame_loop_done (fuel : nat) :
  forall (combined : Float32Array) (s : SileroVAD) (frames : list Float32Array)
         (offset : nat) (tp : Q) (fc : nat) (t : Tensor),
    session s = true -> stateTensor s = Some t ->
    (length combined < offset + fuel)%nat ->
    exists fs : list Float32Array,
      frame_loop run fuel combined s frames offset tp fc
      = LoopDone (after_frames (fst (infer run fs t)) (snd (infer run fs t)) s)
                 (frames ++ fs) (offset + frameSize * length fs)
                 (fold_left Qplus (fst (infer run fs t)) tp)
                 (fc + length fs)
      /\ concat fs ++ skipn (offset + frameSize * length fs) combined
         = skipn offset combined
      /\ Forall (fun f => length f = frameSize) fs
      /\ (length combined < offset + frameSize * length fs + frameSize)%nat.
Proof.
  induction fuel as [|fuel IH]; intros combined s frames offset tp fc t Hs Ht Hfuel.
  - exists []. cbn [frame_loop infer fst snd after_frames length fold_left concat].
    rewrite Nat.mul_0_r, !Nat.add_0_r, app_nil_r.
    repeat split; auto. pose proof frameSize_pos. lia.
  - cbn [frame_loop].
    destruct (offset + frameSize <=? length combined)%nat eqn:Hc.
    + apply Nat.leb_le in Hc.
      destruct (slice_frame combined offset Hc) as [Hlen Hsplit].
      set (frame := slice offset (offset + frameSize) combined) in *.
      unfold processFrame. rewrite Hs, Ht.
      set (out := run frame t).
      destruct (IH combined
                   (set_lastProbability (fst out) (set_stateTensor (Some (snd out)) s))
                   (frames ++ [frame]) (offset + frameSize)%nat (tp + fst out)
                   (S fc) (snd out))
        as (fs & Hrun & Hcat & Hall & Hexit);
        [exact Hs | reflexivity | pose proof frameSize_pos; lia |].
      exists (frame :: fs).
      cbn [infer fst snd length fold_left concat]. fold out.
      rewrite Hrun, after_frames_cons.
      replace (offset + frameSize * S (length fs))%nat
        with (offset + frameSize + frameSize * length fs)%nat by lia.
      repeat split.
      * f_equal.
        -- f_equal. destruct fs; reflexivity.
        -- now rewrite <- app_assoc.
        -- lia.
      * rewrite <- app_assoc, Hcat. exact Hsplit.
      * constructor; assumption.
      * exact Hexit.
    + apply Nat.leb_gt in Hc.
      exists []. cbn [infer fst snd after_frames length fold_left concat].
      rewrite Nat.mul_0_r, !Nat.add_0_r, app_nil_r.
      repeat split; auto.
Qed.

(** What one call of [process] does on an initialised engine: the loop takes
    the frames [fs], which tile the combined audio up to a remainder shorter
    than a frame, and the state machine is stepped once. *)
Lemma process_spec (a : Float32Array) (ts : Q) (s : SileroVAD) (t : Tensor) :
  session s = true -> stateTensor s = Some t ->
  exists fs : list Float32Array,
    let combined := sampleBuffer s ++ a in
    let probs := fst (infer run fs t) in
    let s5 := set_sampleBuffer (skipn (frameSize * length fs) combined)
                (after_frames probs (snd (infer run fs t))
                   (fst (process_prepare a ts s))) in
    let p := finalProbability (length fs) (sum_probabilities probs) s5 in
    let d := processedDurationMs (length fs) a in
    let r := updateVADState_step p ts d s5 in
    process run a ts s
    = Returned (mkResult (is_speech (state (fst r))) p) (fst r) fs (snd r)
    /\ concat fs ++ skipn (frameSize * length fs) combined = combined
    /\ Forall (fun f => length f = frameSize) fs
    /\ (length combined < frameSize * length fs + frameSize)%nat
    /\ initialized (fst r).
Proof.
  intros Hs Ht.
  destruct (process_prepare_frame a ts s) as (E1 & E2 & E3 & E4 & E5 & M & Ec).
  unfold process.
  destruct (process_prepare a ts s) as [s3 combined] eqn:Hprep.
  cbn [fst snd] in *. subst combined.
  destruct (frame_loop_done (S (length (sampleBuffer s ++ a)))
              (sampleBuffer s ++ a) s3 [] 0 0 0%nat t)
    as (fs & Hrun & Hcat & Hall & Hexit);
    [congruence | congruence | lia |].
  exists fs. cbv zeta. rewrite Hrun.
  cbn [app plus] in *.
  unfold updateVADState, sum_probabilities.
  match goal with
  | |- context [updateVADState_step ?p ?t ?d ?s5] =>
      destruct (updateVADState_step_frame p t d s5) as (F1 & F2 & _);
      destruct (updateVADState_step p t d s5) as [s6 events] eqn:Hstep
  end.
  cbn [fst snd] in *. repeat split; try assumption.
  - rewrite F1. cbn [session set_sampleBuffer]. unfold after_frames.
    destruct (fst (infer run fs t));
      cbn [session set_lastProbability set_stateTensor]; congruence.
  - rewrite F2. cbn [stateTensor set_sampleBuffer]. unfold after_frames.
    destruct (fst (infer run fs t));
      cbn [stateTensor set_lastProbability set_stateTensor]; congruence.
Qed.

(** On an initialised engine [process] returns, the engine stays initialised,
    and the frames taken plus the new remainder are the old remainder plus
    the chunk. *)
Lemma process_roundtrip (a : Float32Array) (ts : Q) (s : SileroVAD) :
  initialized s ->
  exists r s' fs evs,
    process run a ts s = Returned r s' fs evs
    /\ initialized s'
    /\ concat fs ++ sampleBuffer s' = sampleBuffer s ++ a
    /\ Forall (fun f => length f = frameSize) fs
    /\ (length (sampleBuffer s') < frameSize)%nat.
Proof.
  intros [Hs Ht]. destruct (stateTensor s) as [t|] eqn:Et; [|congruence].
  destruct (process_spec a ts s t Hs Et)
    as (fs & Hp & Hcat & Hall & Hexit & Hinit).
  cbv zeta in Hp.
  eexists _, _, fs, _. split; [exact Hp|]. split; [exact Hinit|].
  match goal with
  | |- context [fst (updateVADState_step ?p ?ts ?d ?s5)] =>
      destruct (updateVADState_step_frame p ts d s5) as (_ & _ & F3 & _)
  end.
  rewrite F3. cbn [sampleBuffer set_sampleBuffer].
  repeat split; try assumption.
  rewrite length_skipn. lia.
Qed.

(** C2.  Whatever the remainder the engine starts with and however a sample
    stream is cut into chunks, feeding the chunks to [process] in order hands
    frames of 512 samples to the model whose concatenation, followed by the
    remainder left after the last call, is the initial remainder followed by
    all chunks: no sample is lost or repeated.  A chunk with which fewer than
    512 samples are accumulated yields no frame and is appended to the
    remainder. *)
Theorem frame_reassembly_roundtrip
    (chunks : list (Float32Array * Q)) (s : SileroVAD) :
  initialized s ->
  (exists s' frames events,
      process_all run chunks s = Some (s', frames, events)
      /\ concat frames ++ sampleBuffer s'
         = sampleBuffer s ++ concat (map fst chunks)
      /\ Forall (fun f => length f = frameSize) frames)
  /\ (forall (a : Float32Array) (ts : Q),
        (length (sampleBuffer s ++ a) < frameSize)%nat ->
        exists r s' events,
          process run a ts s = Returned r s' [] events
          /\ sampleBuffer s' = sampleBuffer s ++ a).
Proof.
  intros Hi. split.
  - revert s Hi. induction chunks as [|[a ts] rest IH]; intros s Hi.
    + exists s, [], []. cbn. rewrite app_nil_r. auto.
    + destruct (process_roundtrip a ts s Hi)
        as (r & s1 & fs & evs & Hp & Hi1 & Hcat & Hall & _).
      destruct (IH s1 Hi1) as (s' & frames & events & Hall' & Hcat' & Hlen').
      exists s', (fs ++ frames), (evs ++ events).
      cbn [process_all map fst concat]. rewrite Hp, Hall'.
      split; [reflexivity|]. split.
      * rewrite concat_app, <- app_assoc, Hcat', !app_assoc, Hcat. reflexivity.
      * apply Forall_app; split; assumption.
  - intros a ts Hshort.
    destruct (process_roundtrip a ts s Hi)
      as (r & s1 & fs & evs & Hp & _ & Hcat & Hall & _).
    destruct fs as [|f fs].
    + exists r, s1, evs. split; [exact Hp | exact Hcat].
    + exfalso. inversion Hall as [|? ? Hf _]; subst.
      apply (f_equal (@length Sample)) in Hcat.
      cbn [concat] in Hcat. rewrite !length_app in Hcat.
      rewrite length_app in Hshort. lia.
Qed.

End Reassembly.

(** A run of C2: three chunks of 320 samples given to a fresh engine. *)
Lemma frame_reassembly_roundtrip_witness :
  initialized fresh_engine
  /\ exists s' frames events,
      process_all probe_run
        [(constant_chunk 320 0.9, 0); (constant_chunk 320 0.9, 0.02);
         (constant_chunk 320 0.9, 0.04)] fresh_engine
      = Some (s', frames, events)
      /\ concat frames ++ sampleBuffer s'
         = sampleBuffer fresh_engine
           ++ concat (map fst [(constant_chunk 320 0.9, 0);
                               (constant_chunk 320 0.9, 0.02);
                               (constant_chunk 320 0.9, 0.04)])
      /\ Forall (fun f => length f = frameSize) frames.
Proof.
  assert (Hi : initialized fresh_engine)
    by (split; [reflexivity | discriminate]).
  split; [exact Hi|].
  exact (proj1 (frame_reassembly_roundtrip probe_run _ fresh_engine Hi)).
Defined.

(** ** Comparisons *)

Lemma Qgtb_true (a b : Q) : Qgtb a b = true <-> b < a.
Proof.
  unfold Qgtb. rewrite negb_true_iff, <- not_true_iff_false, Qle_bool_iff.
  split; [apply Qnot_le_lt | apply Qlt_not_le].
Qed.

Lemma Qltb_true (a b : Q) : Qltb a b = true <-> a < b.
Proof. unfold Qltb. apply (Qgtb_true b a). Qed.

Lemma Qgeb_true (a b : Q) : Qgeb a b = true <-> b <= a.
Proof. unfold Qgeb. apply Qle_bool_iff. Qed.

Lemma Qgeb_false (a b : Q) : Qgeb a b = false <-> a < b.
Proof.
  unfold Qgeb. rewrite <- not_true_iff_false, Qle_bool_iff.
  split; [apply Qnot_le_lt | apply Qlt_not_le].
Qed.

Lemma Qgtb_false (a b : Q) : Qgtb a b = false <-> a <= b.
Proof. unfold Qgtb. rewrite negb_false_iff. apply Qle_bool_iff. Qed.

(** ** Confirmation of a speech start *)

(** C1, as the code has it.  In [potential_start], a step whose probability
    is above the positive threshold and with which the accumulated duration
    reaches [minSpeechDuration] enters [speaking] and emits exactly one
    speech-start event.  The event carries the probability of the step, and
    its timestamp is the timestamp of this step; [speechStartTime], which the
    step from [silence] set to the timestamp of the first step above the
    threshold, is kept in the engine and is not what the event carries. *)
Theorem speech_start_confirmed (p ts d : Q) (s : SileroVAD) :
  (state s = silence -> positiveSpeechThreshold (config s) < p ->
     let s' := fst (updateVADState_step p ts d s) in
     state s' = potential_start /\ speechStartTime s' = ts
     /\ snd (updateVADState_step p ts d s) = [])
  /\ (state s = potential_start -> positiveSpeechThreshold (config s) < p ->
      minSpeechDuration (config s)
        <= potentialSpeechDurationMs s + step_duration d ->
      let s' := fst (updateVADState_step p ts d s) in
      state s' = speaking
      /\ speechStartTime s' = speechStartTime s
      /\ snd (updateVADState_step p ts d s)
         = [mkEmitted "speech-start" (mkEventData true p ts None)]).
Proof.
  split.
  - intros Hst Hp. apply Qgtb_true in Hp.
    unfold updateVADState_step. rewrite Hst, Hp. cbn. auto.
  - intros Hst Hp Hd. apply Qgtb_true in Hp. apply Qgeb_true in Hd.
    unfold updateVADState_step. rewrite Hst, Hp.
    cbn [potentialSpeechDurationMs set_potentialSpeechDurationMs
         config minSpeechDuration].
    rewrite Hd. cbn. auto.
Qed.

(** A confirming step: the thirteenth frame above the threshold. *)
Lemma speech_start_confirmed_witness :
  state confirming_engine = potential_start
  /\ positiveSpeechThreshold (config confirming_engine) < 0.9
  /\ minSpeechDuration (config confirming_engine)
       <= potentialSpeechDurationMs confirming_engine + step_duration 32
  /\ state (fst (updateVADState_step 0.9 0.384 32 confirming_engine)) = speaking
  /\ snd (updateVADState_step 0.9 0.384 32 confirming_engine)
       = [mkEmitted "speech-start" (mkEventData true 0.9 0.384 None)].
Proof.
  assert (H1 : state confirming_engine = potential_start)
    by (vm_compute; reflexivity).
  assert (H2 : positiveSpeechThreshold (config confirming_engine) < 0.9)
    by (vm_compute; reflexivity).
  assert (H3 : minSpeechDuration (config confirming_engine)
               <= potentialSpeechDurationMs confirming_engine + step_duration 32)
    by (vm_compute; discriminate).
  pose proof (proj2 (speech_start_confirmed 0.9 0.384 32 confirming_engine)
                H1 H2 H3) as H.
  cbv zeta in H. tauto.
Defined.

(** C1 as the claim states it fails: the speech that the engine confirms on
    its thirteenth frame began at time 0, which [speechStartTime] holds, and
    the speech-start event is stamped 0.384. *)
Lemma speech_start_timestamp_counterexample :
  state confirming_engine = potential_start
  /\ speechStartTime confirming_engine == 0
  /\ exists e : Emitted,
      events_of (steady_stream 13 512 0.9 0.032 0) fresh_engine = [e]
      /\ snd (updateVADState_step 0.9 (12 * 0.032) 32 confirming_engine) = [e]
      /\ ev_name e = "speech-start"%string
      /\ timestamp (ev_data e) == 0.384
      /\ ~ timestamp (ev_data e) == speechStartTime confirming_engine.
Proof.
  split; [vm_compute; reflexivity|].
  split; [vm_compute; reflexivity|].
  eexists. split; [vm_compute; reflexivity|].
  split; [vm_compute; reflexivity|].
  split; [reflexivity|].
  split; [vm_compute; reflexivity|].
  intro H. vm_compute in H. discriminate.
Qed.

(** ** Finalisation of a segment *)

Lemma endSpeech_spec (ts p : Q) (s : SileroVAD) :
  state (fst (endSpeech ts p s)) = silence
  /\ snd (endSpeech ts p s)
     = [mkEmitted "speech-end"
          (mkEventData false p ts
             (if Qgeb ((ts - speechStartTime s) * 1000)
                      (minSpeechDuration (config s))
              then Some (createSpeechSegment ts s) else None))].
Proof.
  unfold endSpeech. cbv zeta.
  split; [|reflexivity].
  match goal with |- context [if ?c then _ else _] => destruct c end;
    reflexivity.
Qed.

Lemma endSpeech_finalized (ts p : Q) (s : SileroVAD) :
  finalized_once s ts (endSpeech ts p s).
Proof.
  destruct (endSpeech_spec ts p s) as [Hst Hev].
  split; [exact Hst|].
  eexists. split; [exact Hev|]. split; [reflexivity|]. split; [reflexivity|].
  cbn [ev_data segment].
  destruct (Qgeb _ _) eqn:Hge.
  - apply Qgeb_true in Hge. split; [intros _; exact Hge | discriminate].
  - apply Qgeb_false in Hge. split; [congruence|].
    intros Hle. exfalso. exact (Qlt_not_le _ _ Hge Hle).
Qed.

(** C4.  Both ways of finalising a segment -- the silence confirmed in
    [potential_end], and [flush] while speech is active -- emit exactly one
    speech-end event, and the event carries a segment if and only if the time
    from [speechStartTime] to the end time is at least [minSpeechDuration];
    below it the event is emitted all the same, without a segment.  The end
    time is the time at which the silence began ([speechEndCandidateTime], or
    the timestamp of the step when that is 0) on the first way, and the
    timestamp given to [flush], or [speechEndCandidateTime] when none is
    given, on the second. *)
Theorem speech_end_segment_iff (s : SileroVAD) :
  (forall p ts d : Q,
      state s = potential_end ->
      p < negativeSpeechThreshold (config s) ->
      silenceDuration (config s)
        <= potentialSilenceDurationMs s + step_duration d ->
      finalized_once s (js_or (speechEndCandidateTime s) ts)
                     (updateVADState_step p ts d s))
  /\ (forall ts : option Q,
        is_speech (state s) = true ->
        finalized_once s (or_default ts (speechEndCandidateTime s))
                       (flush ts s)).
Proof.
  split.
  - intros p ts d Hst Hp Hd.
    apply Qltb_true in Hp. apply Qgeb_true in Hd.
    unfold updateVADState_step. rewrite Hst, Hp.
    cbn [potentialSilenceDurationMs set_potentialSilenceDurationMs
         config silenceDuration].
    rewrite Hd. cbv zeta.
    apply (endSpeech_finalized _ p
             (set_potentialSilenceDurationMs
                (potentialSilenceDurationMs s + step_duration d) s)).
  - intros ts Hst. unfold flush.
    destruct (state s); try discriminate; destruct ts;
      apply endSpeech_finalized.
Qed.

(** Two finalisations: the 44th frame of silence after a confirmed speech, and
    a flush in the middle of a speech. *)
Lemma speech_end_segment_iff_witness :
  (state ending_engine = potential_end
   /\ 0.1 < negativeSpeechThreshold (config ending_engine)
   /\ silenceDuration (config ending_engine)
        <= potentialSilenceDurationMs ending_engine + step_duration 32
   /\ finalized_once ending_engine
        (js_or (speechEndCandidateTime ending_engine) 1.792)
        (updateVADState_step 0.1 1.792 32 ending_engine))
  /\ (is_speech (state speaking_engine) = true
      /\ finalized_once speaking_engine 0.416
           (flush (Some 0.416) speaking_engine)).
Proof.
  split.
  - assert (H1 : state ending_engine = potential_end)
      by (vm_compute; reflexivity).
    assert (H2 : 0.1 < negativeSpeechThreshold (config ending_engine))
      by (vm_compute; reflexivity).
    assert (H3 : silenceDuration (config ending_engine)
                 <= potentialSilenceDurationMs ending_engine + step_duration 32)
      by (vm_compute; discriminate).
    split; [exact H1|]. split; [exact H2|]. split; [exact H3|].
    exact (proj1 (speech_end_segment_iff ending_engine) 0.1 1.792 32 H1 H2 H3).
  - assert (H1 : is_speech (state speaking_engine) = true)
      by (vm_compute; reflexivity).
    split; [exact H1|].
    exact (proj2 (speech_end_segment_iff speaking_engine) (Some 0.416) H1).
Defined.

(** ** Flush *)



(** ** Reset *)

(** [reset] keeps the session and the configuration and assigns constants to
    every other field. *)
Lemma reset_fields (s : SileroVAD) :
  reset s
  = mkVAD (session s) (config s) silence (Some zero_tensor) [] 0 0 0%Z 0 0 [] 0 0.
Proof. destruct s; reflexivity. Qed.

(** C6.  From any engine, [reset] gives an engine in [silence] with an empty
    frame buffer, an empty sample remainder and a recurrent state of 256
    zeroes, and a second [reset] changes nothing. *)
Theorem reset_idempotent (s : SileroVAD) :
  state (reset s) = silence
  /\ audioBuffer (reset s) = []
  /\ sampleBuffer (reset s) = []
  /\ stateTensor (reset s) = Some zero_tensor
  /\ Forall (fun x => x = 0) (tdata zero_tensor)
  /\ length (tdata zero_tensor) = 256%nat
  /\ reset (reset s) = reset s.
Proof.
  rewrite (reset_fields (reset s)), (reset_fields s).
  cbn [state audioBuffer sampleBuffer stateTensor session config].
  split; [reflexivity|]. split; [reflexivity|]. split; [reflexivity|].
  split; [reflexivity|]. split; [|split].
  - unfold zero_tensor. cbn [tdata].
    apply Forall_forall. intros x Hx. exact (repeat_spec _ _ _ Hx).
  - unfold zero_tensor. cbn [tdata]. apply repeat_length.
  - reflexivity.
Qed.

(** ** Configuration updates *)

(** C7, as the code has it.  [updateConfig] never fails and checks nothing:
    every key the update carries replaces the stored value, whatever the
    value, every other key keeps its value, and nothing else in the engine
    moves. *)
Theorem updateConfig_merges (c : PartialConfig) (s : SileroVAD) :
  positiveSpeechThreshold (config (updateConfig c s))
  = or_default (p_positiveSpeechThreshold c) (positiveSpeechThreshold (config s))
  /\ negativeSpeechThreshold (config (updateConfig c s))
     = or_default (p_negativeSpeechThreshold c) (negativeSpeechThreshold (config s))
  /\ config (updateConfig c s) = merge_config (config s) c
  /\ set_config (config s) (updateConfig c s) = s.
Proof.
  repeat split; try reflexivity. destruct s; reflexivity.
Qed.

(** C7 as the claim states it fails: an update that sets the positive
    threshold to 1.5, outside [0, 1], and one that sets the negative threshold
    to 0.5, above the positive threshold 0.3, are both stored. *)
Lemma updateConfig_unchecked_counterexample :
  positiveSpeechThreshold
    (config (updateConfig
               (mkPartial None (Some 1.5) None None None None None)
               fresh_engine)) = 1.5
  /\ config (updateConfig
               (mkPartial None (Some 1.5) None None None None None)
               fresh_engine) <> config fresh_engine
  /\ negativeSpeechThreshold
       (config (updateConfig
                  (mkPartial None None (Some 0.5) None None None None)
                  fresh_engine)) = 0.5
  /\ positiveSpeechThreshold
       (config (updateConfig
                  (mkPartial None None (Some 0.5) None None None None)
                  fresh_engine)) = 0.3
  /\ config (updateConfig
               (mkPartial None None (Some 0.5) None None None None)
               fresh_engine) <> config fresh_engine.
Proof.
  repeat split; try reflexivity; intro H; vm_compute in H; discriminate.
Qed.

(** ** Events of [process] *)

Lemma updateVADState_step_names (p ts d : Q) (s : SileroVAD) :
  Forall (fun e => ev_name e = "speech-start"%string
                   \/ ev_name e = "speech-end"%string)
         (snd (updateVADState_step p ts d s)).
Proof.
  unfold updateVADState_step, confirmSpeechStart. cbv zeta.
  destruct (state s);
    repeat match goal with
           | |- context [endSpeech ?t ?q ?x] =>
               rewrite (proj2 (endSpeech_spec t q x))
           | |- context [if ?c then _ else _] => destruct c
           end;
    cbn [snd];
    repeat (constructor; try solve [left; reflexivity | right; reflexivity]).
Qed.

(** C9 fails on the code.  Whatever the engine and the chunk, the only events
    a call of [process] emits are speech-start and speech-end: no vad-result
    event is emitted for the frames it handles.  A frame of 512 samples given
    to a fresh engine is handed to the model and no event at all is
    emitted. *)
Theorem process_emits_no_vad_result
    (run : Float32Array -> Tensor -> Q * Tensor)
    (a : Float32Array) (ts : Q) (s : SileroVAD) :
  Forall (fun e => ev_name e <> "vad-result"%string)
         (outcome_events (process run a ts s))
  /\ exists r s',
      process probe_run (constant_chunk 512 0.9) 0 fresh_engine
      = Returned r s' [constant_chunk 512 0.9] [].
Proof.
  split.
  - unfold process.
    destruct (process_prepare a ts s) as [s3 combined].
    destruct (frame_loop _ _ _ _ _ _ _ _); [constructor|].
    unfold updateVADState.
    match goal with
    | |- context [updateVADState_step ?p ?t ?d ?x] =>
        pose proof (updateVADState_step_names p t d x) as Hn;
        destruct (updateVADState_step p t d x) as [s6 events]
    end.
    cbn [outcome_events fst snd] in *.
    eapply Forall_impl; [|exact Hn].
    intros e [He|He]; rewrite He; discriminate.
  - eexists _, _. vm_compute. reflexivity.
Qed.

(** ** The frame buffer during silence *)

Lemma last_cons_default {A : Type} (x : A) (l : list A) (d d' : A) :
  last (x :: l) d = last (x :: l) d'.
Proof.
  revert x. induction l as [|y l IH]; intros x; [reflexivity|].
  change (last (y :: l) d = last (y :: l) d'). apply IH.
Qed.

Lemma after_frames_frame (probs : list Q) (t : Tensor) (s : SileroVAD) :
  let s' := after_frames probs t s in
  audioBuffer s' = audioBuffer s /\ sampleBuffer s' = sampleBuffer s
  /\ lastTimestamp s' = lastTimestamp s /\ same_machine s' s
  /\ lastProbability s' = last probs (lastProbability s).
Proof.
  unfold after_frames, same_machine.
  destruct probs; cbn -[last]; repeat split; try reflexivity.
  apply last_cons_default.
Qed.

Lemma prePadSamples_pos (s : SileroVAD) :
  0 < preSpeechPadDuration (config s) -> 0 < prePadSamples s.
Proof.
  intros H. unfold prePadSamples.
  apply Qlt_shift_div_l; [reflexivity|]. lra.
Qed.

Lemma maxBufferFrames_pos (s : SileroVAD) (n : nat) :
  0 < preSpeechPadDuration (config s) -> (0 < n)%nat ->
  (0 < maxBufferFrames s n)%Z.
Proof.
  intros Hpad Hn. unfold maxBufferFrames. cbv zeta.
  assert (Hq : 0 < prePadSamples s / inject_Z (Z.of_nat n)).
  { apply Qlt_shift_div_l.
    - change 0 with (inject_Z 0). rewrite <- Zlt_Qlt. lia.
    - rewrite Qmult_0_l. now apply prePadSamples_pos. }
  pose proof (Qle_ceiling (prePadSamples s / inject_Z (Z.of_nat n))) as Hc.
  assert (Hz : inject_Z 0 < inject_Z (Qceiling (prePadSamples s / inject_Z (Z.of_nat n))))
    by (eapply Qlt_le_trans; [exact Hq | exact Hc]).
  rewrite <- Zlt_Qlt in Hz. lia.
Qed.

Lemma length_slice_from_end {A : Type} (m : Z) (l : list A) :
  (0 < m)%Z ->
  (Z.of_nat (length (slice_from (- m) l)) <= m)%Z.
Proof.
  intros Hm. unfold slice_from.
  destruct (- m <? 0)%Z eqn:Hneg; [|apply Z.ltb_ge in Hneg; lia].
  rewrite length_skipn. lia.
Qed.

(** After the pruning step the buffer holds at most one and a half times
    [maxBufferFrames] chunks. *)
Lemma prune_in_silence_bound (a : Float32Array) (s : SileroVAD) :
  a <> [] -> 0 < preSpeechPadDuration (config s) ->
  inject_Z (Z.of_nat (length (audioBuffer (prune_in_silence a s))))
  <= 1.5 * inject_Z (maxBufferFrames s (length a)).
Proof.
  intros Ha Hpad. unfold prune_in_silence.
  destruct (length a) as [|n] eqn:Hlen.
  - destruct a; [congruence | discriminate].
  - pose proof (maxBufferFrames_pos s (S n) Hpad (Nat.lt_0_succ n)) as Hpos.
    destruct (Qgtb _ _) eqn:Hgt.
    + cbn [audioBuffer set_audioBuffer].
      pose proof (length_slice_from_end (maxBufferFrames s (S n))
                    (audioBuffer s) Hpos) as Hcut.
      rewrite Zle_Qle in Hcut. rewrite Zlt_Qlt in Hpos.
      change (inject_Z 0) with 0 in Hpos. lra.
    + apply Qgtb_false in Hgt. lra.
Qed.

Lemma step_from_silence_buffer (p ts d : Q) (s : SileroVAD) :
  state s = silence ->
  audioBuffer (fst (updateVADState_step p ts d s)) = audioBuffer s.
Proof.
  intros Hst. unfold updateVADState_step. rewrite Hst.
  cbv zeta. destruct (Qgtb _ _); reflexivity.
Qed.

(** C3, as the code has it.  A call of [process] made in [silence] with a
    chunk that is not empty, under a positive [preSpeechPadDuration], returns
    with at most 1.5 x [ceil(prePadSamples / frameLength) x 2] chunks in the
    buffer, [frameLength] being the length of the chunk: the buffer is cut
    back to [ceil(prePadSamples / frameLength) x 2] chunks only once it holds
    more than one and a half times as many. *)
Theorem silence_buffer_bound
    (run : Float32Array -> Tensor -> Q * Tensor)
    (a : Float32Array) (ts : Q) (s : SileroVAD) :
  initialized s -> state s = silence -> a <> [] ->
  0 < preSpeechPadDuration (config s) ->
  exists r s' fs evs,
    process run a ts s = Returned r s' fs evs
    /\ inject_Z (Z.of_nat (length (audioBuffer s')))
       <= 1.5 * inject_Z (maxBufferFrames s' (length a)).
Proof.
  intros [Hs Ht] Hst Ha Hpad.
  destruct (stateTensor s) as [t|] eqn:Et; [|congruence].
  destruct (process_spec run a ts s t Hs Et) as (fs & Hp & _).
  cbv zeta in Hp. eexists _, _, fs, _. split; [exact Hp|].
  match goal with
  | |- context [fst (updateVADState_step ?p ?ts ?d ?s5)] =>
      destruct (updateVADState_step_frame p ts d s5) as (_ & _ & _ & F4 & _);
      set (s5' := s5) in *;
      assert (Hst5 : state s5' = silence)
  end.
  { subst s5'. cbn [state set_sampleBuffer].
    destruct (after_frames_frame (fst (infer run fs t)) (snd (infer run fs t))
                (fst (process_prepare a ts s))) as (_ & _ & _ & M & _).
    destruct (process_prepare_frame a ts s) as (_ & _ & _ & _ & _ & M' & _).
    unfold same_machine in *. intuition congruence. }
  rewrite (step_from_silence_buffer _ _ _ _ Hst5).
  unfold maxBufferFrames, prePadSamples. rewrite F4.
  subst s5'. cbn [audioBuffer config set_sampleBuffer].
  destruct (after_frames_frame (fst (infer run fs t)) (snd (infer run fs t))
              (fst (process_prepare a ts s))) as (B & _ & _ & M & _).
  rewrite B. destruct M as (Mc & _). rewrite Mc.
  unfold process_prepare. cbv zeta. cbn [fst state set_audioBuffer set_lastTimestamp].
  rewrite Hst.
  set (s2 := set_audioBuffer _ _).
  destruct (prune_in_silence_frame a s2) as (_ & _ & _ & _ & _ & Mp).
  destruct Mp as (Mpc & _). rewrite Mpc.
  apply (prune_in_silence_bound a s2 Ha). exact Hpad.
Qed.

(** The first chunk of 20 ms given to a fresh engine. *)
Lemma silence_buffer_bound_witness :
  initialized fresh_engine
  /\ state fresh_engine = silence
  /\ constant_chunk 320 0 <> []
  /\ 0 < preSpeechPadDuration (config fresh_engine)
  /\ exists r s' fs evs,
      process probe_run (constant_chunk 320 0) 0 fresh_engine
      = Returned r s' fs evs
      /\ inject_Z (Z.of_nat (length (audioBuffer s')))
         <= 1.5 * inject_Z (maxBufferFrames s' (length (constant_chunk 320 0))).
Proof.
  assert (H1 : initialized fresh_engine)
    by (split; [reflexivity | discriminate]).
  assert (H2 : state fresh_engine = silence) by reflexivity.
  assert (H3 : constant_chunk 320 0 <> []) by discriminate.
  assert (H4 : 0 < preSpeechPadDuration (config fresh_engine))
    by (vm_compute; reflexivity).
  split; [exact H1|]. split; [exact H2|]. split; [exact H3|].
  split; [exact H4|].
  exact (silence_buffer_bound probe_run (constant_chunk 320 0) 0
           fresh_engine H1 H2 H3 H4).
Defined.

(** C3 as the claim states it fails: after 81 silent chunks of 20 ms the
    engine is in [silence] and holds 81 chunks, above
    [ceil(12800 / 320) x 2 = 80]. *)
Lemma silence_buffer_bound_counterexample :
  state idle_engine = silence
  /\ length (audioBuffer idle_engine) = 81%nat
  /\ maxBufferFrames idle_engine 320 = 80%Z
  /\ ~ (Z.of_nat (length (audioBuffer idle_engine))
       <= maxBufferFrames idle_engine 320)%Z.
Proof.
  split; [vm_compute; reflexivity|].
  split; [vm_compute; reflexivity|].
  split; [vm_compute; reflexivity|].
  intro H. vm_compute in H. apply H. reflexivity.
Qed.

(** ** One step of the machine per call *)

Lemma step_duration_pos (d : Q) : 0 < d -> step_duration d = d.
Proof.
  intros H. unfold step_duration.
  now rewrite (proj2 (Qgtb_true d 0) H).
Qed.

Lemma processedDurationMs_frames (n : nat) (a : Float32Array) :
  (0 < n)%nat ->
  processedDurationMs n a == inject_Z (Z.of_nat n) * 32
  /\ 0 < processedDurationMs n a.
Proof.
  intros Hn. destruct n as [|n]; [lia|].
  unfold processedDurationMs.
  change (inject_Z (Z.of_nat frameSize)) with 512.
  assert (Hpos : 0 < inject_Z (Z.of_nat (S n)))
    by (change 0 with (inject_Z 0); rewrite <- Zlt_Qlt; lia).
  assert (E : inject_Z (Z.of_nat (S n)) * (512 / 16000 * 1000)
              == inject_Z (Z.of_nat (S n)) * 32) by field.
  split; [exact E | rewrite E; lra].
Qed.

Lemma processedDurationMs_chunk (a : Float32Array) :
  processedDurationMs 0 a == inject_Z (Z.of_nat (length a)) / 16
  /\ (a <> [] -> 0 < processedDurationMs 0 a)
  /\ (a = [] -> step_duration (processedDurationMs 0 a) == 32).
Proof.
  unfold processedDurationMs. split; [field|]. split.
  - intros Ha.
    assert (Hpos : 0 < inject_Z (Z.of_nat (length a))).
    { change 0 with (inject_Z 0). rewrite <- Zlt_Qlt.
      destruct a; [congruence | cbn [length]; lia]. }
    assert (E : inject_Z (Z.of_nat (length a)) / 16000 * 1000
                == inject_Z (Z.of_nat (length a)) / 16) by field.
    rewrite E. apply Qlt_shift_div_l; [reflexivity | lra].
  - intros ->. vm_compute. reflexivity.
Qed.

(** C10, as the code has it.  A call of [process] that returns steps the
    state machine exactly once, from the machine as the call found it,
    however many frames of 512 samples it completes.  With frames the step
    takes the mean of their probabilities and 32 ms per frame.  Without any it
    takes the probability of the last frame an earlier call gave to the model
    (0 in a new engine) and the duration of the chunk; an empty chunk, whose
    duration is 0, advances the machine by the 32 ms of one frame. *)
Theorem process_single_update
    (run : Float32Array -> Tensor -> Q * Tensor)
    (a : Float32Array) (ts : Q) (s : SileroVAD) (t : Tensor) :
  session s = true -> stateTensor s = Some t ->
  exists (fs : list Float32Array) (s5 : SileroVAD) (p d : Q),
    concat fs ++ sampleBuffer s5 = sampleBuffer s ++ a
    /\ Forall (fun f => length f = frameSize) fs
    /\ (length (sampleBuffer s5) < frameSize)%nat
    /\ same_machine s5 s
    /\ process run a ts s
       = Returned
           (mkResult (is_speech (state (fst (updateVADState_step p ts d s5)))) p)
           (fst (updateVADState_step p ts d s5)) fs
           (snd (updateVADState_step p ts d s5))
    /\ (fs <> [] ->
        p = sum_probabilities (fst (infer run fs t))
            / inject_Z (Z.of_nat (length fs))
        /\ d == inject_Z (Z.of_nat (length fs)) * 32
        /\ step_duration d = d)
    /\ (fs = [] ->
        p = lastProbability s
        /\ d == inject_Z (Z.of_nat (length a)) / 16
        /\ (a <> [] -> step_duration d = d)
        /\ (a = [] -> step_duration d == 32))
    /\ lastProbability (fst (updateVADState_step p ts d s5))
       = last (fst (infer run fs t)) (lastProbability s)
    /\ forall c : PartialConfig, lastProbability (new_SileroVAD c) = 0.
Proof.
  intros Hs Ht.
  destruct (process_spec run a ts s t Hs Ht)
    as (fs & Hp & Hcat & Hall & Hexit & _).
  cbv zeta in Hp.
  destruct (process_prepare_frame a ts s) as (_ & _ & E3 & E4 & _ & M & _).
  destruct (after_frames_frame (fst (infer run fs t)) (snd (infer run fs t))
              (fst (process_prepare a ts s))) as (_ & _ & _ & M' & L).
  eexists fs, _, _, _.
  split; [|split; [|split; [|split; [|split; [exact Hp|]]]]].
  - exact Hcat.
  - exact Hall.
  - cbn [sampleBuffer set_sampleBuffer]. rewrite length_skipn. lia.
  - unfold same_machine in *.
    cbn [config state speechStartTime speechEndCandidateTime
         speechStartBufferIndex potentialSpeechDurationMs
         potentialSilenceDurationMs set_sampleBuffer].
    intuition congruence.
  - split; [|split; [|split]].
    + intros Hne. destruct fs as [|f fs]; [congruence|].
      destruct (processedDurationMs_frames (length (f :: fs)) a) as [Hd Hpos];
        [cbn [length]; lia|].
      split; [reflexivity|]. split; [exact Hd|].
      now apply step_duration_pos.
    + intros ->.
      destruct (processedDurationMs_chunk a) as (Hd & Hpos & Hzero).
      cbn [length finalProbability lastProbability set_sampleBuffer].
      split; [|split; [exact Hd|split; [|exact Hzero]]].
      * cbn [infer fst after_frames]. exact E4.
      * intros Ha. apply step_duration_pos. now apply Hpos.
    + match goal with
      | |- context [fst (updateVADState_step ?p ?ts ?d ?s5)] =>
          destruct (updateVADState_step_frame p ts d s5) as (_ & _ & _ & _ & F5 & _)
      end.
      rewrite F5. cbn [lastProbability set_sampleBuffer].
      rewrite L, E4. reflexivity.
    + reflexivity.
Qed.

(** A call that completes one frame on a fresh engine. *)
Lemma process_single_update_witness :
  session fresh_engine = true
  /\ stateTensor fresh_engine = Some zero_tensor
  /\ exists (fs : list Float32Array) (s5 : SileroVAD) (p d : Q),
      same_machine s5 fresh_engine
      /\ process probe_run (constant_chunk 600 0.9) 0 fresh_engine
         = Returned
             (mkResult (is_speech (state (fst (updateVADState_step p 0 d s5)))) p)
             (fst (updateVADState_step p 0 d s5)) fs
             (snd (updateVADState_step p 0 d s5)).
Proof.
  split; [reflexivity|]. split; [reflexivity|].
  destruct (process_single_update probe_run (constant_chunk 600 0.9) 0
              fresh_engine zero_tensor eq_refl eq_refl)
    as (fs & s5 & p & d & _ & _ & _ & M & Hp & _).
  exists fs, s5, p, d. split; [exact M | exact Hp].
Defined.

(** C10 as the claim states it fails on an empty chunk: with a start pending
    and 32 ms accumulated, a call with an empty chunk completes no frame and
    the step nevertheless adds 32 ms, not the duration 0 of the chunk. *)
Lemma empty_chunk_step_counterexample :
  state primed_engine = potential_start
  /\ potentialSpeechDurationMs primed_engine == 32
  /\ exists r s' evs,
      process probe_run [] 0.032 primed_engine = Returned r s' [] evs
      /\ potentialSpeechDurationMs s' == 64
      /\ ~ potentialSpeechDurationMs s'
           == potentialSpeechDurationMs primed_engine
              + (inject_Z (Z.of_nat (length (@nil Sample))) / 16000) * 1000.
Proof.
  split; [vm_compute; reflexivity|].
  split; [vm_compute; reflexivity|].
  eexists _, _, _. split; [vm_compute; reflexivity|].
  split; [vm_compute; reflexivity|].
  intro H. vm_compute in H. discriminate.
Qed.

(** ** The payload of a segment *)

Lemma slice_from_nonneg {A : Type} (k : Z) (l : list A) :
  (0 <= k)%Z -> slice_from k l = skipn (Z.to_nat k) l.
Proof.
  intros Hk. unfold slice_from.
  destruct (k <? 0)%Z eqn:Hneg; [apply Z.ltb_lt in Hneg; lia|].
  destruct (Z.le_ge_cases k (Z.of_nat (length l))) as [Hle|Hge].
  - now rewrite Z.min_l.
  - rewrite Z.min_r, Nat2Z.id by exact Hge.
    rewrite !skipn_all2; [reflexivity | lia | lia].
Qed.

Lemma total_length_concat (chunks : list Float32Array) :
  total_length chunks = length (concat chunks).
Proof.
  unfold total_length.
  enough (H : forall acc,
             fold_left (fun sum chunk => (sum + length chunk)%nat) chunks acc
             = (acc + length (concat chunks))%nat) by apply (H O).
  induction chunks as [|c chunks IH]; intros acc; cbn [fold_left concat].
  - cbn. lia.
  - rewrite IH, length_app. lia.
Qed.

Lemma js_max_compat (a x y : Q) : x == y -> js_max a x == js_max a y.
Proof.
  intros E. unfold js_max. rewrite (Qleb_comp a a (Qeq_refl a) x y E).
  destruct (Qle_bool a y); [exact E | reflexivity].
Qed.

Lemma createSpeechSegment_payload (endTime : Q) (s : SileroVAD) :
  (0 <= speechStartBufferIndex s)%Z ->
  segment_of (audioBuffer s) (speechStartBufferIndex s) endTime
             (createSpeechSegment endTime s).
Proof.
  intros Hk. unfold segment_of, createSpeechSegment. cbv zeta.
  cbn [seg_audioData seg_duration seg_end seg_start].
  rewrite (slice_from_nonneg _ _ Hk), total_length_concat.
  split; [reflexivity|]. split; [reflexivity|]. split; [reflexivity|].
  apply js_max_compat. field.
Qed.

(** What the event of a finalisation carries. *)
Lemma endSpeech_payload (ts p : Q) (s : SileroVAD) :
  (0 <= speechStartBufferIndex s)%Z ->
  state (fst (endSpeech ts p s)) = silence
  /\ exists e : Emitted,
      snd (endSpeech ts p s) = [e]
      /\ ev_name e = "speech-end"%string
      /\ timestamp (ev_data e) = ts
      /\ forall seg : Segment,
          segment (ev_data e) = Some seg ->
          segment_of (audioBuffer s) (speechStartBufferIndex s) ts seg.
Proof.
  intros Hk. destruct (endSpeech_spec ts p s) as [Hst Hev].
  split; [exact Hst|]. eexists. split; [exact Hev|].
  split; [reflexivity|]. split; [reflexivity|].
  cbn [ev_data segment]. intros seg.
  destruct (Qgeb _ _); [|discriminate].
  intros [= <-]. now apply createSpeechSegment_payload.
Qed.

(** A step taken while speech is active either stays in speech, with the
    buffer and the cut index untouched, or finalises the segment. *)
Lemma step_in_speech (p ts d : Q) (s : SileroVAD) :
  is_speech (state s) = true ->
  (0 <= speechStartBufferIndex s)%Z ->
  (is_speech (state (fst (updateVADState_step p ts d s))) = true
   /\ snd (updateVADState_step p ts d s) = []
   /\ audioBuffer (fst (updateVADState_step p ts d s)) = audioBuffer s
   /\ speechStartBufferIndex (fst (updateVADState_step p ts d s))
      = speechStartBufferIndex s)
  \/ (state (fst (updateVADState_step p ts d s)) = silence
      /\ exists e : Emitted,
          snd (updateVADState_step p ts d s) = [e]
          /\ ev_name e = "speech-end"%string
          /\ forall seg : Segment,
              segment (ev_data e) = Some seg ->
              segment_of (audioBuffer s) (speechStartBufferIndex s)
                         (timestamp (ev_data e)) seg).
Proof.
  intros Hsp Hk. unfold updateVADState_step. cbv zeta.
  destruct (state s) eqn:Hst; try discriminate.
  - left. destruct (Qltb _ _); cbn; rewrite ?Hst; auto.
  - destruct (Qltb _ _).
    + destruct (Qgeb _ _).
      * right.
        match goal with
        | |- context [endSpeech ?t ?q ?x] =>
            destruct (endSpeech_payload t q x Hk) as (H1 & e & H2 & H3 & H4 & H5)
        end.
        split; [exact H1|]. exists e. split; [exact H2|]. split; [exact H3|].
        rewrite H4. exact H5.
      * left. cbn. rewrite Hst. auto.
    + left. destruct (Qgtb _ _); cbn; rewrite ?Hst; auto.
Qed.

(** The cut index fixed when a speech start is confirmed. *)
Lemma confirmSpeechStart_cut (ts p : Q) (s : SileroVAD) :
  speechStartBufferIndex (fst (confirmSpeechStart ts p s))
  = calculateSpeechStartBufferIndex s
  /\ (0 <= calculateSpeechStartBufferIndex s)%Z
  /\ audioBuffer (fst (confirmSpeechStart ts p s)) = audioBuffer s
  /\ state (fst (confirmSpeechStart ts p s)) = speaking.
Proof.
  unfold confirmSpeechStart, calculateSpeechStartBufferIndex. cbv zeta.
  cbn [fst speechStartBufferIndex audioBuffer state config
       set_speechStartBufferIndex set_speechEndCandidateTime
       set_potentialSilenceDurationMs set_potentialSpeechDurationMs set_state].
  repeat split; try reflexivity.
  destruct (audioBuffer s); lia.
Qed.

Lemma process_prepare_in_speech (a : Float32Array) (ts : Q) (s : SileroVAD) :
  is_speech (state s) = true ->
  audioBuffer (fst (process_prepare a ts s)) = audioBuffer s ++ [a].
Proof.
  intros Hsp. unfold process_prepare. cbv zeta.
  cbn [fst state set_audioBuffer set_lastTimestamp audioBuffer].
  destruct (state s); try discriminate; reflexivity.
Qed.

Lemma endSpeech_cut (ts p : Q) (s : SileroVAD) :
  speechStartBufferIndex (fst (endSpeech ts p s)) = 0%Z.
Proof.
  unfold endSpeech. cbv zeta.
  match goal with |- context [if ?c then _ else _] => destruct c end;
    reflexivity.
Qed.

Lemma step_cut_nonneg (p ts d : Q) (s : SileroVAD) :
  (0 <= speechStartBufferIndex s)%Z ->
  (0 <= speechStartBufferIndex (fst (updateVADState_step p ts d s)))%Z.
Proof.
  intros Hk. unfold updateVADState_step. cbv zeta.
  destruct (state s);
    repeat match goal with
           | |- context [confirmSpeechStart ?t ?q ?x] =>
               destruct (confirmSpeechStart_cut t q x) as (-> & Hc & _);
               exact Hc
           | |- context [endSpeech ?t ?q ?x] =>
               rewrite (endSpeech_cut t q x); lia
           | |- context [if ?c then _ else _] => destruct c
           end;
    cbn; solve [assumption | lia].
Qed.

Section Segments.

Variable run : Float32Array -> Tensor -> Q * Tensor.

Lemma frame_loop_machine (fuel : nat) :
  forall (combined : Float32Array) (s : SileroVAD) (frames : list Float32Array)
         (offset : nat) (tp : Q) (fc : nat),
    same_machine
      (loop_engine (frame_loop run fuel combined s frames offset tp fc)) s.
Proof.
  induction fuel as [|fuel IH]; intros combined s frames offset tp fc;
    cbn [frame_loop].
  - unfold same_machine. cbn. repeat split; reflexivity.
  - destruct (offset + frameSize <=? length combined)%nat;
      [|unfold same_machine; cbn; repeat split; reflexivity].
    unfold processFrame.
    destruct (session s), (stateTensor s);
      try (unfold same_machine; cbn; repeat split; reflexivity).
    match goal with
    | |- same_machine (loop_engine (frame_loop _ _ _ ?s1 ?f ?o ?t ?c)) _ =>
        pose proof (IH combined s1 f o t c) as H
    end.
    unfold same_machine in *. cbn in H. exact H.
Qed.

(** The cut index of a reachable engine is never negative. *)
Lemma reachable_cut_nonneg (s : SileroVAD) :
  reachable run s -> (0 <= speechStartBufferIndex s)%Z.
Proof.
  induction 1 as [c | s _ IH | s a ts _ IH | s ts _ IH | s _ IH | s c _ IH].
  - cbn. lia.
  - cbn. exact IH.
  - unfold process.
    destruct (process_prepare_frame a ts s) as (_ & _ & _ & _ & _ & M & _).
    destruct (process_prepare a ts s) as [s3 combined]. cbn [fst] in M.
    pose proof (frame_loop_machine (S (length combined)) combined s3 [] 0 0 0)
      as Hl.
    destruct (frame_loop _ _ _ _ _ _ _ _) as [s4 fr | s4 fr off tp fc];
      cbn [loop_engine] in Hl; unfold same_machine in *.
    + cbn [outcome_engine]. intuition congruence.
    + unfold updateVADState.
      match goal with
      | |- context [updateVADState_step ?q ?t ?d ?x] =>
          pose proof (step_cut_nonneg q t d x) as Hstep;
          destruct (updateVADState_step q t d x) as [s6 events]
      end.
      cbn [outcome_engine fst] in *. apply Hstep.
      cbn [speechStartBufferIndex set_sampleBuffer]. intuition congruence.
  - unfold flush. destruct (state s); cbn [fst]; try exact IH.
    + cbn. lia.
    + rewrite endSpeech_cut. lia.
    + rewrite endSpeech_cut. lia.
  - rewrite reset_fields. cbn. lia.
  - cbn. exact IH.
Qed.

(** A call of [process] while speech is active appends the chunk to the
    buffer; it then stays in speech, emitting nothing and leaving the cut
    index alone, or finalises the segment over the grown buffer. *)
Lemma process_in_speech (a : Float32Array) (ts : Q) (s : SileroVAD) :
  initialized s -> is_speech (state s) = true ->
  (0 <= speechStartBufferIndex s)%Z ->
  exists r s' fs evs,
    process run a ts s = Returned r s' fs evs
    /\ initialized s'
    /\ ((is_speech (state s') = true /\ evs = []
         /\ audioBuffer s' = audioBuffer s ++ [a]
         /\ speechStartBufferIndex s' = speechStartBufferIndex s)
        \/ (state s' = silence
            /\ exists e : Emitted,
                evs = [e] /\ ev_name e = "speech-end"%string
                /\ forall seg : Segment,
                    segment (ev_data e) = Some seg ->
                    segment_of (audioBuffer s ++ [a]) (speechStartBufferIndex s)
                               (timestamp (ev_data e)) seg)).
Proof.
  intros Hi Hsp Hk.
  destruct Hi as [Hs Ht]. destruct (stateTensor s) as [t|] eqn:Et; [|congruence].
  destruct (process_spec run a ts s t Hs Et)
    as (fs & Hp & _ & _ & _ & Hinit).
  cbv zeta in Hp, Hinit.
  destruct (process_prepare_frame a ts s) as (_ & _ & _ & _ & _ & M & _).
  destruct (after_frames_frame (fst (infer run fs t)) (snd (infer run fs t))
              (fst (process_prepare a ts s))) as (B & _ & _ & M' & _).
  match type of Hp with
  | context [fst (updateVADState_step ?p ?t ?d ?s5)] =>
      set (s5' := s5) in *; set (p' := p) in *; set (d' := d) in *
  end.
  eexists _, _, fs, _. split; [exact Hp|]. split; [exact Hinit|].
  assert (Hb : audioBuffer s5' = audioBuffer s ++ [a]).
  { subst s5'. cbn [audioBuffer set_sampleBuffer].
    rewrite B. now apply process_prepare_in_speech. }
  assert (Hm : same_machine s5' s).
  { subst s5'. unfold same_machine in *.
    cbn [config state speechStartTime speechEndCandidateTime
         speechStartBufferIndex potentialSpeechDurationMs
         potentialSilenceDurationMs set_sampleBuffer].
    intuition congruence. }
  destruct Hm as (_ & Mst & _ & _ & Mk & _).
  rewrite <- Hb, <- Mk.
  apply step_in_speech; congruence.
Qed.

(** C5, as the code has it.  Take the engine at any point where speech is
    active, for instance right after the confirmation that fixed the cut
    index ([confirmSpeechStart_cut]; the index of a reachable engine is never
    negative, [reachable_cut_nonneg]).  As long as no event is emitted the engine stays in speech, every
    chunk is appended to the buffer and the cut index does not move.  When a
    call of [process], or [flush], then finalises with a segment, the samples
    of the segment are the buffered chunks from the cut index to the end of
    the buffer, in order; the duration is their number of samples divided by
    16000, in milliseconds; and the start is the end time minus that
    duration in seconds, or 0 when this is negative. *)
Theorem segment_payload (s : SileroVAD) :
  initialized s -> is_speech (state s) = true ->
  (0 <= speechStartBufferIndex s)%Z ->
  (forall (chunks : list (Float32Array * Q)) (s' : SileroVAD)
          (frames : list Float32Array),
      process_all run chunks s = Some (s', frames, []) ->
      is_speech (state s') = true
      /\ audioBuffer s' = audioBuffer s ++ map fst chunks
      /\ speechStartBufferIndex s' = speechStartBufferIndex s)
  /\ (forall (a : Float32Array) (ts : Q),
        exists r s' fs evs,
          process run a ts s = Returned r s' fs evs
          /\ forall (e : Emitted) (seg : Segment),
              In e evs -> segment (ev_data e) = Some seg ->
              ev_name e = "speech-end"%string
              /\ segment_of (audioBuffer s ++ [a]) (speechStartBufferIndex s)
                            (timestamp (ev_data e)) seg)
  /\ (forall (ts : option Q) (e : Emitted) (seg : Segment),
        In e (snd (flush ts s)) -> segment (ev_data e) = Some seg ->
        ev_name e = "speech-end"%string
        /\ segment_of (audioBuffer s) (speechStartBufferIndex s)
                      (timestamp (ev_data e)) seg).
Proof.
  intros Hi Hsp Hk. split; [|split].
  - intros chunks. revert s Hi Hsp Hk.
    induction chunks as [|[a ts] rest IH]; intros s Hi Hsp Hk s' frames Hrun.
    + cbn in Hrun. injection Hrun as <- _.
      cbn [map]. rewrite app_nil_r. auto.
    + cbn [process_all] in Hrun.
      destruct (process_in_speech a ts s Hi Hsp Hk)
        as (r & s1 & fs & evs & Hp & Hi1 & Hcase).
      rewrite Hp in Hrun.
      destruct (process_all run rest s1) as [[[s2 frames2] evs2]|] eqn:Hrest;
        [|discriminate].
      assert (Hnil : evs ++ evs2 = []) by congruence.
      apply app_eq_nil in Hnil. destruct Hnil as [-> ->].
      assert (Hs2 : s2 = s') by congruence. subst s2.
      destruct Hcase as [(Hsp1 & _ & Hb1 & Hk1) | (_ & e & He & _)];
        [|discriminate].
      destruct (IH s1 Hi1 Hsp1 ltac:(congruence) s' frames2 Hrest)
        as (Hsp' & Hb' & Hk').
      split; [exact Hsp'|]. split; [|congruence].
      rewrite Hb', Hb1, <- app_assoc. reflexivity.
  - intros a ts.
    destruct (process_in_speech a ts s Hi Hsp Hk)
      as (r & s1 & fs & evs & Hp & _ & Hcase).
    exists r, s1, fs, evs. split; [exact Hp|].
    intros e seg Hin Hseg.
    destruct Hcase as [(_ & -> & _) | (_ & e' & -> & Hname & Hpay)];
      [contradiction|].
    destruct Hin as [<-|[]]. split; [exact Hname | now apply Hpay].
  - intros ts e seg Hin Hseg. unfold flush in Hin.
    destruct (state s); try discriminate;
      match type of Hin with
      | context [endSpeech ?t ?q ?x] =>
          destruct (endSpeech_payload t q x Hk) as (_ & e' & H2 & H3 & H4 & H5)
      end;
      rewrite H2 in Hin; destruct Hin as [<-|[]];
      (split; [exact H3|]); rewrite H4; now apply H5.
Qed.

End Segments.

(** The frame of silence that completes the 1400 ms of silence after a
    speech: the call of [process] emits one speech-end whose segment holds
    the 57 chunks buffered, 29184 samples, from the cut index 0 on. *)
Lemma segment_payload_witness :
  initialized ending_engine
  /\ is_speech (state ending_engine) = true
  /\ (0 <= speechStartBufferIndex ending_engine)%Z
  /\ exists r s' fs e seg,
      process probe_run (constant_chunk 512 0.1) 1.792 ending_engine
      = Returned r s' fs [e]
      /\ segment (ev_data e) = Some seg
      /\ ev_name e = "speech-end"%string
      /\ segment_of (audioBuffer ending_engine ++ [constant_chunk 512 0.1])
                    (speechStartBufferIndex ending_engine)
                    (timestamp (ev_data e)) seg
      /\ Z.of_nat (length (seg_audioData seg)) = 29184%Z.
Proof.
  assert (H1 : initialized ending_engine)
    by (split; [vm_compute; reflexivity | vm_compute; discriminate]).
  assert (H2 : is_speech (state ending_engine) = true)
    by (vm_compute; reflexivity).
  assert (H3 : (0 <= speechStartBufferIndex ending_engine)%Z)
    by (vm_compute; discriminate).
  split; [exact H1|]. split; [exact H2|]. split; [exact H3|].
  destruct (proj1 (proj2 (segment_payload probe_run ending_engine H1 H2 H3))
              (constant_chunk 512 0.1) 1.792)
    as (r & s' & fs & evs & Hp & Hpay).
  assert (Hev : match outcome_events
                        (process probe_run (constant_chunk 512 0.1) 1.792
                                 ending_engine) with
                | [e] => match segment (ev_data e) with
                         | Some _ => true
                         | None => false
                         end
                | _ => false
                end = true)
    by (vm_compute; reflexivity).
  rewrite Hp in Hev. cbn [outcome_events] in Hev.
  destruct evs as [|e [|e' evs]]; try discriminate Hev.
  destruct (segment (ev_data e)) as [seg|] eqn:Hseg; [|discriminate Hev].
  destruct (Hpay e seg (or_introl eq_refl) Hseg) as (Hname & Hof).
  exists r, s', fs, e, seg.
  split; [exact Hp|]. split; [exact Hseg|]. split; [exact Hname|].
  split; [exact Hof|].
  destruct Hof as (Haudio & _). rewrite Haudio.
  vm_compute; reflexivity.
Defined.

(** C5 as the claim states it fails on the start of the segment: a speech
    that begins with the stream and is ended by 1408 ms of silence gives a
    segment of 29184 samples (1.824 s) that ends at 0.416 s; its start is 0,
    not 0.416 - 1.824. *)
Lemma segment_start_counterexample :
  map ev_name (events_of (steady_stream 1 512 0.1 0.032 56) ending_engine)
  = ["speech-end"%string]
  /\ map segment_summary
         (events_of (steady_stream 1 512 0.1 0.032 56) ending_engine)
     = [Some (0, Qred 0.416, 1824, 29184%Z)]
  /\ map start_is_end_minus_duration
         (events_of (steady_stream 1 512 0.1 0.032 56) ending_engine)
     = [Some false].
Proof.
  split; [vm_compute; reflexivity|].
  split; vm_compute; reflexivity.
Qed.

(** * Further properties of the engine *)

Section EngineAtLarge.

Variable run : Float32Array -> Tensor -> Q * Tensor.

(** The loop only writes [lastProbability] and [stateTensor]. *)
Lemma frame_loop_keeps (fuel : nat) :
  forall (combined : Float32Array) (s : SileroVAD) (frames : list Float32Array)
         (offset : nat) (tp : Q) (fc : nat),
    let s' := loop_engine (frame_loop run fuel combined s frames offset tp fc) in
    sampleBuffer s' = sampleBuffer s /\ audioBuffer s' = audioBuffer s
    /\ lastTimestamp s' = lastTimestamp s /\ session s' = session s.
Proof.
  induction fuel as [|fuel IH]; intros combined s frames offset tp fc;
    cbn [frame_loop].
  - cbn. auto.
  - destruct (offset + frameSize <=? length combined)%nat; [|cbn; auto].
    unfold processFrame.
    destruct (session s) eqn:Hs, (stateTensor s); try (cbn; auto).
    match goal with
    | |- context [frame_loop _ _ _ ?s1 ?f ?o ?t ?c] =>
        pose proof (IH combined s1 f o t c) as H
    end.
    cbn in H. rewrite Hs in H. exact H.
Qed.

(** With enough fuel the loop ends by throwing or through its condition. *)
Lemma frame_loop_exit (fuel : nat) :
  forall (combined : Float32Array) (s : SileroVAD) (frames : list Float32Array)
         (offset : nat) (tp : Q) (fc : nat),
    (length combined < offset + fuel)%nat ->
    match frame_loop run fuel combined s frames offset tp fc with
    | LoopThrew _ _ => True
    | LoopDone _ _ off _ _ => (length combined < off + frameSize)%nat
    end.
Proof.
  induction fuel as [|fuel IH]; intros combined s frames offset tp fc Hfuel;
    cbn [frame_loop].
  - pose proof frameSize_pos. lia.
  - destruct (offset + frameSize <=? length combined)%nat eqn:Hc.
    + destruct (processFrame run _ s) as [[p s1]|]; [|exact I].
      apply IH. pose proof frameSize_pos. lia.
    + apply Nat.leb_gt in Hc. exact Hc.
Qed.

(** What a call of [process] that returns has done, on any engine: one step
    of the machine as the call found it, from an engine whose remainder is
    shorter than a frame. *)
Lemma process_returned_step (a : Float32Array) (ts : Q) (s : SileroVAD)
    (r : ProcessResult) (s' : SileroVAD) (fs : list Float32Array)
    (evs : list Emitted) :
  process run a ts s = Returned r s' fs evs ->
  exists (p d : Q) (s5 : SileroVAD),
    same_machine s5 s
    /\ audioBuffer s5 = audioBuffer (fst (process_prepare a ts s))
    /\ (length (sampleBuffer s5) < frameSize)%nat
    /\ session s5 = session s
    /\ s' = fst (updateVADState_step p ts d s5)
    /\ evs = snd (updateVADState_step p ts d s5)
    /\ r = mkResult (is_speech (state s')) p.
Proof.
  unfold process.
  destruct (process_prepare_frame a ts s) as (E1 & _ & _ & _ & _ & M & Ec).
  destruct (process_prepare a ts s) as [s3 combined]. cbn [fst snd] in *.
  pose proof (frame_loop_machine run (S (length combined)) combined s3 [] 0 0 0)
    as Hm.
  pose proof (frame_loop_keeps (S (length combined)) combined s3 [] 0 0 0)
    as Hk.
  pose proof (frame_loop_exit (S (length combined)) combined s3 [] 0 0 0) as Hx.
  destruct (frame_loop _ _ _ _ _ _ _ _) as [s4 fr | s4 fr off tp fc];
    [discriminate|].
  cbn [loop_engine] in *. cbv zeta in Hk. destruct Hk as (_ & Hab & _ & Hse).
  unfold updateVADState.
  destruct (updateVADState_step _ _ _ _) as [s6 events] eqn:Hstep.
  intros [= <- <- <- <-].
  eexists _, _, _. rewrite Hstep. cbn [fst snd].
  split; [|split; [|split; [|split; [|split; [reflexivity|split; reflexivity]]]]].
  - unfold same_machine in *.
    cbn [config state speechStartTime speechEndCandidateTime
         speechStartBufferIndex potentialSpeechDurationMs
         potentialSilenceDurationMs set_sampleBuffer].
    intuition congruence.
  - cbn [audioBuffer set_sampleBuffer]. exact Hab.
  - cbn [sampleBuffer set_sampleBuffer]. rewrite length_skipn.
    specialize (Hx ltac:(lia)). pose proof frameSize_pos. lia.
  - cbn [session set_sampleBuffer]. congruence.
Qed.

Lemma length_concat_uniform {A : Type} (n : nat) (l : list (list A)) :
  Forall (fun f => length f = n) l -> length (concat l) = (n * length l)%nat.
Proof.
  induction 1 as [|f l Hf _ IH]; cbn [concat length]; [lia|].
  rewrite length_app, IH, Hf. lia.
Qed.

(** X1.  On an initialised engine a call of [process] hands to the model as
    many frames as 512 goes into the samples accumulated -- the remainder
    plus the chunk -- and leaves the rest of that division as the new
    remainder. *)
Theorem process_frame_count (a : Float32Array) (ts : Q) (s : SileroVAD) :
  initialized s ->
  exists r s' fs evs,
    process run a ts s = Returned r s' fs evs
    /\ length fs
       = ((length (sampleBuffer s) + length a) / frameSize)%nat
    /\ length (sampleBuffer s')
       = ((length (sampleBuffer s) + length a) mod frameSize)%nat.
Proof.
  intros Hi.
  destruct (process_roundtrip run a ts s Hi)
    as (r & s' & fs & evs & Hp & _ & Hcat & Hall & Hr).
  exists r, s', fs, evs. split; [exact Hp|].
  apply (f_equal (@length Sample)) in Hcat.
  rewrite !length_app, (length_concat_uniform frameSize fs Hall) in Hcat.
  split.
  - apply (Nat.div_unique _ _ _ (length (sampleBuffer s')));
      [exact Hr | symmetry; exact Hcat].
  - apply (Nat.mod_unique _ _ (length fs)); [exact Hr | symmetry; exact Hcat].
Qed.

(** A call that throws has left the state machine and the remainder as they
    were and has handed no frame to the model. *)
Lemma process_threw (a : Float32Array) (ts : Q) (s s' : SileroVAD)
    (fs : list Float32Array) :
  process run a ts s = Threw s' fs ->
  s' = fst (process_prepare a ts s) /\ fs = []
  /\ (frameSize <= length (sampleBuffer s ++ a))%nat
  /\ ~ initialized s.
Proof.
  unfold process.
  destruct (process_prepare_frame a ts s) as (E1 & E2 & _ & _ & _ & _ & Ec).
  destruct (process_prepare a ts s) as [s3 combined]. cbn [fst snd] in *.
  subst combined. cbn [frame_loop].
  destruct (0 + frameSize <=? length (sampleBuffer s ++ a))%nat eqn:Hc;
    [|destruct (updateVADState _ _ _ _) as [[? ?] ?]; discriminate].
  apply Nat.leb_le in Hc.
  unfold processFrame.
  destruct (session s3) eqn:Hs; [destruct (stateTensor s3) as [t|] eqn:Ht|].
  - cbv beta iota zeta.
    match goal with
    | |- context [frame_loop run ?fuel ?c ?s1 ?f ?o ?tp ?fc] =>
        destruct (frame_loop_done run fuel c s1 f o tp fc
                    (snd (run (slice 0 (0 + frameSize) (sampleBuffer s ++ a)) t)))
          as (fs' & Hrun & _);
          [exact Hs | reflexivity | pose proof frameSize_pos; lia |]
    end.
    rewrite Hrun. destruct (updateVADState _ _ _ _) as [[? ?] ?]. discriminate.
  - intros [= <- <-]. repeat split; try lia.
    intros [_ Hn]. congruence.
  - intros [= <- <-]. repeat split; try lia.
    intros [Hn _]. congruence.
Qed.

(** X2.  Whatever a client does with the public methods, the remainder the
    engine carries from one call to the next is shorter than a frame: at most
    511 samples are ever kept waiting. *)
Theorem reachable_remainder_bound (s : SileroVAD) :
  reachable run s -> (length (sampleBuffer s) < frameSize)%nat.
Proof.
  induction 1 as [c | s _ IH | s a ts _ IH | s ts _ IH | s _ IH | s c _ IH].
  - cbn. apply frameSize_pos.
  - cbn. exact IH.
  - destruct (process run a ts s) as [r s' fs evs | s' fs] eqn:Hp;
      cbn [outcome_engine].
    + destruct (process_returned_step a ts s r s' fs evs Hp)
        as (p & d & s5 & _ & _ & Hr & _ & Hs' & _).
      destruct (updateVADState_step_frame p ts d s5) as (_ & _ & F3 & _).
      rewrite Hs', F3. exact Hr.
    + destruct (process_threw a ts s s' fs Hp) as (-> & _).
      destruct (process_prepare_frame a ts s) as (_ & _ & E3 & _).
      rewrite E3. exact IH.
  - unfold flush. destruct (state s); cbn [fst]; try exact IH;
      match goal with
      | |- context [endSpeech ?t ?q ?x] =>
          assert (E : sampleBuffer (fst (endSpeech t q x)) = sampleBuffer x)
            by (unfold endSpeech; cbv zeta;
                match goal with
                | |- context [if ?c then _ else _] => destruct c
                end; reflexivity);
          rewrite E; exact IH
      end.
  - rewrite reset_fields. cbn. apply frameSize_pos.
  - cbn. exact IH.
Qed.

End EngineAtLarge.

(** An engine obtained by construction, initialisation and a reset. *)
Lemma reachable_remainder_bound_witness :
  reachable probe_run (reset fresh_engine)
  /\ (length (sampleBuffer (reset fresh_engine)) < frameSize)%nat.
Proof.
  assert (H : reachable probe_run (reset fresh_engine))
    by (apply reach_reset, reach_initialize, reach_new).
  split; [exact H|].
  exact (reachable_remainder_bound probe_run (reset fresh_engine) H).
Defined.

(** A chunk of 60 ms given to a fresh engine. *)
Lemma process_frame_count_witness :
  initialized fresh_engine
  /\ exists r s' fs evs,
      process probe_run (constant_chunk 960 0%Q) 0 fresh_engine
      = Returned r s' fs evs
      /\ length fs
         = ((length (sampleBuffer fresh_engine)
             + length (constant_chunk 960 0%Q)) / frameSize)%nat
      /\ length (sampleBuffer s')
         = ((length (sampleBuffer fresh_engine)
             + length (constant_chunk 960 0%Q)) mod frameSize)%nat.
Proof.
  assert (Hi : initialized fresh_engine)
    by (split; [reflexivity | discriminate]).
  split; [exact Hi|].
  exact (process_frame_count probe_run (constant_chunk 960 0%Q) 0 fresh_engine Hi).
Defined.

Lemma Qltb_false (a b : Q) : Qltb a b = false <-> b <= a.
Proof. unfold Qltb. rewrite negb_false_iff. apply Qle_bool_iff. Qed.

(** X4.  A step whose probability lies between the two thresholds, bounds
    included, emits nothing and moves no state: [silence] stays [silence], a
    pending start neither advances nor is cancelled, a pending end neither
    advances nor is called off -- the engine is exactly as before -- and in
    [speaking] the step only clears the silence it had begun to count. *)
Theorem hysteresis_dead_zone (p ts d : Q) (s : SileroVAD) :
  negativeSpeechThreshold (config s) <= p ->
  p <= positiveSpeechThreshold (config s) ->
  snd (updateVADState_step p ts d s) = []
  /\ state (fst (updateVADState_step p ts d s)) = state s
  /\ (state s <> speaking -> fst (updateVADState_step p ts d s) = s)
  /\ (state s = speaking ->
      fst (updateVADState_step p ts d s)
      = set_speechEndCandidateTime 0 (set_potentialSilenceDurationMs 0 s)).
Proof.
  intros Hn Hp. apply Qltb_false in Hn. apply Qgtb_false in Hp.
  unfold updateVADState_step. cbv zeta. rewrite Hn, Hp.
  destruct (state s) eqn:Hst; cbn [fst snd state set_speechEndCandidateTime
                                   set_potentialSilenceDurationMs];
    repeat split; try reflexivity; try congruence.
Qed.

(** A probability of 0.28 between the default thresholds 0.25 and 0.3, while
    a start is pending. *)
Lemma hysteresis_dead_zone_witness :
  negativeSpeechThreshold (config confirming_engine) <= 0.28
  /\ 0.28 <= positiveSpeechThreshold (config confirming_engine)
  /\ snd (updateVADState_step 0.28 0.384 32 confirming_engine) = []
  /\ state (fst (updateVADState_step 0.28 0.384 32 confirming_engine))
     = state confirming_engine.
Proof.
  assert (H1 : negativeSpeechThreshold (config confirming_engine) <= 0.28)
    by (vm_compute; discriminate).
  assert (H2 : 0.28 <= positiveSpeechThreshold (config confirming_engine))
    by (vm_compute; discriminate).
  split; [exact H1|]. split; [exact H2|].
  pose proof (hysteresis_dead_zone 0.28 0.384 32 confirming_engine H1 H2) as H.
  split; [exact (proj1 H) | exact (proj1 (proj2 H))].
Defined.

(** Every step emits at most one event, and it emits one exactly when the
    returned speech flag changes: a speech-start when it rises, a speech-end
    when it falls. *)
Lemma step_event_shape (p ts d : Q) (s : SileroVAD) :
  (snd (updateVADState_step p ts d s) = []
   /\ is_speech (state (fst (updateVADState_step p ts d s)))
      = is_speech (state s))
  \/ (exists e : Emitted,
        snd (updateVADState_step p ts d s) = [e]
        /\ ev_name e = (if is_speech (state s)
                        then "speech-end" else "speech-start")%string
        /\ is_speech (state (fst (updateVADState_step p ts d s)))
           = negb (is_speech (state s))).
Proof.
  unfold updateVADState_step, confirmSpeechStart. cbv zeta.
  destruct (state s) eqn:Hst;
    repeat match goal with
           | |- context [endSpeech ?t ?q ?x] =>
               destruct (endSpeech_spec t q x) as [H1 H2];
               right; eexists; split; [exact H2|]; split; [reflexivity|];
               rewrite H1; reflexivity
           | |- context [if Qgtb ?x ?y then _ else _] => destruct (Qgtb x y)
           | |- context [if Qltb ?x ?y then _ else _] => destruct (Qltb x y)
           | |- context [if Qgeb ?x ?y then _ else _] => destruct (Qgeb x y)
           end;
    cbn [fst snd state set_state set_speechStartTime
         set_potentialSpeechDurationMs set_potentialSilenceDurationMs
         set_speechEndCandidateTime set_speechStartBufferIndex resetToSilence
         is_speech];
    rewrite ?Hst;
    solve [left; split; reflexivity
          | right; eexists; split; [reflexivity|]; split; reflexivity].
Qed.

Section EngineBehaviour.

Variable run : Float32Array -> Tensor -> Q * Tensor.

(** X3.  An engine without a session or without a recurrent state throws
    out of [process] exactly when the samples accumulated make up a frame.
    The call that throws has already recorded the timestamp and pushed the
    chunk on the frame buffer; the remainder and the state machine are as
    before, no frame reached the model and no event was emitted.  With fewer
    samples the call returns and the chunk joins the remainder. *)
Theorem process_uninitialized (a : Float32Array) (ts : Q) (s : SileroVAD) :
  session s = false \/ stateTensor s = None ->
  ((frameSize <= length (sampleBuffer s ++ a))%nat ->
     exists s',
       process run a ts s = Threw s' []
       /\ lastTimestamp s' = ts
       /\ sampleBuffer s' = sampleBuffer s
       /\ same_machine s' s
       /\ (state s <> silence -> audioBuffer s' = audioBuffer s ++ [a]))
  /\ ((length (sampleBuffer s ++ a) < frameSize)%nat ->
      exists r s' evs,
        process run a ts s = Returned r s' [] evs
        /\ sampleBuffer s' = sampleBuffer s ++ a).
Proof.
  intros Hun.
  destruct (process_prepare_frame a ts s) as (E1 & E2 & E3 & _ & E5 & M & Ec).
  split.
  - intros Hlen. exists (fst (process_prepare a ts s)).
    split; [|split; [exact E5|split; [exact E3|split; [exact M|]]]].
    + unfold process.
      destruct (process_prepare a ts s) as [s3 combined]. cbn [fst snd] in *.
      subst combined. cbn [frame_loop].
      rewrite (proj2 (Nat.leb_le _ _)) by (cbn [plus]; exact Hlen).
      unfold processFrame. rewrite E1, E2.
      destruct Hun as [-> | ->]; [reflexivity|].
      destruct (session s); reflexivity.
    + intros Hst. unfold process_prepare. cbv zeta.
      cbn [fst state set_audioBuffer set_lastTimestamp audioBuffer].
      destruct (state s); try congruence; reflexivity.
  - intros Hlen. unfold process.
    destruct (process_prepare a ts s) as [s3 combined]. cbn [fst snd] in *.
    subst combined. cbn [frame_loop].
    rewrite (proj2 (Nat.leb_gt _ _)) by (cbn [plus]; exact Hlen).
    unfold updateVADState.
    match goal with
    | |- context [updateVADState_step ?q ?t ?d ?x] =>
        destruct (updateVADState_step_frame q t d x) as (_ & _ & F3 & _);
        destruct (updateVADState_step q t d x) as [s6 events]
    end.
    cbn [fst snd] in *. eexists _, _, _. split; [reflexivity|].
    rewrite F3. cbn [sampleBuffer set_sampleBuffer skipn]. reflexivity.
Qed.

(** One call of [process] emits at most one event, and the speech flag of
    the engine changes exactly when it emits one. *)
Lemma process_event_shape (a : Float32Array) (ts : Q) (s : SileroVAD)
    (r : ProcessResult) (s' : SileroVAD) (fs : list Float32Array)
    (evs : list Emitted) :
  process run a ts s = Returned r s' fs evs ->
  r_isSpeech r = is_speech (state s')
  /\ ((evs = [] /\ is_speech (state s') = is_speech (state s))
      \/ (exists e : Emitted,
            evs = [e]
            /\ ev_name e = (if is_speech (state s)
                            then "speech-end" else "speech-start")%string
            /\ is_speech (state s') = negb (is_speech (state s)))).
Proof.
  intros Hp.
  destruct (process_returned_step run a ts s r s' fs evs Hp)
    as (p & d & s5 & M & _ & _ & _ & Hs' & Hev & Hr).
  split; [rewrite Hr; reflexivity|].
  destruct M as (_ & Mst & _). rewrite Hs', Hev, <- Mst.
  apply step_event_shape.
Qed.

(** X6.  Over any sequence of calls of [process] on an initialised engine,
    the events emitted alternate between speech-start and speech-end,
    beginning with a speech-end if the engine was in speech and with a
    speech-start otherwise; the engine ends in speech exactly when an odd
    number of events turned it over. *)
Theorem events_alternate (chunks : list (Float32Array * Q)) (s : SileroVAD) :
  initialized s ->
  exists s' frames events,
    process_all run chunks s = Some (s', frames, events)
    /\ alternating (is_speech (state s)) (map ev_name events)
    /\ is_speech (state s')
       = xorb (is_speech (state s)) (Nat.odd (length events)).
Proof.
  revert s. induction chunks as [|[a ts] rest IH]; intros s Hi.
  - exists s, [], []. cbn. rewrite xorb_false_r. auto.
  - destruct (process_roundtrip run a ts s Hi)
      as (r & s1 & fs & evs & Hp & Hi1 & _).
    destruct (IH s1 Hi1) as (s' & frames & events & Hall & Halt & Hpar).
    exists s', (fs ++ frames), (evs ++ events).
    cbn [process_all]. rewrite Hp, Hall. split; [reflexivity|].
    destruct (process_event_shape a ts s r s1 fs evs Hp)
      as (_ & [(-> & Hsame) | (e & -> & Hname & Hflip)]).
    + cbn [app]. rewrite <- Hsame. auto.
    + cbn [app map alternating length]. rewrite Hflip in Halt, Hpar.
      split; [split; [exact Hname | exact Halt]|].
      rewrite Hpar, Nat.odd_succ, <- Nat.negb_odd.
      destruct (is_speech (state s)), (Nat.odd (length events)); reflexivity.
Qed.

End EngineBehaviour.

(** An engine that was constructed and never initialised, given a chunk of
    60 ms, and given one of 20 ms. *)
Lemma process_uninitialized_witness :
  (session (new_SileroVAD no_options) = false
   \/ stateTensor (new_SileroVAD no_options) = None)
  /\ (frameSize
      <= length (sampleBuffer (new_SileroVAD no_options)
                 ++ constant_chunk 960 0%Q))%nat
  /\ (exists s',
        process probe_run (constant_chunk 960 0) 0 (new_SileroVAD no_options)
        = Threw s' []
        /\ lastTimestamp s' = 0
        /\ sampleBuffer s' = sampleBuffer (new_SileroVAD no_options)
        /\ same_machine s' (new_SileroVAD no_options)
        /\ (state (new_SileroVAD no_options) <> silence ->
            audioBuffer s'
            = audioBuffer (new_SileroVAD no_options) ++ [constant_chunk 960 0]))
  /\ (length (sampleBuffer (new_SileroVAD no_options)
              ++ constant_chunk 320 0%Q) < frameSize)%nat
  /\ (exists r s' evs,
        process probe_run (constant_chunk 320 0) 0 (new_SileroVAD no_options)
        = Returned r s' [] evs
        /\ sampleBuffer s'
           = sampleBuffer (new_SileroVAD no_options) ++ constant_chunk 320 0).
Proof.
  assert (H0 : session (new_SileroVAD no_options) = false
               \/ stateTensor (new_SileroVAD no_options) = None)
    by (left; reflexivity).
  assert (H1 : (frameSize
                <= length (sampleBuffer (new_SileroVAD no_options)
                           ++ constant_chunk 960 0%Q))%nat)
    by (vm_compute; repeat constructor).
  assert (H2 : (length (sampleBuffer (new_SileroVAD no_options)
                        ++ constant_chunk 320 0%Q) < frameSize)%nat)
    by (apply Nat.ltb_lt; vm_compute; reflexivity).
  split; [exact H0|]. split; [exact H1|].
  split; [exact (proj1 (process_uninitialized probe_run (constant_chunk 960 0) 0
                          (new_SileroVAD no_options) H0) H1)|].
  split; [exact H2|].
  exact (proj2 (process_uninitialized probe_run (constant_chunk 320 0) 0
                  (new_SileroVAD no_options) H0) H2).
Defined.

(** A speech and the silence that ends it, on a fresh engine. *)
Lemma events_alternate_witness :
  initialized fresh_engine
  /\ exists s' frames events,
      process_all probe_run
        (steady_stream 13 512 0.9 0.032 0 ++ steady_stream 44 512 0.1 0.032 13)
        fresh_engine
      = Some (s', frames, events)
      /\ alternating (is_speech (state fresh_engine)) (map ev_name events)
      /\ is_speech (state s')
         = xorb (is_speech (state fresh_engine)) (Nat.odd (length events)).
Proof.
  assert (Hi : initialized fresh_engine)
    by (split; [reflexivity | discriminate]).
  split; [exact Hi|].
  exact (events_alternate probe_run _ fresh_engine Hi).
Defined.

(** ** Streams that never trigger *)

Lemma sum_bounded (c : Q) (probs : list Q) :
  Forall (fun p => p <= c) probs ->
  forall acc : Q,
    fold_left Qplus probs acc <= acc + inject_Z (Z.of_nat (length probs)) * c.
Proof.
  induction 1 as [|p probs Hp _ IH]; intros acc; cbn [fold_left length].
  - change (inject_Z (Z.of_nat 0)) with 0. lra.
  - eapply Qle_trans; [apply IH|].
    rewrite Nat2Z.inj_succ, <- Z.add_1_r, inject_Z_plus.
    change (inject_Z 1) with 1. lra.
Qed.

Lemma mean_bounded (c : Q) (p : Q) (probs : list Q) :
  Forall (fun q => q <= c) (p :: probs) ->
  sum_probabilities (p :: probs) / inject_Z (Z.of_nat (length (p :: probs))) <= c.
Proof.
  intros H. pose proof (sum_bounded c (p :: probs) H 0) as Hs.
  assert (Hpos : 0 < inject_Z (Z.of_nat (length (p :: probs))))
    by (change 0 with (inject_Z 0); rewrite <- Zlt_Qlt; cbn [length]; lia).
  apply Qle_shift_div_r; [exact Hpos|].
  unfold sum_probabilities. lra.
Qed.

Lemma last_bounded (c d : Q) (probs : list Q) :
  Forall (fun q => q <= c) probs -> d <= c -> last probs d <= c.
Proof.
  induction 1 as [|p probs Hp Hall IH]; intros Hd; [exact Hd|].
  destruct probs as [|q probs]; [exact Hp|].
  change (last (q :: probs) d <= c). apply IH. exact Hd.
Qed.

Section QuietStreams.

Variable run : Float32Array -> Tensor -> Q * Tensor.

Lemma infer_bounded (c : Q) :
  (forall f t, fst (run f t) <= c) ->
  forall fs t, Forall (fun q => q <= c) (fst (infer run fs t)).
Proof.
  intros Hrun fs. induction fs as [|f fs IH]; intros t; cbn [infer fst].
  - constructor.
  - constructor; [apply Hrun | apply IH].
Qed.

(** X5.  While the model never rates a frame above the positive threshold,
    an engine in [silence] stays in [silence] and emits no event, whatever
    the chunks: the mean the state machine is stepped with does not exceed
    the threshold either. *)
Theorem quiet_stream_stays_silent
    (chunks : list (Float32Array * Q)) (s : SileroVAD) :
  initialized s -> state s = silence ->
  (forall f t, fst (run f t) <= positiveSpeechThreshold (config s)) ->
  lastProbability s <= positiveSpeechThreshold (config s) ->
  exists s' frames,
    process_all run chunks s = Some (s', frames, [])
    /\ state s' = silence.
Proof.
  revert s. induction chunks as [|[a ts] rest IH]; intros s Hi Hst Hrun Hlast.
  - exists s, []. auto.
  - destruct Hi as [Hs Ht].
    destruct (stateTensor s) as [t|] eqn:Et; [|congruence].
    destruct (process_spec run a ts s t Hs Et)
      as (fs & Hp & _ & _ & _ & Hinit).
    cbv zeta in Hp, Hinit.
    destruct (process_prepare_frame a ts s) as (_ & _ & _ & E4 & _ & M & _).
    destruct (after_frames_frame (fst (infer run fs t)) (snd (infer run fs t))
                (fst (process_prepare a ts s))) as (_ & _ & _ & M' & L).
    pose proof (infer_bounded _ Hrun fs t) as Hb.
    match type of Hp with
    | context [fst (updateVADState_step ?p ?t ?d ?s5)] =>
        set (p' := p) in *; set (d' := d) in *; set (s5' := s5) in *
    end.
    assert (Hm : same_machine s5' s).
    { subst s5'. unfold same_machine in *.
      cbn [config state speechStartTime speechEndCandidateTime
           speechStartBufferIndex potentialSpeechDurationMs
           potentialSilenceDurationMs set_sampleBuffer].
      intuition congruence. }
    destruct Hm as (Mc & Mst & _).
    assert (Hl5 : lastProbability s5' <= positiveSpeechThreshold (config s)).
    { subst s5'. cbn [lastProbability set_sampleBuffer]. rewrite L, E4.
      now apply last_bounded. }
    assert (Hp' : p' <= positiveSpeechThreshold (config s5')).
    { rewrite Mc. subst p'. unfold finalProbability.
      assert (Hlen : length (fst (infer run fs t)) = length fs).
      { clear. revert t. induction fs as [|f fs IH]; intros t; [reflexivity|].
        cbn [infer fst length]. now rewrite IH. }
      destruct fs as [|f fs]; [exact Hl5|].
      cbn [length].
      remember (fst (infer run (f :: fs) t)) as probs eqn:Ei.
      destruct probs as [|q probs]; [discriminate Hlen|].
      cbn [length] in Hlen. injection Hlen as Hlen. rewrite <- Hlen.
      apply (mean_bounded _ q probs). exact Hb. }
    assert (Hstep : updateVADState_step p' ts d' s5' = (s5', [])).
    { unfold updateVADState_step. cbv zeta. rewrite Mst, Hst.
      now rewrite (proj2 (Qgtb_false _ _) Hp'). }
    rewrite Hstep in Hp, Hinit. cbn [fst snd] in Hp, Hinit.
    destruct (IH s5' Hinit) as (s' & frames & Hall & Hfin).
    + congruence.
    + intros f t'. rewrite Mc. apply Hrun.
    + rewrite Mc. exact Hl5.
    + exists s', (fs ++ frames). cbn [process_all].
      rewrite Hp, Hall. split; [reflexivity | exact Hfin].
Qed.

End QuietStreams.

(** Ten chunks of 20 ms rated 0 by the model. *)
Lemma quiet_stream_stays_silent_witness :
  initialized fresh_engine
  /\ state fresh_engine = silence
  /\ (forall f t, fst (quiet_run f t)
                  <= positiveSpeechThreshold (config fresh_engine))
  /\ lastProbability fresh_engine
     <= positiveSpeechThreshold (config fresh_engine)
  /\ exists s' frames,
      process_all quiet_run (steady_stream 10 320 0.5 0.02 0) fresh_engine
      = Some (s', frames, [])
      /\ state s' = silence.
Proof.
  assert (H1 : initialized fresh_engine)
    by (split; [reflexivity | discriminate]).
  assert (H2 : state fresh_engine = silence) by reflexivity.
  assert (H3 : forall f t, fst (quiet_run f t)
                           <= positiveSpeechThreshold (config fresh_engine))
    by (intros f t; vm_compute; discriminate).
  assert (H4 : lastProbability fresh_engine
               <= positiveSpeechThreshold (config fresh_engine))
    by (vm_compute; discriminate).
  split; [exact H1|]. split; [exact H2|]. split; [exact H3|].
  split; [exact H4|].
  exact (quiet_stream_stays_silent quiet_run _ fresh_engine H1 H2 H3 H4).
Defined.

(** ** How much audio is kept *)

Lemma Forall_skipn_keeps {A : Type} (P : A -> Prop) (n : nat) (l : list A) :
  Forall P l -> Forall P (skipn n l).
Proof.
  revert l. induction n as [|n IH]; intros l H; [exact H|].
  destruct H as [|x l Hx Hl]; [constructor | apply IH, Hl].
Qed.

Lemma Forall_last {A : Type} (P : A -> Prop) (x : A) (l : list A) (d : A) :
  Forall P (x :: l) -> P (last (x :: l) d).
Proof.
  revert x. induction l as [|y l IH]; intros x H.
  - now inversion H.
  - change (P (last (y :: l) d)). apply IH. now inversion H.
Qed.

Lemma prePadSamples_nonneg (s : SileroVAD) :
  0 <= preSpeechPadDuration (config s) -> 0 <= prePadSamples s.
Proof.
  intros H. unfold prePadSamples.
  apply Qle_shift_div_l; [reflexivity|]. lra.
Qed.

(** X8.  When all buffered chunks have the same length [L], the cut index
    that [calculateSpeechStartBufferIndex] fixes lies within the buffer, and
    unless it keeps the whole buffer, the chunks from it to the end hold at
    least the samples of [preSpeechPadDuration] and less than one chunk more
    -- counted back from the end of the buffer, that is from the end of the
    chunk that confirms the speech. *)
Theorem prepad_coverage (s : SileroVAD) (L : nat) :
  Forall (fun c => length c = L) (audioBuffer s) ->
  (0 < L)%nat ->
  0 <= preSpeechPadDuration (config s) ->
  (0 <= calculateSpeechStartBufferIndex s
   <= Z.of_nat (length (audioBuffer s)))%Z
  /\ (calculateSpeechStartBufferIndex s = 0%Z
      \/ (prePadSamples s
          <= inject_Z (Z.of_nat (length (concat
               (skipn (Z.to_nat (calculateSpeechStartBufferIndex s))
                      (audioBuffer s)))))
          /\ inject_Z (Z.of_nat (length (concat
               (skipn (Z.to_nat (calculateSpeechStartBufferIndex s))
                      (audioBuffer s)))))
             < prePadSamples s + inject_Z (Z.of_nat L))).
Proof.
  intros Hall HL Hpad.
  pose proof (prePadSamples_nonneg s Hpad) as HP.
  unfold calculateSpeechStartBufferIndex.
  destruct (audioBuffer s) as [|c0 buf]; [cbn; split; [lia | now left]|].
  cbv beta iota zeta.
  assert (Hlast : length (last (c0 :: buf) []) = L)
    by (apply (Forall_last (fun c => length c = L)); exact Hall).
  rewrite Hlast. set (b := c0 :: buf) in *.
  destruct L as [|L']; [lia|].
  set (Ln := S L') in *.
  replace (Z.max 1 (Z.of_nat Ln)) with (Z.of_nat Ln) by lia.
  assert (HLq : 0 < inject_Z (Z.of_nat Ln))
    by (change 0 with (inject_Z 0); rewrite <- Zlt_Qlt; lia).
  set (x := prePadSamples s / inject_Z (Z.of_nat Ln)).
  assert (Hx : prePadSamples s == x * inject_Z (Z.of_nat Ln)).
  { subst x. field. intro E. rewrite E in HLq. discriminate. }
  assert (Hx0 : 0 <= x)
    by (subst x; apply Qle_shift_div_l; [exact HLq | lra]).
  pose proof (Qle_ceiling x) as Hc1. pose proof (Qceiling_lt x) as Hc2.
  set (ppf := Qceiling x) in *.
  assert (Hppf : (0 <= ppf)%Z).
  { rewrite Zle_Qle. change (inject_Z 0) with 0. lra. }
  set (len := Z.of_nat (length b)) in *.
  split; [lia|].
  destruct (Z.le_gt_cases len ppf) as [Hle|Hgt]; [left; lia|].
  right. replace (Z.max 0 (len - ppf)) with (len - ppf)%Z by lia.
  rewrite (length_concat_uniform Ln)
    by (apply Forall_skipn_keeps; exact Hall).
  rewrite length_skipn.
  replace (Z.of_nat (Ln * (length b - Z.to_nat (len - ppf))))
    with (Z.of_nat Ln * ppf)%Z by (subst len; lia).
  rewrite inject_Z_mult.
  unfold Z.sub in Hc2. rewrite inject_Z_plus in Hc2.
  change (inject_Z (- (1))) with (- (1)) in Hc2.
  split.
  - rewrite Hx.
    setoid_replace (inject_Z (Z.of_nat Ln) * inject_Z ppf)
      with (inject_Z ppf * inject_Z (Z.of_nat Ln)) by ring.
    apply Qmult_le_compat_r; [exact Hc1 | lra].
  - rewrite Hx.
    setoid_replace (x * inject_Z (Z.of_nat Ln) + inject_Z (Z.of_nat Ln))
      with ((x + 1) * inject_Z (Z.of_nat Ln)) by ring.
    setoid_replace (inject_Z (Z.of_nat Ln) * inject_Z ppf)
      with (inject_Z ppf * inject_Z (Z.of_nat Ln)) by ring.
    apply Qmult_lt_compat_r; [exact HLq | lra].
Qed.

(** The buffer of [late_speaking_engine]: 53 chunks of 512 samples, with
    12800 samples of padding wanted.  The cut index is 28, the one the
    confirmation stored, and the 25 chunks from it on hold 12800 samples. *)
Lemma prepad_coverage_witness :
  Forall (fun c => length c = 512%nat) (audioBuffer late_speaking_engine)
  /\ (0 < 512)%nat
  /\ 0 <= preSpeechPadDuration (config late_speaking_engine)
  /\ calculateSpeechStartBufferIndex late_speaking_engine = 28%Z
  /\ speechStartBufferIndex late_speaking_engine = 28%Z
  /\ Z.of_nat (length (audioBuffer late_speaking_engine)) = 53%Z
  /\ prePadSamples late_speaking_engine
     <= inject_Z (Z.of_nat (length (concat
          (skipn (Z.to_nat (calculateSpeechStartBufferIndex late_speaking_engine))
                 (audioBuffer late_speaking_engine)))))
  /\ inject_Z (Z.of_nat (length (concat
          (skipn (Z.to_nat (calculateSpeechStartBufferIndex late_speaking_engine))
                 (audioBuffer late_speaking_engine)))))
     < prePadSamples late_speaking_engine + inject_Z (Z.of_nat 512).
Proof.
  assert (H1 : Forall (fun c => length c = 512%nat)
                      (audioBuffer late_speaking_engine)).
  { assert (Hb : forallb (fun c => Nat.eqb (length c) 512)
                         (audioBuffer late_speaking_engine) = true)
      by (vm_compute; reflexivity).
    apply Forall_forall. intros c Hc. apply Nat.eqb_eq.
    exact (proj1 (forallb_forall _ _) Hb c Hc). }
  assert (H2 : (0 < 512)%nat) by (apply Nat.ltb_lt; vm_compute; reflexivity).
  assert (H3 : 0 <= preSpeechPadDuration (config late_speaking_engine))
    by (vm_compute; discriminate).
  assert (Hk : calculateSpeechStartBufferIndex late_speaking_engine = 28%Z)
    by (vm_compute; reflexivity).
  split; [exact H1|]. split; [exact H2|]. split; [exact H3|].
  split; [exact Hk|].
  split; [vm_compute; reflexivity|].
  split; [vm_compute; reflexivity|].
  destruct (proj2 (prepad_coverage late_speaking_engine 512 H1 H2 H3))
    as [H0 | Hcov].
  - rewrite Hk in H0. discriminate H0.
  - exact Hcov.
Defined.

Lemma process_prepare_config (a : Float32Array) (ts : Q) (s : SileroVAD) :
  config (fst (process_prepare a ts s)) = config s.
Proof.
  destruct (process_prepare_frame a ts s) as (_ & _ & _ & _ & _ & M & _).
  apply M.
Qed.

Lemma prePadSamples_zero (s : SileroVAD) :
  preSpeechPadDuration (config s) == 0 -> prePadSamples s == 0.
Proof. intros H. unfold prePadSamples. rewrite H. reflexivity. Qed.

(** Without pre-speech padding neither pruning removes anything:
    [slice(-0)] is the whole array. *)
Lemma process_prepare_zero_pad (a : Float32Array) (ts : Q) (s : SileroVAD) :
  preSpeechPadDuration (config s) == 0 ->
  audioBuffer (fst (process_prepare a ts s)) = audioBuffer s ++ [a].
Proof.
  intros Hz. unfold process_prepare. cbv zeta. cbn [fst].
  set (s2 := set_audioBuffer _ _).
  assert (Hz2 : prePadSamples s2 == 0) by (apply prePadSamples_zero; exact Hz).
  assert (Hb : audioBuffer s2 = audioBuffer s ++ [a]) by reflexivity.
  destruct (state s2); try exact Hb.
  unfold prune_in_silence.
  destruct (length a) as [|n] eqn:Hlen.
  - rewrite (proj2 (Qltb_false _ _)); [exact Hb|]. rewrite Hz2. apply Qle_refl.
  - assert (Hm : maxBufferFrames s2 (S n) = 0%Z).
    { unfold maxBufferFrames. cbv zeta.
      rewrite (Qceiling_comp _ 0); [reflexivity|].
      rewrite Hz2. reflexivity. }
    rewrite Hm. destruct (Qgtb _ _); [|exact Hb].
    cbn [audioBuffer set_audioBuffer]. unfold slice_from.
    cbn [Z.opp Z.ltb Z.compare]. rewrite Z.min_l by lia. exact Hb.
Qed.

Lemma endSpeech_zero_pad (ts p : Q) (s : SileroVAD) :
  preSpeechPadDuration (config s) == 0 ->
  audioBuffer (fst (endSpeech ts p s)) = audioBuffer s.
Proof.
  intros Hz. unfold endSpeech. cbv zeta.
  assert (Hm : Qceiling (prePadSamples (resetToSilence s) / 320) = 0%Z).
  { rewrite (Qceiling_comp _ 0); [reflexivity|].
    rewrite (prePadSamples_zero (resetToSilence s) Hz). reflexivity. }
  rewrite Hm. cbn [Z.mul Z.opp].
  destruct (_ >? 0)%Z; [|reflexivity].
  cbn [fst audioBuffer set_audioBuffer]. unfold slice_from.
  cbn [Z.ltb Z.compare]. rewrite Z.min_l by lia. reflexivity.
Qed.

Lemma step_zero_pad (p ts d : Q) (s : SileroVAD) :
  preSpeechPadDuration (config s) == 0 ->
  audioBuffer (fst (updateVADState_step p ts d s)) = audioBuffer s.
Proof.
  intros Hz. unfold updateVADState_step, confirmSpeechStart. cbv zeta.
  destruct (state s);
    repeat match goal with
           | |- context [endSpeech ?t ?q ?x] =>
               rewrite (endSpeech_zero_pad t q x Hz); reflexivity
           | |- context [if ?c then _ else _] => destruct c
           end;
    reflexivity.
Qed.

Section Retention.

Variable run : Float32Array -> Tensor -> Q * Tensor.

(** X9.  With [preSpeechPadDuration] set to 0 the frame buffer is never
    pruned: every call of [process] that returns leaves its chunk in the
    buffer, in [silence] and after a finalisation as well, so the buffer
    holds every chunk the engine was ever given. *)
Theorem zero_padding_keeps_everything
    (chunks : list (Float32Array * Q)) (s : SileroVAD) :
  initialized s ->
  preSpeechPadDuration (config s) == 0 ->
  exists s' frames events,
    process_all run chunks s = Some (s', frames, events)
    /\ audioBuffer s' = audioBuffer s ++ map fst chunks.
Proof.
  revert s. induction chunks as [|[a ts] rest IH]; intros s Hi Hz.
  - exists s, [], []. cbn. now rewrite app_nil_r.
  - destruct (process_roundtrip run a ts s Hi)
      as (r & s1 & fs & evs & Hp & Hi1 & _).
    destruct (process_returned_step run a ts s r s1 fs evs Hp)
      as (p & d & s5 & M & Hb & _ & _ & Hs1 & _).
    destruct (updateVADState_step_frame p ts d s5) as (_ & _ & _ & F4 & _).
    assert (Hc5 : config s5 = config s) by apply M.
    assert (Hc1 : config s1 = config s) by congruence.
    assert (Hb1 : audioBuffer s1 = audioBuffer s ++ [a]).
    { rewrite Hs1, step_zero_pad by (rewrite Hc5; exact Hz).
      rewrite Hb. now apply process_prepare_zero_pad. }
    destruct (IH s1 Hi1) as (s' & frames & events & Hall & Hbuf);
      [rewrite Hc1; exact Hz|].
    exists s', (fs ++ frames), (evs ++ events).
    cbn [process_all map fst]. rewrite Hp, Hall. split; [reflexivity|].
    rewrite Hbuf, Hb1, <- app_assoc. reflexivity.
Qed.

End Retention.

(** After a finalisation the buffer holds the most recent chunks, at most
    [ceil(prePadSamples / 320) x 2] of them. *)
Lemma endSpeech_buffer (ts p : Q) (s : SileroVAD) :
  0 < preSpeechPadDuration (config s) ->
  (Z.of_nat (length (audioBuffer (fst (endSpeech ts p s))))
   <= Qceiling (prePadSamples s / 320) * 2)%Z
  /\ exists k : nat,
      audioBuffer (fst (endSpeech ts p s)) = skipn k (audioBuffer s).
Proof.
  intros Hpad. unfold endSpeech. cbv zeta.
  change (prePadSamples (resetToSilence s)) with (prePadSamples s).
  change (audioBuffer (resetToSilence s)) with (audioBuffer s).
  set (m := (Qceiling (prePadSamples s / 320) * 2)%Z).
  assert (Hm : (0 < m)%Z).
  { subst m. pose proof (maxBufferFrames_pos s 320 Hpad) as H.
    unfold maxBufferFrames in H. cbv zeta in H.
    change (inject_Z (Z.of_nat 320)) with 320 in H. apply H.
    apply Nat.ltb_lt. vm_compute. reflexivity. }
  destruct (Z.of_nat (length (audioBuffer s)) >? m)%Z eqn:Hgt;
    cbn [fst audioBuffer set_audioBuffer].
  - split; [now apply length_slice_from_end|].
    unfold slice_from. eexists. reflexivity.
  - split; [|exists O; reflexivity].
    rewrite Z.gtb_ltb in Hgt. apply Z.ltb_ge in Hgt. exact Hgt.
Qed.

(** X10.  Both finalisations -- [flush] while speech is active and the
    silence confirmed in [potential_end] -- prune the frame buffer: under a
    positive [preSpeechPadDuration] the engine is left with the most recent
    chunks only, at most [ceil(prePadSamples / 320) x 2] of them, whatever
    the length of the chunks. *)
Theorem finalisation_prunes_buffer (s : SileroVAD) :
  0 < preSpeechPadDuration (config s) ->
  (forall ts : option Q,
      is_speech (state s) = true ->
      (Z.of_nat (length (audioBuffer (fst (flush ts s))))
       <= Qceiling (prePadSamples s / 320) * 2)%Z
      /\ exists k : nat,
          audioBuffer (fst (flush ts s)) = skipn k (audioBuffer s))
  /\ (forall p ts d : Q,
        state s = potential_end ->
        p < negativeSpeechThreshold (config s) ->
        silenceDuration (config s)
          <= potentialSilenceDurationMs s + step_duration d ->
        (Z.of_nat (length (audioBuffer (fst (updateVADState_step p ts d s))))
         <= Qceiling (prePadSamples s / 320) * 2)%Z
        /\ exists k : nat,
            audioBuffer (fst (updateVADState_step p ts d s))
            = skipn k (audioBuffer s)).
Proof.
  intros Hpad. split.
  - intros ts Hsp. unfold flush.
    destruct (state s); try discriminate; apply endSpeech_buffer; exact Hpad.
  - intros p ts d Hst Hp Hd.
    apply Qltb_true in Hp. apply Qgeb_true in Hd.
    unfold updateVADState_step. rewrite Hst, Hp.
    cbn [potentialSilenceDurationMs set_potentialSilenceDurationMs
         config silenceDuration].
    rewrite Hd. cbv zeta.
    apply (endSpeech_buffer _ p
             (set_potentialSilenceDurationMs
                (potentialSilenceDurationMs s + step_duration d) s)).
    exact Hpad.
Qed.

(** The flush of a speech in progress and the 44th frame of silence. *)
Lemma finalisation_prunes_buffer_witness :
  0 < preSpeechPadDuration (config ending_engine)
  /\ is_speech (state ending_engine) = true
  /\ (Z.of_nat (length (audioBuffer (fst (flush None ending_engine))))
      <= Qceiling (prePadSamples ending_engine / 320) * 2)%Z
  /\ state ending_engine = potential_end
  /\ 0.1 < negativeSpeechThreshold (config ending_engine)
  /\ silenceDuration (config ending_engine)
     <= potentialSilenceDurationMs ending_engine + step_duration 32
  /\ (Z.of_nat (length (audioBuffer
                          (fst (updateVADState_step 0.1 1.792 32 ending_engine))))
      <= Qceiling (prePadSamples ending_engine / 320) * 2)%Z.
Proof.
  assert (H0 : 0 < preSpeechPadDuration (config ending_engine))
    by (vm_compute; reflexivity).
  assert (H1 : is_speech (state ending_engine) = true)
    by (vm_compute; reflexivity).
  assert (H2 : state ending_engine = potential_end)
    by (vm_compute; reflexivity).
  assert (H3 : 0.1 < negativeSpeechThreshold (config ending_engine))
    by (vm_compute; reflexivity).
  assert (H4 : silenceDuration (config ending_engine)
               <= potentialSilenceDurationMs ending_engine + step_duration 32)
    by (vm_compute; discriminate).
  pose proof (finalisation_prunes_buffer ending_engine H0) as [Hf Hs].
  split; [exact H0|]. split; [exact H1|].
  split; [exact (proj1 (Hf None H1))|].
  split; [exact H2|]. split; [exact H3|]. split; [exact H4|].
  exact (proj1 (Hs 0.1 1.792 32 H2 H3 H4)).
Defined.

(** An engine built without pre-speech padding. *)
Lemma zero_padding_keeps_everything_witness :
  initialized
    (initialize (new_SileroVAD
                   (mkPartial None None None None (Some 0) None None)))
  /\ preSpeechPadDuration
       (config (initialize
                  (new_SileroVAD
                     (mkPartial None None None None (Some 0) None None))))
     == 0
  /\ exists s' frames events,
      process_all probe_run (steady_stream 5 320 0 0.02 0)
        (initialize (new_SileroVAD
                       (mkPartial None None None None (Some 0) None None)))
      = Some (s', frames, events)
      /\ audioBuffer s'
         = audioBuffer
             (initialize (new_SileroVAD
                            (mkPartial None None None None (Some 0) None None)))
           ++ map fst (steady_stream 5 320 0 0.02 0).
Proof.
  assert (H1 : initialized
                 (initialize (new_SileroVAD
                    (mkPartial None None None None (Some 0) None None))))
    by (split; [reflexivity | discriminate]).
  assert (H2 : preSpeechPadDuration
                 (config (initialize
                    (new_SileroVAD
                       (mkPartial None None None None (Some 0) None None))))
               == 0) by reflexivity.
  split; [exact H1|]. split; [exact H2|].
  exact (zero_padding_keeps_everything probe_run _ _ H1 H2).
Defined.

(** ** How the methods compose *)

Lemma flush_state (ts : option Q) (s : SileroVAD) :
  state (fst (flush ts s)) = silence.
Proof.
  unfold flush. destruct (state s) eqn:Hst; cbn [fst];
    try exact Hst; try reflexivity;
    apply (proj1 (endSpeech_spec _ _ _)).
Qed.

(** X11.  [flush] always leaves the engine in [silence], so a second [flush]
    right after it changes nothing and emits nothing: a segment is never
    finalised twice. *)
Theorem flush_twice (ts1 ts2 : option Q) (s : SileroVAD) :
  state (fst (flush ts1 s)) = silence
  /\ flush ts2 (fst (flush ts1 s)) = (fst (flush ts1 s), []).
Proof.
  split; [apply flush_state|].
  unfold flush at 1. rewrite flush_state. reflexivity.
Qed.

Lemma close_fields (s : SileroVAD) :
  session (fst (close s)) = false
  /\ stateTensor (fst (close s)) = None
  /\ state (fst (close s)) = silence
  /\ sampleBuffer (fst (close s)) = sampleBuffer s
  /\ snd (close s) = snd (flush None s).
Proof.
  unfold close. cbv zeta. cbn [fst snd session stateTensor state sampleBuffer].
  repeat split; try reflexivity; [apply flush_state|].
  unfold flush. destruct (state s); try reflexivity;
    unfold endSpeech; cbv zeta;
    match goal with |- context [if ?c then _ else _] => destruct c end;
    reflexivity.
Qed.

Section Closing.

Variable run : Float32Array -> Tensor -> Q * Tensor.

(** X12.  [close] emits what [flush] emits and leaves an engine in
    [silence] on which every call of [process] that completes a frame throws.
    [reset] does not revive it -- it restores the recurrent state but not the
    session, and a call that completes a frame still throws -- whereas
    [initialize] does. *)
Theorem closed_engine_throws (s : SileroVAD) (a : Float32Array) (ts : Q) :
  snd (close s) = snd (flush None s)
  /\ state (fst (close s)) = silence
  /\ ((frameSize <= length (sampleBuffer s ++ a))%nat ->
      exists s', process run a ts (fst (close s)) = Threw s' [])
  /\ ((frameSize <= length a)%nat ->
      exists s', process run a ts (reset (fst (close s))) = Threw s' [])
  /\ initialized (initialize (fst (close s))).
Proof.
  destruct (close_fields s) as (Hs & Ht & Hst & Hsb & Hev).
  split; [exact Hev|]. split; [exact Hst|]. split; [|split].
  - intros Hlen.
    destruct (process_uninitialized run a ts (fst (close s)) (or_introl Hs))
      as [Hthrow _].
    rewrite Hsb in Hthrow. destruct (Hthrow Hlen) as (s' & Hp & _).
    exists s'. exact Hp.
  - intros Hlen.
    assert (Hs' : session (reset (fst (close s))) = false)
      by (rewrite reset_fields; exact Hs).
    destruct (process_uninitialized run a ts (reset (fst (close s)))
                (or_introl Hs')) as [Hthrow _].
    rewrite reset_fields in Hthrow.
    cbn [sampleBuffer app] in Hthrow.
    destruct (Hthrow Hlen) as (s' & Hp & _).
    exists s'. rewrite reset_fields. exact Hp.
  - split; [reflexivity | discriminate].
Qed.

End Closing.

(** A closed engine given a chunk of 60 ms. *)
Lemma closed_engine_throws_witness :
  (frameSize <= length (sampleBuffer speaking_engine ++ constant_chunk 960 0%Q))%nat
  /\ (exists s',
        process probe_run (constant_chunk 960 0) 0.5 (fst (close speaking_engine))
        = Threw s' [])
  /\ (frameSize <= length (constant_chunk 960 0%Q))%nat
  /\ (exists s',
        process probe_run (constant_chunk 960 0) 0.5
          (reset (fst (close speaking_engine)))
        = Threw s' []).
Proof.
  assert (H1 : (frameSize
                <= length (sampleBuffer speaking_engine
                           ++ constant_chunk 960 0%Q))%nat)
    by (apply Nat.leb_le; vm_compute; reflexivity).
  assert (H2 : (frameSize <= length (constant_chunk 960 0%Q))%nat)
    by (apply Nat.leb_le; vm_compute; reflexivity).
  pose proof (closed_engine_throws probe_run speaking_engine
                (constant_chunk 960 0) 0.5) as (_ & _ & Ha & Hb & _).
  split; [exact H1|]. split; [exact (Ha H1)|]. split; [exact H2|].
  exact (Hb H2).
Defined.

Lemma default_config_all_options (c : SileroVADConfig) :
  default_config (all_options c) = c.
Proof. destruct c; reflexivity. Qed.

(** X13.  Two configuration updates in a row amount to one update with the
    second object laid over the first; an update without keys, and an update
    that repeats the stored configuration, change nothing. *)
Theorem updateConfig_composes (c1 c2 : PartialConfig) (s : SileroVAD) :
  updateConfig c2 (updateConfig c1 s) = updateConfig (overlay c1 c2) s
  /\ updateConfig no_options s = s
  /\ updateConfig (all_options (config s)) s = s.
Proof.
  destruct s as [se cfg st te ab t1 t2 ix d1 d2 sb lp lt].
  destruct cfg, c1 as [a1 a2 a3 a4 a5 a6 a7], c2 as [b1 b2 b3 b4 b5 b6 b7].
  split; [|split; reflexivity].
  destruct b1, b2, b3, b4, b5, b6, b7; reflexivity.
Qed.

(** X14.  On an engine whose session is loaded, [reset] gives exactly the
    engine that construction under the same configuration followed by
    [initialize] gives: nothing of what the engine has processed survives a
    reset, and it handles every later chunk as a new engine would. *)
Theorem reset_is_fresh (s : SileroVAD) :
  session s = true ->
  reset s = initialize (new_SileroVAD (all_options (config s))).
Proof.
  intros Hs. rewrite reset_fields, Hs.
  unfold initialize, resetStates, new_SileroVAD.
  cbn [set_stateTensor session config state audioBuffer speechStartTime
       speechEndCandidateTime speechStartBufferIndex potentialSpeechDurationMs
       potentialSilenceDurationMs sampleBuffer lastProbability lastTimestamp].
  now rewrite default_config_all_options.
Qed.

(** The reset of an engine in the middle of a speech. *)
Lemma reset_is_fresh_witness :
  session speaking_engine = true
  /\ reset speaking_engine
     = initialize (new_SileroVAD (all_options (config speaking_engine))).
Proof.
  assert (H : session speaking_engine = true) by (vm_compute; reflexivity).
  split; [exact H | exact (reset_is_fresh speaking_engine H)].
Defined.

(** ** [flush] without a timestamp *)

Lemma endSpeech_candidate (ts p : Q) (s : SileroVAD) :
  speechEndCandidateTime (fst (endSpeech ts p s)) = 0.
Proof.
  unfold endSpeech. cbv zeta.
  match goal with |- context [if ?c then _ else _] => destruct c end;
    reflexivity.
Qed.

Lemma step_no_candidate (p ts d : Q) (s : SileroVAD) :
  no_candidate s -> no_candidate (fst (updateVADState_step p ts d s)).
Proof.
  unfold no_candidate. intros Hs. unfold updateVADState_step. cbv zeta.
  destruct (state s) eqn:Hst;
    repeat match goal with
           | |- context [endSpeech ?t ?q ?x] =>
               rewrite (endSpeech_candidate t q x); reflexivity
           | |- context [if ?c then _ else _] => destruct c
           end;
    cbn; intros H; try reflexivity; try congruence;
    apply Hs; congruence.
Qed.

Section FlushWithoutTimestamp.

Variable run : Float32Array -> Tensor -> Q * Tensor.

Lemma reachable_no_candidate (s : SileroVAD) :
  reachable run s -> no_candidate s.
Proof.
  induction 1 as [c | s _ IH | s a ts _ IH | s ts _ IH | s _ IH | s c _ IH].
  - intros _. reflexivity.
  - exact IH.
  - unfold process.
    destruct (process_prepare_frame a ts s) as (_ & _ & _ & _ & _ & M & _).
    destruct (process_prepare a ts s) as [s3 combined]. cbn [fst] in M.
    pose proof (frame_loop_machine run (S (length combined)) combined s3 [] 0 0 0)
      as Hl.
    destruct (frame_loop _ _ _ _ _ _ _ _) as [s4 fr | s4 fr off tp fc];
      cbn [loop_engine] in Hl.
    + cbn [outcome_engine]. unfold no_candidate, same_machine in *.
      destruct Hl as (_ & L1 & _ & L2 & _). destruct M as (_ & M1 & _ & M2 & _).
      intros H1. rewrite L2, M2. apply IH. congruence.
    + unfold updateVADState.
      match goal with
      | |- context [updateVADState_step ?q ?t ?d ?x] =>
          pose proof (step_no_candidate q t d x) as Hstep;
          destruct (updateVADState_step q t d x) as [s6 events]
      end.
      cbn [outcome_engine fst] in *. apply Hstep.
      unfold no_candidate, same_machine in *.
      cbn [state speechEndCandidateTime set_sampleBuffer].
      destruct Hl as (_ & L1 & _ & L2 & _). destruct M as (_ & M1 & _ & M2 & _).
      intros H1. rewrite L2, M2. apply IH. congruence.
  - unfold flush. destruct (state s) eqn:Hst; cbn [fst]; try exact IH.
    + intros _. reflexivity.
    + intros _. apply endSpeech_candidate.
    + intros _. apply endSpeech_candidate.
  - rewrite reset_fields. intros _. reflexivity.
  - exact IH.
Qed.

Lemma process_all_reachable (chunks : list (Float32Array * Q)) :
  forall (s s' : SileroVAD) (frames : list Float32Array) (events : list Emitted),
    reachable run s ->
    process_all run chunks s = Some (s', frames, events) ->
    reachable run s'.
Proof.
  induction chunks as [|[a ts] rest IH]; intros s s' frames events Hs Hp;
    cbn [process_all] in Hp.
  - congruence.
  - pose proof (reach_process run s a ts Hs) as Hr.
    destruct (process run a ts s) as [r s1 fs evs | s1 fs]; [|discriminate].
    cbn [outcome_engine] in Hr.
    destruct (process_all run rest s1) as [[[s2 fs2] evs2]|] eqn:E;
      [|discriminate].
    assert (s2 = s') by congruence. subst s2.
    exact (IH s1 s' fs2 evs2 Hr E).
Qed.

(** X7.  [flush] called without a timestamp while the engine is in
    [speaking] ends the speech at time 0: outside [potential_end] the
    candidate for the end, which the engine uses before the last timestamp,
    is the number 0.  For a speech that started at a time that is not
    negative, with a positive [minSpeechDuration], the speech-end event then
    has the timestamp 0 and no segment, and the engine is left in
    [silence]. *)
Theorem flush_without_timestamp (s : SileroVAD) :
  reachable run s ->
  state s = speaking ->
  0 <= speechStartTime s ->
  0 < minSpeechDuration (config s) ->
  snd (flush None s)
  = [mkEmitted "speech-end" (mkEventData false (lastProbability s) 0 None)]
  /\ state (fst (flush None s)) = silence.
Proof.
  intros Hr Hst Hstart Hmin.
  assert (Hc : speechEndCandidateTime s = 0)
    by (apply (reachable_no_candidate s Hr); congruence).
  unfold flush. rewrite Hst, Hc.
  destruct (endSpeech_spec 0 (lastProbability s) s) as [E1 E2].
  split; [|exact E1].
  rewrite E2.
  destruct (Qgeb ((0 - speechStartTime s) * 1000) (minSpeechDuration (config s)))
    eqn:E; [|reflexivity].
  apply Qgeb_true in E. lra.
Qed.

End FlushWithoutTimestamp.

(** The engine after thirteen frames of speech, flushed without a
    timestamp. *)
Lemma flush_without_timestamp_witness :
  reachable probe_run speaking_engine
  /\ state speaking_engine = speaking
  /\ 0 <= speechStartTime speaking_engine
  /\ 0 < minSpeechDuration (config speaking_engine)
  /\ snd (flush None speaking_engine)
     = [mkEmitted "speech-end"
          (mkEventData false (lastProbability speaking_engine) 0 None)].
Proof.
  assert (Hr : reachable probe_run speaking_engine).
  { unfold speaking_engine, engine_after.
    destruct (process_all probe_run (steady_stream 13 512 0.9 0.032 0)
                          fresh_engine) as [[[s' fs] evs]|] eqn:E.
    - apply (process_all_reachable probe_run
               (steady_stream 13 512 0.9 0.032 0) fresh_engine s' fs evs);
        [apply reach_initialize, reach_new | exact E].
    - apply reach_initialize, reach_new. }
  assert (Hst : state speaking_engine = speaking) by (vm_compute; reflexivity).
  assert (H0 : 0 <= speechStartTime speaking_engine)
    by (vm_compute; discriminate).
  assert (Hm : 0 < minSpeechDuration (config speaking_engine))
    by (vm_compute; reflexivity).
  split; [exact Hr|]. split; [exact Hst|]. split; [exact H0|].
  split; [exact Hm|].
  exact (proj1 (flush_without_timestamp probe_run speaking_engine Hr Hst H0 Hm)).
Defined.

(** * The event emitter *)

Module EventEmitterFacts.
Import EventEmitter.

Lemma map_get_replace (ev ev' : string) (set : list Listener)
    (m : list (string * list Listener)) :
  map_get ev' (map_replace ev set m)
  = if String.eqb ev ev'
    then match map_get ev' m with Some _ => Some set | None => None end
    else map_get ev' m.
Proof.
  unfold map_get, map_replace.
  induction m as [|[k v] m IH]; cbn [map find fst snd].
  - destruct (String.eqb ev ev'); reflexivity.
  - destruct (String.eqb ev k) eqn:Ek; cbn [fst snd].
    + apply String.eqb_eq in Ek. subst k.
      destruct (String.eqb ev' ev) eqn:E1.
      * apply String.eqb_eq in E1. subst ev'.
        now rewrite String.eqb_refl.
      * exact IH.
    + destruct (String.eqb ev' k) eqn:E1; [|exact IH].
      apply String.eqb_eq in E1. subst k.
      cbn [snd]. now rewrite Ek.
Qed.

Lemma map_get_app (ev ev' : string) (set : list Listener)
    (m : list (string * list Listener)) :
  map_get ev' (m ++ [(ev, set)])
  = match map_get ev' m with
    | Some x => Some x
    | None => if String.eqb ev' ev then Some set else None
    end.
Proof.
  unfold map_get.
  induction m as [|[k v] m IH]; cbn [app find fst snd].
  - destruct (String.eqb ev' ev); reflexivity.
  - destruct (String.eqb ev' k); [reflexivity | exact IH].
Qed.

Lemma map_get_delete (ev ev' : string) (m : list (string * list Listener)) :
  map_get ev' (map_delete ev m)
  = if String.eqb ev ev' then None else map_get ev' m.
Proof.
  unfold map_get, map_delete.
  induction m as [|[k v] m IH]; cbn [filter find fst snd].
  - destruct (String.eqb ev ev'); reflexivity.
  - destruct (String.eqb ev k) eqn:Ek; cbn [negb find fst snd].
    + apply String.eqb_eq in Ek. subst k.
      destruct (String.eqb ev' ev) eqn:E1; [|exact IH].
      apply String.eqb_eq in E1. subst ev'.
      rewrite String.eqb_refl in IH. now rewrite String.eqb_refl.
    + destruct (String.eqb ev' k) eqn:E1; [|exact IH].
      apply String.eqb_eq in E1. subst k. now rewrite Ek.
Qed.

Lemma handlers_add (ev ev' : string) (l : Listener) (e : t) :
  handlers ev' (add_listener ev l e)
  = if String.eqb ev ev' then set_add l (handlers ev' e) else handlers ev' e.
Proof.
  unfold handlers, add_listener, getHandlers.
  destruct (String.eqb ev ev') eqn:E.
  - apply String.eqb_eq in E. subst ev'.
    destruct (map_get ev (listeners e)) as [set|] eqn:Hg; cbn [listeners].
    + now rewrite map_get_replace, String.eqb_refl, Hg.
    + now rewrite map_get_app, Hg, String.eqb_refl.
  - destruct (map_get ev (listeners e)) as [set|] eqn:Hg; cbn [listeners].
    + now rewrite map_get_replace, E.
    + rewrite map_get_app. rewrite String.eqb_sym, E.
      destruct (map_get ev' (listeners e)); reflexivity.
Qed.

Lemma handlers_delete (ev ev' : string) (l : Listener) (e : t) :
  handlers ev' (delete_listener ev l e)
  = if String.eqb ev ev' then set_delete l (handlers ev' e) else handlers ev' e.
Proof.
  unfold handlers, delete_listener, getHandlers.
  destruct (String.eqb ev ev') eqn:E.
  - apply String.eqb_eq in E. subst ev'.
    destruct (map_get ev (listeners e)) as [set|] eqn:Hg; cbn [listeners].
    + now rewrite map_get_replace, String.eqb_refl, Hg.
    + now rewrite Hg.
  - destruct (map_get ev (listeners e)) as [set|] eqn:Hg; cbn [listeners];
      [|reflexivity].
    now rewrite map_get_replace, E.
Qed.

Lemma allocated_add (ev : string) (l : Listener) (e : t) :
  allocated (add_listener ev l e) = allocated e.
Proof. unfold add_listener. destruct (getHandlers ev e); reflexivity. Qed.

Lemma allocated_delete (ev : string) (l : Listener) (e : t) :
  allocated (delete_listener ev l e) = allocated e.
Proof. unfold delete_listener. destruct (getHandlers ev e); reflexivity. Qed.

Lemma listenerCount_handlers (ev : string) (e : t) :
  listenerCount ev e = length (handlers ev e).
Proof.
  unfold listenerCount, handlers. destruct (getHandlers ev e); reflexivity.
Qed.

Lemma same_refl (l : Listener) : same l l = true.
Proof. destruct l; cbn; apply Nat.eqb_refl. Qed.

Lemma same_sym (a b : Listener) : same a b = same b a.
Proof. destruct a, b; cbn; try reflexivity; apply Nat.eqb_sym. Qed.

Lemma existsb_same_app (l : Listener) (a b : list Listener) :
  existsb (same l) (a ++ b) = existsb (same l) a || existsb (same l) b.
Proof. apply existsb_app. Qed.

Lemma set_delete_absent (l : Listener) (set : list Listener) :
  existsb (same l) set = false -> set_delete l set = set.
Proof.
  unfold set_delete. induction set as [|x set IH]; cbn [existsb filter];
    [reflexivity|].
  intros H. apply orb_false_iff in H. destruct H as [Hx Hs].
  rewrite Hx. cbn [negb]. now rewrite IH.
Qed.

Lemma set_delete_app (l : Listener) (a b : list Listener) :
  set_delete l (a ++ b) = set_delete l a ++ set_delete l b.
Proof. unfold set_delete. apply filter_app. Qed.

Lemma existsb_same_filter (f : Listener -> bool) (l : Listener)
    (set : list Listener) :
  existsb (same l) set = false -> existsb (same l) (filter f set) = false.
Proof.
  induction set as [|x set IH]; cbn [existsb filter]; [reflexivity|].
  intros H. apply orb_false_iff in H. destruct H as [Hx Hs].
  destruct (f x); cbn [existsb]; rewrite ?Hx; now apply IH.
Qed.

Lemma unique_filter (f : Listener -> bool) (set : list Listener) :
  unique set -> unique (filter f set).
Proof.
  induction set as [|x set IH]; cbn [unique filter]; [trivial|].
  intros [Hx Hs]. destruct (f x); cbn [unique]; [split|]; auto.
  now apply existsb_same_filter.
Qed.

Lemma unique_app (a b : list Listener) :
  unique (a ++ b)
  <-> unique a /\ unique b
      /\ forall x, In x a -> existsb (same x) b = false.
Proof.
  induction a as [|y a IH]; cbn [app unique].
  - split; [intros H; repeat split; [exact H | intros x []] | tauto].
  - rewrite existsb_same_app, orb_false_iff, IH. split.
    + intros ((H1 & H2) & H3 & H4 & H5). repeat split; auto.
      intros x [<-|Hx]; auto.
    + intros ((H1 & H2) & H3 & H4). repeat split; auto.
      * apply H4. now left.
      * intros x Hx. apply H4. now right.
Qed.

Lemma created_before_filter (f : Listener -> bool) (n : nat)
    (set : list Listener) :
  created_before n set -> created_before n (filter f set).
Proof.
  unfold created_before. rewrite !Forall_forall.
  intros H x Hx. apply filter_In in Hx. apply H, Hx.
Qed.

Lemma created_before_mono (n m : nat) (set : list Listener) :
  (n <= m)%nat -> created_before n set -> created_before m set.
Proof.
  unfold created_before. intros Hnm H.
  eapply Forall_impl; [|exact H]. intros [fn|w fn]; [trivial | lia].
Qed.

(** A wrapper that is yet to be created is in no set. *)
Lemma fresh_wrapper_absent (n w fn : nat) (set : list Listener) :
  created_before n set -> (n <= w)%nat ->
  existsb (same (OnceWrapper w fn)) set = false.
Proof.
  unfold created_before. induction 1 as [|x set Hx _ IH]; intros Hw;
    cbn [existsb]; [reflexivity|].
  rewrite IH by exact Hw. rewrite orb_false_r.
  destruct x as [g|v g]; cbn [same]; [reflexivity|].
  apply Nat.eqb_neq. lia.
Qed.

Lemma unique_set_add (l : Listener) (set : list Listener) :
  unique set -> unique (set_add l set).
Proof.
  intros Hu. unfold set_add.
  destruct (existsb (same l) set) eqn:Hex; [exact Hu|].
  apply unique_app. repeat split; cbn [unique existsb]; auto.
  intros x Hx. rewrite orb_false_r.
  rewrite same_sym.
  destruct (same l x) eqn:E; [|reflexivity].
  assert (existsb (same l) set = true)
    by (apply existsb_exists; exists x; auto).
  congruence.
Qed.

Lemma handlers_once (ev ev' : string) (fn : nat) (e : t) :
  handlers ev' (once ev fn e)
  = if String.eqb ev ev'
    then set_add (OnceWrapper (allocated e) fn) (handlers ev' e)
    else handlers ev' e.
Proof. unfold once. rewrite handlers_add. reflexivity. Qed.

Section Emitting.

Variable Payload : Type.
Variable throws : nat -> Payload -> bool.

Lemma fold_calls (ev : string) (data : Payload) (set : list Listener) :
  forall (e : t) (calls : list (nat * Payload)),
    snd (fold_left (call_listener Payload throws ev data) set (e, calls))
    = calls ++ map (fun l => (callee l, data)) set.
Proof.
  induction set as [|l set IH]; intros e calls; cbn [fold_left map].
  - now rewrite app_nil_r.
  - unfold call_listener at 2.
    destruct l as [fn|w fn]; [|destruct (throws fn data)];
      rewrite IH, <- app_assoc; reflexivity.
Qed.

(** X15.  [emit] calls every listener registered for the event exactly
    once, in the order of registration, with the payload, whether or not
    listeners called before it throw; with no listener for the event it calls
    nothing. *)
Theorem emit_calls_every_listener (ev : string) (data : Payload) (e : t) :
  snd (emit Payload throws ev data e)
  = map (fun l => (callee l, data)) (handlers ev e).
Proof.
  unfold emit, handlers. destruct (getHandlers ev e) as [set|]; [|reflexivity].
  apply (fold_calls ev data set e []).
Qed.

Lemma fold_handlers (ev : string) (data : Payload) (suf : list Listener) :
  forall (kept : list Listener) (e : t) (calls : list (nat * Payload)),
    handlers ev e = kept ++ suf -> unique (kept ++ suf) ->
    let e' := fst (fold_left (call_listener Payload throws ev data) suf
                             (e, calls)) in
    handlers ev e' = kept ++ filter (stays Payload throws data) suf
    /\ (forall ev', ev' <> ev -> handlers ev' e' = handlers ev' e)
    /\ allocated e' = allocated e.
Proof.
  induction suf as [|l suf IH]; intros kept e calls Hh Hu; cbn [fold_left filter].
  - cbn. auto.
  - assert (Hstep : forall c,
               handlers ev e = (kept ++ [l]) ++ suf -> unique ((kept ++ [l]) ++ suf) ->
               let e' := fst (fold_left (call_listener Payload throws ev data) suf
                                        (e, c)) in
               handlers ev e' = kept ++ l :: filter (stays Payload throws data) suf
               /\ (forall ev', ev' <> ev -> handlers ev' e' = handlers ev' e)
               /\ allocated e' = allocated e).
    { intros c H1 H2. destruct (IH (kept ++ [l]) e c H1 H2) as (A & B & C).
      cbv zeta. rewrite A, <- app_assoc. auto. }
    assert (Hh' : handlers ev e = (kept ++ [l]) ++ suf)
      by (now rewrite <- app_assoc).
    assert (Hu' : unique ((kept ++ [l]) ++ suf))
      by (now rewrite <- app_assoc).
    destruct l as [fn|w fn]; cbn [stays].
    + change (call_listener Payload throws ev data (e, calls) (Client fn))
        with (e, calls ++ [(fn, data)]).
      apply Hstep; assumption.
    + change (call_listener Payload throws ev data (e, calls) (OnceWrapper w fn))
        with (if throws fn data then (e, calls ++ [(fn, data)])
              else (delete_listener ev (OnceWrapper w fn) e,
                    calls ++ [(fn, data)])).
      destruct (throws fn data) eqn:Ht; [apply Hstep; assumption|].
      apply unique_app in Hu. destruct Hu as (Uk & Us & Ux).
      cbn [unique] in Us. destruct Us as [Ul Us].
      assert (Hd : handlers ev (delete_listener ev (OnceWrapper w fn) e)
                   = kept ++ suf).
      { rewrite handlers_delete, String.eqb_refl, Hh, set_delete_app.
        rewrite (set_delete_absent _ kept).
        - unfold set_delete at 1. cbn [filter]. rewrite same_refl. cbn [negb].
          change (filter (fun x => negb (same (OnceWrapper w fn) x)) suf)
            with (set_delete (OnceWrapper w fn) suf).
          now rewrite (set_delete_absent _ suf).
        - destruct (existsb (same (OnceWrapper w fn)) kept) eqn:E;
            [|reflexivity].
          apply existsb_exists in E. destruct E as (x & Hx & Hsx).
          specialize (Ux x Hx). cbn [existsb] in Ux.
          rewrite same_sym, Hsx in Ux. discriminate. }
      assert (Hu2 : unique (kept ++ suf)).
      { apply unique_app. repeat split; auto.
        intros x Hx. specialize (Ux x Hx). cbn [existsb] in Ux.
        now apply orb_false_iff in Ux. }
      destruct (IH kept (delete_listener ev (OnceWrapper w fn) e)
                  (calls ++ [(fn, data)]) Hd Hu2) as (A & B & C).
      cbv zeta. split; [exact A|]. split.
      * intros ev' Hne. rewrite B by exact Hne.
        rewrite handlers_delete.
        destruct (String.eqb ev ev') eqn:E; [|reflexivity].
        apply String.eqb_eq in E. congruence.
      * rewrite C. apply allocated_delete.
Qed.

(** X16.  After [emit], the listeners registered with [on] are all still
    registered, in their order; a listener registered with [once] is gone if
    its function returned, and is still registered -- to be called again by
    the next [emit] -- if its function threw.  The listeners of other events
    are untouched. *)
Theorem emit_removes_once_listeners (ev : string) (data : Payload) (e : t) :
  unique (handlers ev e) ->
  handlers ev (fst (emit Payload throws ev data e))
  = filter (stays Payload throws data) (handlers ev e)
  /\ forall ev', ev' <> ev ->
       handlers ev' (fst (emit Payload throws ev data e)) = handlers ev' e.
Proof.
  intros Hu. unfold emit.
  destruct (getHandlers ev e) as [set|] eqn:Hg.
  - assert (Hh : handlers ev e = [] ++ set)
      by (unfold handlers; now rewrite Hg).
    rewrite Hh in Hu.
    destruct (fold_handlers ev data set [] e [] Hh Hu) as (A & B & _).
    cbv zeta in A, B. split; [rewrite A, Hh; reflexivity | exact B].
  - cbn [fst]. unfold handlers. rewrite Hg.
    split; [reflexivity | intros; reflexivity].
Qed.

Lemma emit_allocated (ev : string) (data : Payload) (e : t) :
  unique (handlers ev e) ->
  allocated (fst (emit Payload throws ev data e)) = allocated e.
Proof.
  intros Hu. unfold emit.
  destruct (getHandlers ev e) as [set|] eqn:Hg; [|reflexivity].
  assert (Hh : handlers ev e = [] ++ set)
    by (unfold handlers; now rewrite Hg).
  rewrite Hh in Hu.
  now destruct (fold_handlers ev data set [] e [] Hh Hu) as (_ & _ & C).
Qed.

End Emitting.

Lemma handlers_removeAllListeners (event : option string) (ev' : string) (e : t) :
  handlers ev' (removeAllListeners event e)
  = match event with
    | Some name =>
        if String.eqb name "" then []
        else if String.eqb name ev' then [] else handlers ev' e
    | None => []
    end.
Proof.
  unfold handlers, removeAllListeners, getHandlers.
  destruct event as [name|]; [|reflexivity].
  destruct (String.eqb name ""); [reflexivity|].
  cbn [listeners]. rewrite map_get_delete.
  destruct (String.eqb name ev'); reflexivity.
Qed.

Lemma created_before_set_add (n : nat) (l : Listener) (set : list Listener) :
  created_before n set ->
  match l with Client _ => True | OnceWrapper w _ => (w < n)%nat end ->
  created_before n (set_add l set).
Proof.
  intros Hs Hl. unfold set_add. destruct (existsb (same l) set); [exact Hs|].
  unfold created_before in *. apply Forall_app. split; [exact Hs|].
  constructor; [exact Hl | constructor].
Qed.

Lemma wf_empty : wf empty.
Proof. intros ev. split; [exact I | constructor]. Qed.

(** X17.  The emitter keeps its listener sets proper whatever a client
    does: starting from an emitter without listeners, after any number of
    calls of [on], [off], [once], [emit] and [removeAllListeners] no set
    holds a function twice -- so no [emit] calls a registration twice -- and
    every wrapper made by [once] is distinct from the ones made later. *)
Theorem wf_preserved (Payload : Type) (throws : nat -> Payload -> bool) :
  wf empty
  /\ forall e : t,
      wf e ->
      (forall ev fn, wf (on ev fn e) /\ wf (off ev fn e) /\ wf (once ev fn e))
      /\ (forall ev data, wf (fst (emit Payload throws ev data e)))
      /\ (forall event, wf (removeAllListeners event e)).
Proof.
  split.
  - exact wf_empty.
  - intros e He. split; [|split].
    + intros ev fn. split; [|split]; intros ev'; destruct (He ev') as [Hu Hc].
      * unfold on. rewrite handlers_add, allocated_add.
        destruct (String.eqb ev ev'); [|auto].
        split; [now apply unique_set_add | now apply created_before_set_add].
      * unfold off. rewrite handlers_delete, allocated_delete.
        destruct (String.eqb ev ev'); [|auto].
        split; [now apply unique_filter | now apply created_before_filter].
      * rewrite handlers_once. unfold once. rewrite allocated_add.
        cbn [allocated].
        assert (Hc' : created_before (S (allocated e)) (handlers ev' e))
          by (eapply created_before_mono; [|exact Hc]; lia).
        destruct (String.eqb ev ev'); [|auto].
        split; [now apply unique_set_add|].
        apply created_before_set_add; [exact Hc' | lia].
    + intros ev data ev'. destruct (He ev) as [Hu _]. destruct (He ev') as [Hu' Hc'].
      destruct (emit_removes_once_listeners Payload throws ev data e Hu)
        as [A B].
      rewrite (emit_allocated Payload throws ev data e Hu).
      destruct (String.eqb ev' ev) eqn:E.
      * apply String.eqb_eq in E. subst ev'. rewrite A.
        split; [now apply unique_filter | now apply created_before_filter].
      * apply String.eqb_neq in E. rewrite (B ev' E). auto.
    + intros event ev'. destruct (He ev') as [Hu Hc].
      rewrite handlers_removeAllListeners.
      assert (Hn : unique [] /\ created_before (allocated (removeAllListeners event e)) [])
        by (split; [exact I | constructor]).
      assert (Ha : allocated (removeAllListeners event e) = allocated e)
        by (unfold removeAllListeners; destruct event as [name|];
            [destruct (String.eqb name "")|]; reflexivity).
      destruct event as [name|]; [|exact Hn].
      destruct (String.eqb name ""); [exact Hn|].
      destruct (String.eqb name ev'); [exact Hn|].
      rewrite Ha. auto.
Qed.

(** X18.  Registering the same function twice with [on] registers it once:
    the second [on] changes no listener count.  [once] is different: every
    call wraps the function anew, so two calls of [once] with the same
    function add two listeners, and one [emit] calls the function twice. *)
Theorem on_once_registration (Payload : Type) (throws : nat -> Payload -> bool)
    (ev : string) (fn : nat) (data : Payload) (e : t) :
  wf e ->
  (forall ev', listenerCount ev' (on ev fn (on ev fn e))
               = listenerCount ev' (on ev fn e))
  /\ listenerCount ev (once ev fn (once ev fn e))
     = (listenerCount ev e + 2)%nat
  /\ snd (emit Payload throws ev data (once ev fn (once ev fn e)))
     = snd (emit Payload throws ev data e) ++ [(fn, data); (fn, data)].
Proof.
  intros He. destruct (He ev) as [Hu Hc].
  assert (H1 : handlers ev (once ev fn e)
               = handlers ev e ++ [OnceWrapper (allocated e) fn]).
  { rewrite handlers_once, String.eqb_refl. unfold set_add.
    now rewrite (fresh_wrapper_absent (allocated e)) by (auto; lia). }
  assert (Ha : allocated (once ev fn e) = S (allocated e))
    by (unfold once; now rewrite allocated_add).
  assert (H2 : handlers ev (once ev fn (once ev fn e))
               = handlers ev e ++ [OnceWrapper (allocated e) fn;
                                   OnceWrapper (S (allocated e)) fn]).
  { rewrite handlers_once, String.eqb_refl, H1, Ha. unfold set_add.
    rewrite (fresh_wrapper_absent (S (allocated e))).
    - now rewrite <- app_assoc.
    - unfold created_before in *. apply Forall_app. split.
      + eapply Forall_impl; [|exact Hc]. intros [g|w g]; [trivial | lia].
      + constructor; [lia | constructor].
    - lia. }
  split; [|split].
  - intros ev'. rewrite !listenerCount_handlers. unfold on.
    rewrite !handlers_add. destruct (String.eqb ev ev'); [|reflexivity].
    unfold set_add at 1.
    assert (Hin : existsb (same (Client fn)) (set_add (Client fn) (handlers ev' e))
                  = true).
    { unfold set_add. destruct (existsb (same (Client fn)) (handlers ev' e)) eqn:E;
        [exact E|].
      rewrite existsb_app. cbn [existsb]. rewrite same_refl.
      now rewrite orb_true_r. }
    now rewrite Hin.
  - rewrite !listenerCount_handlers, H2, length_app. reflexivity.
  - rewrite !emit_calls_every_listener, H2, map_app. reflexivity.
Qed.

(** X19.  [off] undoes [on]: when the function was not registered for the
    event, [on] followed by [off] leaves the listeners of every event as
    they were. *)
Theorem off_undoes_on (ev : string) (fn : nat) (e : t) :
  existsb (same (Client fn)) (handlers ev e) = false ->
  forall ev', handlers ev' (off ev fn (on ev fn e)) = handlers ev' e.
Proof.
  intros Hn ev'. unfold off, on. rewrite handlers_delete, handlers_add.
  destruct (String.eqb ev ev') eqn:E; [|reflexivity].
  apply String.eqb_eq in E. subst ev'.
  unfold set_add. rewrite Hn, set_delete_app, (set_delete_absent _ _ Hn).
  unfold set_delete. cbn [filter]. rewrite same_refl. cbn [negb].
  apply app_nil_r.
Qed.

(** X20.  [off] cannot take back a [once]: the set holds the wrapper, not
    the function the client passed, so after [once] and then [off] with that
    function the wrapper is still registered and the next [emit] calls the
    function. *)
Theorem off_misses_once_listener
    (Payload : Type) (throws : nat -> Payload -> bool)
    (ev : string) (fn : nat) (data : Payload) (e : t) :
  wf e ->
  In (OnceWrapper (allocated e) fn) (handlers ev (off ev fn (once ev fn e)))
  /\ In (fn, data) (snd (emit Payload throws ev data (off ev fn (once ev fn e)))).
Proof.
  intros He. destruct (He ev) as [Hu Hc].
  assert (Hin : In (OnceWrapper (allocated e) fn)
                   (handlers ev (off ev fn (once ev fn e)))).
  { unfold off. rewrite handlers_delete, String.eqb_refl, handlers_once,
      String.eqb_refl.
    unfold set_add.
    rewrite (fresh_wrapper_absent (allocated e)) by (auto; lia).
    unfold set_delete. apply filter_In. split.
    - apply in_or_app. right. now left.
    - reflexivity. }
  split; [exact Hin|].
  rewrite emit_calls_every_listener.
  apply (in_map (fun l => (callee l, data))) in Hin. exact Hin.
Qed.

(** X21.  [removeAllListeners] with an event name removes the listeners of
    that event and no others; without an argument it removes them all -- and
    so it does with the empty name, which the test [if (event)] takes for no
    argument. *)
Theorem removeAllListeners_scope (name : string) (e : t) :
  (name <> ""%string ->
     listenerCount name (removeAllListeners (Some name) e) = O
     /\ forall ev', ev' <> name ->
          handlers ev' (removeAllListeners (Some name) e) = handlers ev' e)
  /\ (forall ev', listenerCount ev' (removeAllListeners None e) = O)
  /\ (forall ev', listenerCount ev' (removeAllListeners (Some ""%string) e) = O).
Proof.
  split; [|split].
  - intros Hne. apply String.eqb_neq in Hne. split.
    + rewrite listenerCount_handlers, handlers_removeAllListeners, Hne.
      now rewrite String.eqb_refl.
    + intros ev' Hev. rewrite handlers_removeAllListeners, Hne.
      apply not_eq_sym in Hev. apply String.eqb_neq in Hev. now rewrite Hev.
  - intros ev'. now rewrite listenerCount_handlers, handlers_removeAllListeners.
  - intros ev'. now rewrite listenerCount_handlers, handlers_removeAllListeners.
Qed.

(** An emitter with one listener registered by [on] and one by [once]. *)
Lemma emit_removes_once_listeners_witness :
  unique (handlers "speech-end" (once "speech-end" 1 (on "speech-end" 0 empty)))
  /\ handlers "speech-end"
       (fst (emit nat (fun _ _ => false) "speech-end" 7%nat
               (once "speech-end" 1 (on "speech-end" 0 empty))))
     = filter (stays nat (fun _ _ => false) 7%nat)
         (handlers "speech-end" (once "speech-end" 1 (on "speech-end" 0 empty))).
Proof.
  assert (H : unique (handlers "speech-end"
                        (once "speech-end" 1 (on "speech-end" 0 empty))))
    by (vm_compute; repeat split).
  split; [exact H|].
  exact (proj1 (emit_removes_once_listeners nat (fun _ _ => false)
                  "speech-end" 7%nat _ H)).
Defined.

Lemma wf_preserved_witness :
  wf empty
  /\ wf (once "speech-start" 3 empty).
Proof.
  split; [exact wf_empty|].
  exact (proj2 (proj2 (proj1 (proj2 (wf_preserved nat (fun _ _ => false))
                                empty wf_empty) "speech-start"%string 3%nat))).
Defined.

Lemma on_once_registration_witness :
  wf empty
  /\ listenerCount "speech-end" (once "speech-end" 4 (once "speech-end" 4 empty))
     = (listenerCount "speech-end" empty + 2)%nat.
Proof.
  split; [exact wf_empty|].
  exact (proj1 (proj2 (on_once_registration nat (fun _ _ => false)
                         "speech-end" 4%nat 0%nat empty wf_empty))).
Defined.

Lemma off_undoes_on_witness :
  existsb (same (Client 2)) (handlers "audio" (on "audio" 1 empty)) = false
  /\ forall ev',
      handlers ev' (off "audio" 2 (on "audio" 2 (on "audio" 1 empty)))
      = handlers ev' (on "audio" 1 empty).
Proof.
  assert (H : existsb (same (Client 2)) (handlers "audio" (on "audio" 1 empty))
              = false) by reflexivity.
  split; [exact H|].
  exact (off_undoes_on "audio" 2 (on "audio" 1 empty) H).
Defined.

Lemma off_misses_once_listener_witness :
  wf empty
  /\ In (5%nat, 0%nat)
        (snd (emit nat (fun _ _ => false) "speech-start" 0%nat
                (off "speech-start" 5 (once "speech-start" 5 empty)))).
Proof.
  split; [exact wf_empty|].
  exact (proj2 (off_misses_once_listener nat (fun _ _ => false)
                  "speech-start" 5%nat 0%nat empty wf_empty)).
Defined.

Lemma removeAllListeners_scope_witness :
  "audio"%string <> ""%string
  /\ listenerCount "audio"
       (removeAllListeners (Some "audio"%string)
          (on "error" 1 (on "audio" 0 empty))) = O.
Proof.
  assert (H : "audio"%string <> ""%string) by discriminate.
  split; [exact H|].
  exact (proj1 (proj1 (removeAllListeners_scope "audio"
                         (on "error" 1 (on "audio" 0 empty))) H)).
Defined.

End EventEmitterFacts.

(** * The audio processor *)

Module AudioProcessorFacts.
Import AudioProcessor.

Ltac compare_all :=
  repeat match goal with
         | H : Qgtb _ _ = true |- _ => apply Qgtb_true in H
         | H : Qgtb _ _ = false |- _ => apply Qgtb_false in H
         end.

(** X22.  The confidence of a segment grows with the probability it is
    computed from, and for a probability of at most 1 it lies between that
    probability and 1. *)
Theorem calculateConfidence_monotone (p q : Q) :
  (p <= q -> calculateConfidence p <= calculateConfidence q)
  /\ (p <= 1 -> p <= calculateConfidence p /\ calculateConfidence p <= 1).
Proof.
  unfold calculateConfidence. split.
  - intros Hpq.
    destruct (Qgtb p 0.9) eqn:P1, (Qgtb p 0.7) eqn:P2, (Qgtb p 0.5) eqn:P3,
             (Qgtb q 0.9) eqn:Q1, (Qgtb q 0.7) eqn:Q2, (Qgtb q 0.5) eqn:Q3;
      compare_all; lra.
  - intros Hp.
    destruct (Qgtb p 0.9) eqn:P1, (Qgtb p 0.7) eqn:P2, (Qgtb p 0.5) eqn:P3;
      compare_all; split; lra.
Qed.

Lemma calculateConfidence_monotone_witness :
  0.6 <= 0.95
  /\ calculateConfidence 0.6 <= calculateConfidence 0.95
  /\ 0.6 <= 1
  /\ 0.6 <= calculateConfidence 0.6.
Proof.
  assert (H1 : 0.6 <= 0.95) by (vm_compute; discriminate).
  assert (H2 : 0.6 <= 1) by (vm_compute; discriminate).
  split; [exact H1|].
  split; [exact (proj1 (calculateConfidence_monotone 0.6 0.95) H1)|].
  split; [exact H2|].
  exact (proj1 (proj2 (calculateConfidence_monotone 0.6 0.95) H2)).
Defined.

Lemma forward_engine_event (e : Emitted) :
  ev_name e = "speech-start"%string \/ ev_name e = "speech-end"%string ->
  flat_map rta_forward (forward e) = [SpeechState (state_event_of e)]
  /\ (forall g, In (SpeechSegment g) (forward e) ->
       ev_name e = "speech-end"%string
       /\ exists seg, segment (ev_data e) = Some seg
                      /\ sg_audio g = seg_audioData seg)
  /\ (ev_name e = "speech-end"%string -> segment (ev_data e) <> None ->
      exists g, forward e = [SpeechState (state_event_of e); SpeechSegment g]).
Proof.
  unfold forward, state_event_of, emitVADEvent.
  intros [Hn | Hn]; rewrite Hn; cbn [String.eqb Ascii.eqb Bool.eqb].
  - cbv zeta. cbn [flat_map rta_forward app].
    split; [reflexivity|]. split.
    + intros g [H|[]]. discriminate.
    + discriminate.
  - cbv zeta. destruct (segment (ev_data e)) as [seg|];
      cbn [flat_map rta_forward app option_map];
      (split; [reflexivity|]); split.
    + intros g [H|[H|[]]]; [discriminate|].
      injection H as <-. split; [reflexivity|]. exists seg. auto.
    + intros _ _. eexists. reflexivity.
    + intros g [H|[]]. discriminate.
    + intros _ H. congruence.
Qed.

(** X23.  Every event a call of [process] makes the engine emit reaches a
    client of [RTA] as exactly one speech-state event, in the same order, of
    type start or end, with the engine's timestamp and probability and, for an
    end with a segment, the duration of the segment.  The processor emits a
    speech-segment event with the audio only after a speech-end that carries a
    segment, and [RTA] does not pass that event on. *)
Theorem engine_events_reach_client
    (run : Float32Array -> Tensor -> Q * Tensor)
    (a : Float32Array) (ts : Q) (s : SileroVAD) :
  let events := outcome_events (process run a ts s) in
  flat_map rta_forward (flat_map forward events)
  = map (fun e => SpeechState (state_event_of e)) events
  /\ forall g, In (SpeechSegment g) (flat_map forward events) ->
       exists e seg,
         In e events /\ ev_name e = "speech-end"%string
         /\ segment (ev_data e) = Some seg /\ sg_audio g = seg_audioData seg.
Proof.
  cbv zeta.
  assert (Hn : Forall (fun e => ev_name e = "speech-start"%string
                               \/ ev_name e = "speech-end"%string)
                      (outcome_events (process run a ts s))).
  { unfold process.
    destruct (process_prepare a ts s) as [s3 combined].
    destruct (frame_loop _ _ _ _ _ _ _ _); [constructor|].
    unfold updateVADState.
    match goal with
    | |- context [updateVADState_step ?p ?t ?d ?x] =>
        pose proof (updateVADState_step_names p t d x) as Hn;
        destruct (updateVADState_step p t d x) as [s6 events]
    end.
    exact Hn. }
  induction Hn as [|e events He _ IH]; [split; [reflexivity | intros g []]|].
  destruct (forward_engine_event e He) as (F1 & F2 & _).
  destruct IH as [IH1 IH2].
  cbn [flat_map map]. rewrite flat_map_app, F1, IH1. split; [reflexivity|].
  intros g Hin. apply in_app_or in Hin. destruct Hin as [Hin|Hin].
  - destruct (F2 g Hin) as (Hname & seg & Hseg & Haud).
    exists e, seg. repeat split; auto. now left.
  - destruct (IH2 g Hin) as (e' & seg & Hin' & H).
    exists e', seg. split; [now right | exact H].
Qed.

Lemma js_max_zero (x : Q) :
  0 <= js_max 0 x
  /\ (0 <= x -> js_max 0 x == x)
  /\ (x <= 0 -> js_max 0 x == 0).
Proof.
  unfold js_max.
  repeat match goal with
         | |- context [if ?c then _ else _] => destruct c eqn:?
         end;
    compare_all;
    repeat match goal with
           | H : Qle_bool _ _ = true |- _ => apply Qle_bool_iff in H
           | H : Qle_bool ?a ?b = false |- _ =>
               assert (b < a)
                 by (apply Qnot_le_lt; intro H'; apply Qle_bool_iff in H';
                     congruence);
               clear H
           end;
    (split; [|split]); intros; lra.
Qed.

(** X24.  The speech-segment event of a finalisation at an end time that is
    not negative has its window in order: [startTime] is not negative and
    not after [endTime], which is the end time in milliseconds.  Its duration
    is not negative and is the duration the speech-state event before it
    reports, and its audio is the samples buffered from the cut index on.
    Only the order of the times is stated, which the rounding of the source's
    arithmetic keeps; how the length of the window compares with the
    duration is not. *)
Theorem segment_event_window (ts p : Q) (s : SileroVAD) :
  0 <= ts ->
  exists st g,
    emitVADEvent end_ (mkEventData false p ts (Some (createSpeechSegment ts s)))
    = [SpeechState st; SpeechSegment g]
    /\ se_duration st = Some (sg_duration g)
    /\ sg_audio g
       = concat (slice_from (speechStartBufferIndex s) (audioBuffer s))
    /\ sg_endTime g = ts * 1000
    /\ 0 <= sg_duration g
    /\ 0 <= sg_startTime g
    /\ sg_startTime g <= sg_endTime g.
Proof.
  intros Hts.
  unfold emitVADEvent. cbv zeta. cbn [segment timestamp probability].
  eexists _, _. split; [reflexivity|].
  cbn [se_duration sg_duration sg_endTime sg_startTime sg_audio].
  unfold createSpeechSegment. cbv zeta.
  cbn [seg_duration seg_end seg_start seg_audioData].
  set (n := inject_Z (Z.of_nat (total_length
              (slice_from (speechStartBufferIndex s) (audioBuffer s))))).
  assert (Hn : 0 <= n)
    by (subst n; change 0 with (inject_Z 0); rewrite <- Zle_Qle; lia).
  assert (Hd : n / 16000 * 1000 == n / 16) by field.
  assert (Hx : ts - n / 16000 * 1000 / 1000 == ts - n / 16000) by field.
  assert (Hd0 : 0 <= n / 16) by (apply Qle_shift_div_l; [reflexivity | lra]).
  assert (Hd1 : 0 <= n / 16000)
    by (apply Qle_shift_div_l; [reflexivity | lra]).
  destruct (js_max_zero (ts - n / 16000 * 1000 / 1000)) as (M0 & M1 & M2).
  set (m := js_max 0 (ts - n / 16000 * 1000 / 1000)) in *.
  split; [reflexivity|]. split; [reflexivity|]. split; [reflexivity|].
  split; [rewrite Hd; exact Hd0|].
  split; [lra|].
  assert (Hm : m <= ts).
  { destruct (Qlt_le_dec (ts - n / 16000) 0) as [Hneg|Hpos].
    - assert (Em : m == 0) by (apply M2; rewrite Hx; lra).
      rewrite Em. exact Hts.
    - assert (Em : m == ts - n / 16000)
        by (rewrite <- Hx; apply M1; rewrite Hx; exact Hpos).
      rewrite Em. lra. }
  lra.
Qed.

(** A finalisation at 0.416 s on the engine in the middle of a speech. *)
Lemma segment_event_window_witness :
  0 <= 0.416
  /\ exists st g,
      emitVADEvent end_ (mkEventData false 0.9 0.416
                           (Some (createSpeechSegment 0.416 speaking_engine)))
      = [SpeechState st; SpeechSegment g]
      /\ 0 <= sg_startTime g
      /\ sg_startTime g <= sg_endTime g.
Proof.
  assert (H : 0 <= 0.416) by (vm_compute; discriminate).
  split; [exact H|].
  destruct (segment_event_window 0.416 0.9 speaking_engine H)
    as (st & g & He & _ & _ & _ & _ & H0 & H1).
  exists st, g. split; [exact He|]. split; [exact H0 | exact H1].
Defined.

Lemma js_max_cases (a b : Q) :
  (js_max a b = a \/ js_max a b = b) /\ a <= js_max a b /\ b <= js_max a b.
Proof.
  unfold js_max. destruct (Qle_bool a b) eqn:E.
  - apply Qle_bool_iff in E. split; [now right | split; lra].
  - assert (b < a)
      by (apply Qnot_le_lt; intro H; apply Qle_bool_iff in H; congruence).
    split; [now left | split; lra].
Qed.

Lemma fold_max_ge (l : list Q) (acc : Q) :
  acc <= fold_left js_max l acc
  /\ Forall (fun x => x <= fold_left js_max l acc) l.
Proof.
  revert acc. induction l as [|x l IH]; intros acc; cbn [fold_left].
  - split; [lra | constructor].
  - destruct (IH (js_max acc x)) as [H1 H2].
    destruct (js_max_cases acc x) as (_ & A & B).
    split; [lra|]. constructor; [lra | exact H2].
Qed.

Lemma fold_max_in (l : list Q) (acc : Q) :
  fold_left js_max l acc = acc \/ In (fold_left js_max l acc) l.
Proof.
  revert acc. induction l as [|x l IH]; intros acc; cbn [fold_left].
  - now left.
  - destruct (IH (js_max acc x)) as [H|H].
    + rewrite H. destruct (js_max_cases acc x) as ([E|E] & _); rewrite E.
      * now left.
      * right. now left.
    + right. now right.
Qed.

Lemma max_abs_spec (first : Sample) (rest : Float32Array) :
  Forall (fun x => Qabs x <= max_abs first rest) (first :: rest)
  /\ (exists x, In x (first :: rest) /\ max_abs first rest = Qabs x).
Proof.
  unfold max_abs.
  destruct (fold_max_ge (map Qabs rest) (Qabs first)) as [H1 H2].
  split.
  - constructor; [exact H1|].
    rewrite Forall_forall in *. intros x Hx. apply H2. now apply in_map.
  - destruct (fold_max_in (map Qabs rest) (Qabs first)) as [H|H].
    + exists first. split; [now left | exact H].
    + apply in_map_iff in H. destruct H as (x & Hx & Hin).
      exists x. split; [now right | now symmetry].
Qed.

Lemma Qabs_zero_iff (x : Q) : Qabs x == 0 <-> x == 0.
Proof.
  split.
  - apply Qabs_case; intros; lra.
  - intros H. rewrite H. reflexivity.
Qed.

(** X25.  [normalize] keeps the length; every sample of its result lies in
    [-1, 1]; an array of zeroes is returned as it is; and an array with a
    sample that is not 0 is divided by one positive number, the largest
    absolute value in it, so that the largest absolute value of the result
    is 1. *)
Theorem normalize_range (data : Float32Array) :
  length (normalize data) = length data
  /\ (Forall (fun x => x == 0) data -> normalize data = data)
  /\ (Exists (fun x => ~ x == 0) data ->
      exists peak x,
        In x data /\ peak = Qabs x /\ 0 < peak
        /\ Forall (fun y => Qabs y <= peak) data
        /\ normalize data = map (fun y => y / peak) data
        /\ Forall (fun y => Qabs y <= 1) (normalize data)
        /\ Exists (fun y => Qabs y == 1) (normalize data)).
Proof.
  destruct data as [|first rest]; cbn [normalize].
  { split; [reflexivity|]. split; [reflexivity|].
    intros H. inversion H. }
  cbv zeta.
  destruct (max_abs_spec first rest) as (Hle & x & Hin & Hmax).
  set (m := max_abs first rest) in *.
  split; [destruct (Qeq_bool m 0); [reflexivity | apply length_map]|].
  split.
  - intros Hz.
    assert (E : m == 0).
    { rewrite Hmax. apply Qabs_zero_iff.
      rewrite Forall_forall in Hz. now apply Hz. }
    apply Qeq_bool_iff in E. rewrite E. reflexivity.
  - intros Hnz. apply Exists_exists in Hnz. destruct Hnz as (y & Hy & Hy0).
    assert (Hpos : 0 < m).
    { rewrite Forall_forall in Hle. specialize (Hle y Hy).
      pose proof (Qabs_nonneg y) as Hn.
      destruct (Qlt_le_dec 0 m) as [H|H]; [exact H|].
      exfalso. apply Hy0, Qabs_zero_iff. lra. }
    assert (E : Qeq_bool m 0 = false).
    { destruct (Qeq_bool m 0) eqn:E; [|reflexivity].
      apply Qeq_bool_iff in E. lra. }
    rewrite E.
    assert (Habs : forall z, Qabs (z / m) == Qabs z / m).
    { intros z. unfold Qdiv. rewrite Qabs_Qmult.
      rewrite (Qabs_pos (/ m)); [reflexivity|].
      apply Qinv_le_0_compat. lra. }
    exists m, x.
    split; [exact Hin|]. split; [exact Hmax|]. split; [exact Hpos|].
    split; [exact Hle|]. split; [reflexivity|]. split.
    + rewrite Forall_forall in *. intros z Hz.
      apply in_map_iff in Hz. destruct Hz as (w & <- & Hw).
      rewrite Habs. apply Qle_shift_div_r; [exact Hpos|].
      specialize (Hle w Hw). lra.
    + apply Exists_exists. exists (x / m).
      split; [apply in_map_iff; exists x; split; [reflexivity | exact Hin]|].
      rewrite Habs, <- Hmax. field. lra.
Qed.

Lemma normalize_range_witness :
  Exists (fun x => ~ x == 0) [0.25; -0.5]
  /\ Forall (fun y => Qabs y <= 1) (normalize [0.25; -0.5]).
Proof.
  assert (H : Exists (fun x => ~ x == 0) [0.25; -0.5])
    by (apply Exists_cons_hd; vm_compute; discriminate).
  split; [exact H|].
  destruct (proj2 (proj2 (normalize_range [0.25; -0.5])) H)
    as (peak & x & _ & _ & _ & _ & _ & Hr & _).
  exact Hr.
Defined.

End AudioProcessorFacts.

(** * The capture worklet *)

Module WorkletFacts.
Import Worklet.

(** The loop takes the first samples of the queue, as many as the chunk
    still has room for, and leaves the rest queued. *)
Lemma extract_loop_spec (queue : list Float32Array) (fpc : nat) :
  forall (offset : nat) (written : Float32Array),
    (offset <= fpc)%nat ->
    let '(w, q, o) := extract_loop queue fpc offset written in
    w = written ++ firstn (fpc - offset) (concat queue)
    /\ concat q = skipn (fpc - offset) (concat queue)
    /\ o = Nat.min fpc (offset + length (concat queue)).
Proof.
  induction queue as [|block rest IH]; intros offset written Hle.
  - cbn [extract_loop concat length]. rewrite firstn_nil, skipn_nil, app_nil_r.
    repeat split. lia.
  - cbn [extract_loop concat]. cbv zeta.
    destruct (offset <? fpc)%nat eqn:Ho.
    + apply Nat.ltb_lt in Ho.
      destruct (length block <=? fpc - offset)%nat eqn:Hb.
      * apply Nat.leb_le in Hb.
        specialize (IH (offset + length block)%nat (written ++ block)).
        destruct (extract_loop rest fpc (offset + length block) (written ++ block))
          as [[w q] o].
        destruct IH as (Hw & Hq & Hoff); [lia|].
        replace (fpc - (offset + length block))%nat
          with (fpc - offset - length block)%nat in * by lia.
        rewrite firstn_app, skipn_app, length_app.
        rewrite (firstn_all2 block) by lia.
        rewrite (skipn_all2 block) by lia.
        cbn [app]. rewrite Hw, Hq, <- app_assoc.
        repeat split. lia.
      * apply Nat.leb_gt in Hb.
        rewrite firstn_app, skipn_app, length_app.
        replace (fpc - offset - length block)%nat with 0%nat by lia.
        cbn [firstn skipn concat]. rewrite app_nil_r.
        repeat split. lia.
    + apply Nat.ltb_ge in Ho.
      replace (fpc - offset)%nat with 0%nat by lia.
      cbn [firstn skipn concat]. rewrite app_nil_r.
      repeat split. lia.
Qed.

Lemma extractChunk_spec (p : Processor) :
  let total := length (concat (buffer p)) in
  let fpc := framesPerChunk p in
  fst (extractChunk p)
  = firstn fpc (concat (buffer p)) ++ repeat 0 (fpc - total)
  /\ concat (buffer (snd (extractChunk p))) = skipn fpc (concat (buffer p))
  /\ framesPerChunk (snd (extractChunk p)) = fpc.
Proof.
  cbv zeta. unfold extractChunk.
  pose proof (extract_loop_spec (buffer p) (framesPerChunk p) 0 [] (Nat.le_0_l _))
    as H.
  destruct (extract_loop (buffer p) (framesPerChunk p) 0 []) as [[w q] o].
  rewrite Nat.sub_0_r in H. destruct H as (Hw & Hq & Ho).
  cbn [fst snd buffer framesPerChunk app] in *.
  subst w o. split; [|split; [exact Hq | reflexivity]].
  f_equal. f_equal. lia.
Qed.

Lemma process_spec_mono (block : Float32Array) (p : Processor) :
  let fpc := framesPerChunk p in
  let queued := concat (buffer p) ++ block in
  framesPerChunk (fst (process [[block]] p)) = fpc
  /\ if (fpc <=? length queued)%nat
     then snd (process [[block]] p) = Some (firstn fpc queued)
          /\ concat (buffer (fst (process [[block]] p))) = skipn fpc queued
     else snd (process [[block]] p) = None
          /\ concat (buffer (fst (process [[block]] p))) = queued.
Proof.
  cbv zeta. unfold process. cbv zeta. cbn [buffer framesPerChunk].
  rewrite total_length_concat, concat_app. cbn [concat]. rewrite app_nil_r.
  destruct (framesPerChunk p <=? length (concat (buffer p) ++ block))%nat eqn:E.
  - apply Nat.leb_le in E.
    pose proof (extractChunk_spec
                  (mkProcessor (buffer p ++ [block]) (framesPerChunk p))) as H.
    cbv zeta in H. cbn [buffer framesPerChunk] in H.
    rewrite concat_app in H. cbn [concat] in H. rewrite app_nil_r in H.
    destruct (extractChunk (mkProcessor (buffer p ++ [block]) (framesPerChunk p)))
      as [chunk p2].
    cbn [fst snd] in *. destruct H as (Hc & Hq & Hf).
    split; [exact Hf|]. split; [|exact Hq].
    rewrite Hc.
    replace (framesPerChunk p - length (concat (buffer p) ++ block))%nat
      with 0%nat by lia.
    cbn [repeat]. rewrite app_nil_r. reflexivity.
  - cbn [fst snd buffer framesPerChunk].
    rewrite concat_app. cbn [concat]. rewrite app_nil_r. auto.
Qed.

(** X26.  The worklet neither loses nor reorders nor invents samples: after
    any sequence of blocks, the chunks posted followed by what is still
    queued are the samples that were queued before followed by the blocks;
    and every chunk posted by a processor with a chunk size has exactly
    [framesPerChunk] samples. *)
Theorem worklet_conserves_samples (blocks : list Float32Array) :
  forall p : Processor,
    let p' := fst (process_blocks blocks p) in
    let chunks := snd (process_blocks blocks p) in
    concat chunks ++ concat (buffer p')
    = concat (buffer p) ++ concat blocks
    /\ Forall (fun chunk => length chunk = framesPerChunk p) chunks
    /\ framesPerChunk p' = framesPerChunk p.
Proof.
  cbv zeta.
  induction blocks as [|block rest IH]; intros p.
  - cbn [process_blocks fst snd concat]. rewrite app_nil_r.
    split; [reflexivity|]. split; [constructor | reflexivity].
  - cbn [process_blocks].
    pose proof (process_spec_mono block p) as H. cbv zeta in H.
    destruct (process [[block]] p) as [p1 posted]. cbn [fst snd] in H.
    specialize (IH p1).
    destruct (process_blocks rest p1) as [p2 later]. cbn [fst snd] in *.
    destruct H as (Hf & H). destruct IH as (Hc & Hall & Hf2).
    rewrite Hf in *. cbn [concat]. rewrite app_assoc.
    destruct (framesPerChunk p <=? length (concat (buffer p) ++ block))%nat eqn:E.
    + apply Nat.leb_le in E. destruct H as (-> & Hq).
      split; [|split; [|exact Hf2]].
      * cbn [concat]. rewrite <- app_assoc, Hc, Hq, app_assoc.
        rewrite firstn_skipn. reflexivity.
      * constructor; [|exact Hall]. rewrite length_firstn. lia.
    + destruct H as (-> & Hq).
      split; [|split; [exact Hall | exact Hf2]].
      rewrite Hc, Hq. reflexivity.
Qed.

(** X27.  A processor that holds less than a chunk, fed blocks of at most a
    chunk each (the audio thread's blocks of 128 samples with a chunk of 128
    or more), holds less than a chunk after every block: every call of
    [process] that completes a chunk posts it, never more than one chunk is
    waiting, and the chunks posted are as many as the samples held and
    received make up. *)
Theorem worklet_backlog_bound (blocks : list Float32Array) :
  forall p : Processor,
    (total_length (buffer p) < framesPerChunk p)%nat ->
    Forall (fun block => (length block <= framesPerChunk p)%nat) blocks ->
    (total_length (buffer (fst (process_blocks blocks p)))
     < framesPerChunk p)%nat
    /\ length (snd (process_blocks blocks p))
       = ((total_length (buffer p) + total_length blocks)
          / framesPerChunk p)%nat.
Proof.
  induction blocks as [|block rest IH]; intros p Hp Hall.
  - cbn [process_blocks fst snd length]. split; [exact Hp|].
    unfold total_length at 2. cbn [fold_left].
    rewrite Nat.add_0_r. symmetry. apply Nat.div_small. exact Hp.
  - inversion Hall as [|? ? Hb Hrest]; subst.
    cbn [process_blocks].
    pose proof (process_spec_mono block p) as H. cbv zeta in H.
    destruct (process [[block]] p) as [p1 posted]. cbn [fst snd] in H.
    destruct H as (Hf & H).
    specialize (IH p1). rewrite Hf in IH.
    rewrite !total_length_concat in *.
    assert (Hcat : length (concat (block :: rest))
                   = (length block + length (concat rest))%nat)
      by (cbn [concat]; apply length_app).
    rewrite Hcat. rewrite length_app in H.
    destruct (framesPerChunk p <=? length (concat (buffer p)) + length block)%nat
      eqn:E.
    + apply Nat.leb_le in E. destruct H as (-> & Hq).
      assert (Hlen : length (concat (buffer p1))
                     = (length (concat (buffer p)) + length block
                        - framesPerChunk p)%nat)
        by (rewrite Hq, length_skipn, length_app; reflexivity).
      destruct (process_blocks rest p1) as [p2 later]. cbn [fst snd] in *.
      destruct IH as (IH1 & IH2); [lia | exact Hrest |].
      split; [exact IH1|].
      cbn [length]. rewrite IH2, Hlen.
      replace (length (concat (buffer p)) + (length block + length (concat rest)))%nat
        with ((length (concat (buffer p)) + length block - framesPerChunk p
               + length (concat rest)) + 1 * framesPerChunk p)%nat by lia.
      rewrite Nat.div_add by lia. lia.
    + apply Nat.leb_gt in E. destruct H as (-> & Hq).
      assert (Hlen : length (concat (buffer p1))
                     = (length (concat (buffer p)) + length block)%nat)
        by (rewrite Hq, length_app; reflexivity).
      destruct (process_blocks rest p1) as [p2 later]. cbn [fst snd] in *.
      destruct IH as (IH1 & IH2); [lia | exact Hrest |].
      split; [exact IH1|].
      rewrite IH2, Hlen. f_equal. lia.
Qed.

(** A processor with a chunk of three samples that holds two, given a
    block of one sample and a block of two. *)
Lemma worklet_backlog_bound_witness :
  let p := mkProcessor [[0.1%Q; 0.2%Q]] 3 in
  let blocks := [[0.3%Q]; [0.4%Q; 0.5%Q]] in
  (total_length (buffer p) < framesPerChunk p)%nat
  /\ Forall (fun block => (length block <= framesPerChunk p)%nat) blocks
  /\ (total_length (buffer (fst (process_blocks blocks p)))
      < framesPerChunk p)%nat.
Proof.
  cbv zeta.
  assert (H1 : (total_length (buffer (mkProcessor [[0.1%Q; 0.2%Q]] 3))
                < framesPerChunk (mkProcessor [[0.1%Q; 0.2%Q]] 3))%nat)
    by (vm_compute; lia).
  assert (H2 : Forall (fun block =>
                         (length block
                          <= framesPerChunk (mkProcessor [[0.1%Q; 0.2%Q]] 3))%nat)
                      [[0.3%Q]; [0.4%Q; 0.5%Q]])
    by (repeat constructor).
  split; [exact H1|]. split; [exact H2|].
  exact (proj1 (worklet_backlog_bound [[0.3%Q]; [0.4%Q; 0.5%Q]]
                                      (mkProcessor [[0.1%Q; 0.2%Q]] 3) H1 H2)).
Defined.

(** X28.  Before its configuration message arrives the chunk size is 0: the
    processor then posts an empty chunk for every block it is given and
    keeps every block queued. *)
Theorem worklet_unconfigured (blocks : list Float32Array) :
  forall p : Processor,
    framesPerChunk p = 0%nat ->
    process_blocks blocks p
    = (mkProcessor (buffer p ++ blocks) 0, map (fun _ => []) blocks).
Proof.
  induction blocks as [|block rest IH]; intros p Hp.
  - cbn [process_blocks map]. rewrite app_nil_r. destruct p as [b f].
    cbn in Hp. subst f. reflexivity.
  - cbn [process_blocks]. unfold process. cbv zeta. rewrite Hp.
    cbn [framesPerChunk buffer Nat.leb].
    unfold extractChunk. cbn [framesPerChunk buffer].
    assert (E : forall q w, extract_loop q 0 0 w = (w, q, 0%nat)).
    { intros q w. destruct q; reflexivity. }
    rewrite E. cbn [repeat Nat.sub app].
    rewrite (IH (mkProcessor (buffer p ++ [block]) 0) eq_refl).
    cbn [buffer map]. rewrite <- app_assoc. reflexivity.
Qed.

(** A new processor given two blocks before its configuration. *)
Lemma worklet_unconfigured_witness :
  framesPerChunk new_Processor = 0%nat
  /\ process_blocks [[0.1]; [0.2; 0.3]] new_Processor
     = (mkProcessor (buffer new_Processor ++ [[0.1]; [0.2; 0.3]]) 0,
        map (fun _ => []) [[0.1]; [0.2; 0.3]]).
Proof.
  split; [reflexivity|].
  exact (worklet_unconfigured [[0.1]; [0.2; 0.3]] new_Processor eq_refl).
Defined.

End WorkletFacts.
